(** * Stacks.js: Clarity value codec, BNS transaction builders,
      session store and profile zone files

    A shallow embedding of the parts of the repository that its
    specification talks about, and the proofs of the specification's
    claims over that embedding.

    - [Bytes], [BufferReader], [Utf8], [Clarity]: the Clarity value wire
      format of packages/transactions/src/clarity, which
      packages/transactions/tests/clarity.test.ts exercises; the codec
      is modelled from the specification.
    - [Bns]: the BNS contract-call builders and read-only queries
      (src/unnamed/part_003).
    - [SessionStore]: the [InstanceDataStore] session store
      (src/unnamed/part_000).
    - [ProfileZoneFiles]: [getTokenFileUrl] (src/unnamed/part_001).
    - [BnsNamespace], [BnsCalls]: the namespace builders of
      src/unnamed/part_003, and the calls that a BNS operation makes.
    - [LocalStorage]: the [LocalStorageStore] session store
      (src/unnamed/part_000).
    - [JsString], [Profiles]: [makeProfileZoneFile] and
      [resolveZoneFileToProfile] (src/unnamed/part_001),
      [resolveZoneFileToPerson] (src/unnamed/part_002) and
      [lookupProfile] (src/src/profiles/profileLookup.ts).
    - [Safety]: [isNameValid] and [isNamespaceValid]
      (src/src/operations/safety.ts). *)

From Stdlib Require Import ZArith Lia Ascii String List Bool DecimalString.
From stdpp Require Import base tactics option list sorting strings pretty gmap.
Import ListNotations.

Local Open Scope Z_scope.

(** ** Results of fallible operations *)

Inductive result (E A : Type) : Type :=
| Ok (a : A)
| Err (e : E).
Arguments Ok {E A} a.
Arguments Err {E A} e.

(** ** Bytes

    A byte is a [Z] in [0, 256); a buffer is a list of bytes. *)

Module Bytes.

Definition is_byte (b : Z) : Prop := 0 <= b < 256.

Definition wf_bytes (bs : list Z) : Prop := Forall is_byte bs.

(** [Buffer.from(s)] for a string held as its sequence of bytes. *)
Definition byte_of_ascii (c : ascii) : Z := Z.of_N (N_of_ascii c).
Definition ascii_of_byte (b : Z) : ascii := ascii_of_N (Z.to_N b).

Fixpoint Buffer_from (s : string) : list Z :=
  match s with
  | EmptyString => []
  | String c s' => byte_of_ascii c :: Buffer_from s'
  end.

Fixpoint string_of_bytes (bs : list Z) : string :=
  match bs with
  | [] => EmptyString
  | b :: bs' => String (ascii_of_byte b) (string_of_bytes bs')
  end.

(** Big-endian fixed-width unsigned integers ([writeUInt32BE],
    [readUInt32BE] and the 16-byte blocks of the integer variants). *)
Fixpoint toBytesBE (n : nat) (v : Z) : list Z :=
  match n with
  | O => []
  | S k => (v / 256 ^ Z.of_nat k) mod 256 :: toBytesBE k v
  end.

Fixpoint fromBytesBE (bs : list Z) : Z :=
  match bs with
  | [] => 0
  | b :: bs' => b * 256 ^ Z.of_nat (length bs') + fromBytesBE bs'
  end.

(** [buf.toString('hex')]. *)
Definition hexDigit (d : Z) : ascii :=
  if d <? 10 then ascii_of_byte (48 + d) else ascii_of_byte (87 + d).

Fixpoint toHex (bs : list Z) : string :=
  match bs with
  | [] => EmptyString
  | b :: bs' => String (hexDigit (b / 16)) (String (hexDigit (b mod 16)) (toHex bs'))
  end.

(** [Buffer.compare]: lexicographic by byte value, a proper prefix is
    smaller. *)
Fixpoint compare (a b : list Z) : comparison :=
  match a, b with
  | [], [] => Eq
  | [], _ :: _ => Lt
  | _ :: _, [] => Gt
  | x :: a', y :: b' =>
      match Z.compare x y with
      | Eq => compare a' b'
      | c => c
      end
  end.

End Bytes.

(** ** Byte reader (specification, section 4.1) *)

Module BufferReader.

Inductive error : Type :=
| OutOfBounds
| DecodeError (msg : string).

(** Modelled from the spec: the byte reader of
    packages/transactions/src/bufferReader.ts, a fixed buffer with a
    cursor that starts at 0. *)
Record BufferReader : Type := mkReader {
  buffer : list Z;
  offset : nat
}.

Definition new (bs : list Z) : BufferReader := mkReader bs 0.

Definition remaining (r : BufferReader) : list Z := drop (offset r) (buffer r).

Definition advance (n : nat) (r : BufferReader) : BufferReader :=
  mkReader (buffer r) (offset r + n).

(** A read is a function from the reader to a value and the advanced
    reader, or an error. *)
Definition Reader (A : Type) : Type := BufferReader -> result error (A * BufferReader).

Definition ret {A} (a : A) : Reader A := fun r => Ok (a, r).

Definition fail {A} (e : error) : Reader A := fun _ => Err e.

Definition bind {A B} (m : Reader A) (k : A -> Reader B) : Reader B :=
  fun r =>
    match m r with
    | Ok (a, r') => k a r'
    | Err e => Err e
    end.

(** Modelled from the spec: [readByte] returns the next byte and
    advances by 1; OutOfBounds when the cursor is at or past the end. *)
Definition readByte : Reader Z :=
  fun r =>
    match buffer r !! offset r with
    | Some b => Ok (b, advance 1 r)
    | None => Err OutOfBounds
    end.

(** Modelled from the spec: [readBuffer n] returns the next [n] bytes
    and advances by [n]; OutOfBounds when fewer than [n] remain. *)
Definition readBuffer (n : nat) : Reader (list Z) :=
  fun r =>
    if (n <=? length (remaining r))%nat
    then Ok (take n (remaining r), advance n r)
    else Err OutOfBounds.

Definition readUInt32BE : Reader Z :=
  bind (readBuffer 4) (fun bs => ret (Bytes.fromBytesBE bs)).

Definition readUInt8 : Reader Z := readByte.

(** [count] reads in sequence. *)
Fixpoint replicateM {A} (count : nat) (m : Reader A) : Reader (list A) :=
  match count with
  | O => ret []
  | S k => bind m (fun a => bind (replicateM k m) (fun l => ret (a :: l)))
  end.

(** [parses m bs a]: wherever the bytes [bs] lie ahead of the cursor,
    [m] returns [a] and leaves the cursor just past them. *)
Definition parses {A} (m : Reader A) (bs : list Z) (a : A) : Prop :=
  forall r rest,
    remaining r = bs ++ rest -> m r = Ok (a, advance (length bs) r).

(** A reader that succeeds leaves no more ahead of the cursor than
    there was: there is no seeking backward. *)
Definition forward_only {A} (m : Reader A) : Prop :=
  forall r a r',
    m r = Ok (a, r') -> (length (remaining r') <= length (remaining r))%nat.

(** Two readers that do the same wherever fewer than [n] bytes are
    left. *)
Definition agree_below {A} (n : nat) (m m' : Reader A) : Prop :=
  forall r, (length (remaining r) < n)%nat -> m r = m' r.

End BufferReader.

(** ** UTF-8

    A UTF-8 string value is held as its sequence of code points; the
    wire carries the encoded bytes. *)

Module Utf8.

Definition is_scalar (c : Z) : Prop :=
  0 <= c < 55296 \/ 57344 <= c < 1114112.

(** Modelled from the spec: the UTF-8 bytes of a StringUtf8 payload,
    one to four bytes for each code point. *)
Definition encode_cp (c : Z) : list Z :=
  if c <? 128 then [c]
  else if c <? 2048 then [192 + c / 64; 128 + c mod 64]
  else if c <? 65536 then
    [224 + c / 4096; 128 + (c / 64) mod 64; 128 + c mod 64]
  else
    [240 + c / 262144; 128 + (c / 4096) mod 64;
     128 + (c / 64) mod 64; 128 + c mod 64].

Definition encode (s : list Z) : list Z := flat_map encode_cp s.

Definition is_cont (b : Z) : bool := (128 <=? b) && (b <? 192).

Definition scalarb (c : Z) : bool :=
  ((0 <=? c) && (c <? 55296)) || ((57344 <=? c) && (c <? 1114112)).

(** Modelled from the spec: decoding of the UTF-8 bytes of a
    StringUtf8 payload. The decoding is strict: overlong forms,
    surrogates, values past U+10FFFF, stray continuation bytes and
    truncated sequences are rejected. *)
Fixpoint decode (bs : list Z) : option (list Z) :=
  match bs with
  | [] => Some []
  | b0 :: r0 =>
      if b0 <? 0 then None
      else if b0 <? 128 then cons b0 <$> decode r0
      else if b0 <? 192 then None
      else if b0 <? 224 then
        match r0 with
        | b1 :: r1 =>
            let c := (b0 - 192) * 64 + (b1 - 128) in
            if is_cont b1 && (128 <=? c) then cons c <$> decode r1 else None
        | _ => None
        end
      else if b0 <? 240 then
        match r0 with
        | b1 :: b2 :: r2 =>
            let c := (b0 - 224) * 4096 + (b1 - 128) * 64 + (b2 - 128) in
            if is_cont b1 && is_cont b2 && (2048 <=? c) && scalarb c
            then cons c <$> decode r2 else None
        | _ => None
        end
      else if b0 <? 248 then
        match r0 with
        | b1 :: b2 :: b3 :: r3 =>
            let c := (b0 - 240) * 262144 + (b1 - 128) * 4096
                     + (b2 - 128) * 64 + (b3 - 128) in
            if is_cont b1 && is_cont b2 && is_cont b3
               && (65536 <=? c) && scalarb c
            then cons c <$> decode r3 else None
        | _ => None
        end
      else None
  end.

End Utf8.

(** ** Clarity values (specification, section 3) *)

Module Clarity.
Import Bytes BufferReader.

(** Modelled from the spec: the type tags of the table in section 3. *)
Inductive ClarityType : Type :=
| Int | UInt | Buffer | BoolTrue | BoolFalse
| PrincipalStandard | PrincipalContract
| ResponseOk | ResponseErr
| OptionalNone | OptionalSome
| List | Tuple | StringASCII | StringUTF8.

Definition typeId (t : ClarityType) : Z :=
  match t with
  | Int => 0 | UInt => 1 | Buffer => 2 | BoolTrue => 3 | BoolFalse => 4
  | PrincipalStandard => 5 | PrincipalContract => 6
  | ResponseOk => 7 | ResponseErr => 8
  | OptionalNone => 9 | OptionalSome => 10
  | List => 11 | Tuple => 12 | StringASCII => 13 | StringUTF8 => 14
  end.

Definition typeOfId (b : Z) : option ClarityType :=
  match b with
  | 0 => Some Int | 1 => Some UInt | 2 => Some Buffer
  | 3 => Some BoolTrue | 4 => Some BoolFalse
  | 5 => Some PrincipalStandard | 6 => Some PrincipalContract
  | 7 => Some ResponseOk | 8 => Some ResponseErr
  | 9 => Some OptionalNone | 10 => Some OptionalSome
  | 11 => Some List | 12 => Some Tuple
  | 13 => Some StringASCII | 14 => Some StringUTF8
  | _ => None
  end.

Record Address : Type := mkAddress {
  version : Z;
  hash160 : list Z
}.

(** Modelled from the spec: the closed tagged union of section 3
    (packages/transactions/src/clarity/types). A tuple holds its
    entries in insertion order, as the JavaScript object it is built
    from does. *)
#[warnings="-register-all"] Inductive ClarityValue : Type :=
| intCV (value : Z)
| uintCV (value : Z)
| bufferCV (buffer : list Z)
| trueCV
| falseCV
| standardPrincipalCV (address : Address)
| contractPrincipalCV (address : Address) (contractName : string)
| responseOkCV (value : ClarityValue)
| responseErrorCV (value : ClarityValue)
| noneCV
| someCV (value : ClarityValue)
| listCV (list : list ClarityValue)
| tupleCV (data : list (string * ClarityValue))
| stringAsciiCV (data : string)
| stringUtf8CV (data : list Z).

Definition typeOf (v : ClarityValue) : ClarityType :=
  match v with
  | intCV _ => Int | uintCV _ => UInt | bufferCV _ => Buffer
  | trueCV => BoolTrue | falseCV => BoolFalse
  | standardPrincipalCV _ => PrincipalStandard
  | contractPrincipalCV _ _ => PrincipalContract
  | responseOkCV _ => ResponseOk | responseErrorCV _ => ResponseErr
  | noneCV => OptionalNone | someCV _ => OptionalSome
  | listCV _ => List | tupleCV _ => Tuple
  | stringAsciiCV _ => StringASCII | stringUtf8CV _ => StringUTF8
  end.

(** *** Ordering of tuple keys *)

Definition key_leb (a b : string) : bool :=
  match Bytes.compare (Buffer_from a) (Buffer_from b) with
  | Gt => false
  | _ => true
  end.

Definition entry_le {V} (x y : string * V) : Prop := key_leb x.1 y.1 = true.

#[global] Instance entry_le_dec {V} (x y : string * V) : Decision (entry_le x y).
Proof. unfold entry_le. apply _. Defined.

(** [Object.keys(data).sort((a, b) => Buffer.from(a).compare(Buffer.from(b)))],
    carried out on the entries. *)
Definition sortByKey {V} (d : list (string * V)) : list (string * V) :=
  merge_sort entry_le d.

(** *** Serialization (specification, section 4.2) *)

Definition serializeAddress (a : Address) : list Z :=
  version a :: hash160 a.

Definition serializeLPString (s : string) : list Z :=
  Z.of_nat (String.length s) :: Buffer_from s.

Definition serializeEntry (e : string * list Z) : list Z :=
  serializeLPString e.1 ++ e.2.

(** Modelled from the spec: [serializeCV] of
    packages/transactions/src/clarity/serialize.ts: the tag byte, then
    the payload of the table in section 3; tuple entries are written
    in the byte order of their keys. *)
Fixpoint serializeCV (v : ClarityValue) : list Z :=
  typeId (typeOf v) ::
  match v with
  | intCV n => toBytesBE 16 (n mod 2 ^ 128)
  | uintCV n => toBytesBE 16 n
  | bufferCV b => toBytesBE 4 (Z.of_nat (length b)) ++ b
  | trueCV | falseCV | noneCV => []
  | standardPrincipalCV a => serializeAddress a
  | contractPrincipalCV a name => serializeAddress a ++ serializeLPString name
  | responseOkCV x | responseErrorCV x | someCV x => serializeCV x
  | listCV l =>
      toBytesBE 4 (Z.of_nat (length l)) ++ concat (map serializeCV l)
  | tupleCV d =>
      toBytesBE 4 (Z.of_nat (length d))
      ++ concat (map serializeEntry
                   (sortByKey (map (fun e => (e.1, serializeCV e.2)) d)))
  | stringAsciiCV s =>
      toBytesBE 4 (Z.of_nat (String.length s)) ++ Buffer_from s
  | stringUtf8CV s =>
      toBytesBE 4 (Z.of_nat (length (Utf8.encode s))) ++ Utf8.encode s
  end.

(** *** Deserialization *)

Definition toSigned128 (u : Z) : Z :=
  if u <? 2 ^ 127 then u else u - 2 ^ 128.

Definition deserializeAddress : Reader Address :=
  bind readByte (fun v =>
  bind (readBuffer 20) (fun h =>
  ret (mkAddress v h))).

Definition deserializeLPString : Reader string :=
  bind readUInt8 (fun n =>
  bind (readBuffer (Z.to_nat n)) (fun bs =>
  ret (string_of_bytes bs))).

Definition isAscii (bs : list Z) : bool := forallb (fun b => b <? 128) bs.

(** Modelled from the spec: [deserializeCV] of
    packages/transactions/src/clarity/deserialize.ts, one tag byte and
    then the decoder of that tag, re-entered on the shared cursor for
    nested values. [fuel] bounds the nesting depth. *)
Fixpoint deserializeCV_fuel (fuel : nat) : Reader ClarityValue :=
  match fuel with
  | O => fail (DecodeError "nesting exceeds the input length")
  | S fuel' =>
      bind readByte (fun tag =>
      match typeOfId tag with
      | None => fail (DecodeError "unknown type tag")
      | Some Int =>
          bind (readBuffer 16) (fun bs =>
          ret (intCV (toSigned128 (fromBytesBE bs))))
      | Some UInt =>
          bind (readBuffer 16) (fun bs => ret (uintCV (fromBytesBE bs)))
      | Some Buffer =>
          bind readUInt32BE (fun n =>
          bind (readBuffer (Z.to_nat n)) (fun bs => ret (bufferCV bs)))
      | Some BoolTrue => ret trueCV
      | Some BoolFalse => ret falseCV
      | Some PrincipalStandard =>
          bind deserializeAddress (fun a => ret (standardPrincipalCV a))
      | Some PrincipalContract =>
          bind deserializeAddress (fun a =>
          bind deserializeLPString (fun name =>
          ret (contractPrincipalCV a name)))
      | Some ResponseOk =>
          bind (deserializeCV_fuel fuel') (fun x => ret (responseOkCV x))
      | Some ResponseErr =>
          bind (deserializeCV_fuel fuel') (fun x => ret (responseErrorCV x))
      | Some OptionalNone => ret noneCV
      | Some OptionalSome =>
          bind (deserializeCV_fuel fuel') (fun x => ret (someCV x))
      | Some List =>
          bind readUInt32BE (fun n =>
          bind (replicateM (Z.to_nat n) (deserializeCV_fuel fuel')) (fun l =>
          ret (listCV l)))
      | Some Tuple =>
          bind readUInt32BE (fun n =>
          bind (replicateM (Z.to_nat n)
                  (bind deserializeLPString (fun k =>
                   bind (deserializeCV_fuel fuel') (fun x => ret (k, x)))))
               (fun d => ret (tupleCV d)))
      | Some StringASCII =>
          bind readUInt32BE (fun n =>
          bind (readBuffer (Z.to_nat n)) (fun bs =>
          if isAscii bs then ret (stringAsciiCV (string_of_bytes bs))
          else fail (DecodeError "byte outside the ASCII range")))
      | Some StringUTF8 =>
          bind readUInt32BE (fun n =>
          bind (readBuffer (Z.to_nat n)) (fun bs =>
          match Utf8.decode bs with
          | Some s => ret (stringUtf8CV s)
          | None => fail (DecodeError "malformed UTF-8")
          end))
      end)
  end.

(** Modelled from the spec: [deserializeCV] on a whole buffer. Every
    value starts with its tag byte, so the nesting depth of a value
    never exceeds the number of bytes that encode it, and one more than
    the length of the input is fuel enough. *)
Definition deserializeCV (bs : list Z) : result error ClarityValue :=
  match deserializeCV_fuel (S (length bs)) (BufferReader.new bs) with
  | Ok (v, _) => Ok v
  | Err e => Err e
  end.

(** *** Structural equality under canonical key order *)

Fixpoint canonical (v : ClarityValue) : ClarityValue :=
  match v with
  | responseOkCV x => responseOkCV (canonical x)
  | responseErrorCV x => responseErrorCV (canonical x)
  | someCV x => someCV (canonical x)
  | listCV l => listCV (map canonical l)
  | tupleCV d => tupleCV (sortByKey (map (fun e => (e.1, canonical e.2)) d))
  | _ => v
  end.

Definition cv_equal (a b : ClarityValue) : Prop := canonical a = canonical b.

Fixpoint depth (v : ClarityValue) : nat :=
  match v with
  | responseOkCV x | responseErrorCV x | someCV x => S (depth x)
  | listCV l => S (list_max (map depth l))
  | tupleCV d => S (list_max (map (fun e => depth e.2) d))
  | _ => O
  end.

(** *** Constructible values

    What the constructors of the value model accept: integers within
    their 128 bits, lengths and counts within the width of their
    prefix, bytes within a byte, a 20-byte hash, ASCII within ASCII,
    Unicode scalar values, and no tuple key twice. *)

Definition is_byteb (b : Z) : bool := (0 <=? b) && (b <? 256).

Definition wf_address (a : Address) : bool :=
  is_byteb (version a) && forallb is_byteb (hash160 a)
  && (length (hash160 a) =? 20)%nat.

Definition fits (width : Z) (n : nat) : bool := Z.of_nat n <? 2 ^ width.

Fixpoint constructible (v : ClarityValue) : bool :=
  match v with
  | intCV n => (- 2 ^ 127 <=? n) && (n <? 2 ^ 127)
  | uintCV n => (0 <=? n) && (n <? 2 ^ 128)
  | bufferCV b => forallb is_byteb b && fits 32 (length b)
  | trueCV | falseCV | noneCV => true
  | standardPrincipalCV a => wf_address a
  | contractPrincipalCV a name => wf_address a && fits 8 (String.length name)
  | responseOkCV x | responseErrorCV x | someCV x => constructible x
  | listCV l => fits 32 (length l) && forallb constructible l
  | tupleCV d =>
      fits 32 (length d)
      && bool_decide (NoDup (map fst d))
      && forallb (fun e => fits 8 (String.length e.1) && constructible e.2) d
  | stringAsciiCV s => fits 32 (String.length s) && isAscii (Buffer_from s)
  | stringUtf8CV s =>
      forallb Utf8.scalarb s && fits 32 (length (Utf8.encode s))
  end.

(** One entry of a tuple on the wire, and the strict byte order of
    keys. *)
Definition encodeEntry (e : string * ClarityValue) : list Z :=
  serializeLPString e.1 ++ serializeCV e.2.

Definition key_lt (a b : string) : Prop :=
  Bytes.compare (Buffer_from a) (Buffer_from b) = Lt.

(** Induction over values, with the nested lists unfolded. *)
Section Induction.
Variable P : ClarityValue -> Prop.
Hypothesis Hint : forall n, P (intCV n).
Hypothesis Huint : forall n, P (uintCV n).
Hypothesis Hbuffer : forall b, P (bufferCV b).
Hypothesis Htrue : P trueCV.
Hypothesis Hfalse : P falseCV.
Hypothesis Hstandard : forall a, P (standardPrincipalCV a).
Hypothesis Hcontract : forall a n, P (contractPrincipalCV a n).
Hypothesis Hok : forall x, P x -> P (responseOkCV x).
Hypothesis Herr : forall x, P x -> P (responseErrorCV x).
Hypothesis Hnone : P noneCV.
Hypothesis Hsome : forall x, P x -> P (someCV x).
Hypothesis Hlist : forall l, Forall P l -> P (listCV l).
Hypothesis Htuple : forall d, Forall (fun e => P e.2) d -> P (tupleCV d).
Hypothesis Hascii : forall s, P (stringAsciiCV s).
Hypothesis Hutf8 : forall s, P (stringUtf8CV s).

Fixpoint ClarityValue_nested_ind (v : ClarityValue) : P v :=
  match v with
  | intCV n => Hint n
  | uintCV n => Huint n
  | bufferCV b => Hbuffer b
  | trueCV => Htrue
  | falseCV => Hfalse
  | standardPrincipalCV a => Hstandard a
  | contractPrincipalCV a n => Hcontract a n
  | responseOkCV x => Hok x (ClarityValue_nested_ind x)
  | responseErrorCV x => Herr x (ClarityValue_nested_ind x)
  | noneCV => Hnone
  | someCV x => Hsome x (ClarityValue_nested_ind x)
  | listCV l =>
      Hlist l ((fix go (l : list ClarityValue) : Forall P l :=
                  match l with
                  | [] => @List.Forall_nil _ P
                  | x :: l' =>
                      @List.Forall_cons _ P x l'
                        (ClarityValue_nested_ind x) (go l')
                  end) l)
  | tupleCV d =>
      Htuple d ((fix go (d : list (string * ClarityValue))
                   : Forall (fun e => P e.2) d :=
                   match d with
                   | [] => @List.Forall_nil _ (fun e => P e.2)
                   | e :: d' =>
                       @List.Forall_cons _ (fun e => P e.2) e d'
                         (ClarityValue_nested_ind e.2) (go d')
                   end) d)
  | stringAsciiCV s => Hascii s
  | stringUtf8CV s => Hutf8 s
  end.
End Induction.

(** *** Sample values *)

(** A value nested five deep, with a tuple given out of key order. *)
Definition sampleNested : ClarityValue :=
  listCV
    [tupleCV
       [("c", someCV (responseOkCV (listCV [intCV (-1); uintCV 7])));
        ("b", stringUtf8CV [104; 127806]);
        ("a", bufferCV [222; 173; 190; 239])];
     responseErrorCV (stringAsciiCV "hello world");
     noneCV].

Definition sampleEntries : list (string * ClarityValue) :=
  [("b", falseCV); ("a", trueCV)].

Definition sampleEntriesSorted : list (string * ClarityValue) :=
  [("a", trueCV); ("b", falseCV)].


End Clarity.

(** ** BNS contract calls (src/unnamed/part_003) *)

Module Bns.
Import Bytes Clarity.

(** A thrown [Error]; in an [async] function, the rejection of its
    promise. *)
Record JsError : Type := Error { message : string }.

(** The result of [decodeFQN]. *)
Record FQN : Type := mkFQN {
  subdomain : option string;
  namespace : string;
  name : string
}.

(** The one field of [StacksNetwork] that the builders read. *)
Record StacksNetwork : Type := mkNetwork {
  chainId : Z;
  coreApiUrl : string
}.

Inductive AnchorMode : Type := OnChainOnly | OffChainOnly | Any.

(** What this file imports from packages that are not part of it:
    [@stacks/common], [@stacks/transactions] and [./utils]. The two
    digests are the primitives that [hash160] is composed of, and
    [uintRangeError] is the [RangeError] that [uintCV] throws for an
    integer that is no unsigned Clarity integer. *)
Class Imports : Type := {
  StacksTransaction : Type;
  StacksPrivateKey : Type;
  ChainID_Mainnet : Z;
  ChainID_Testnet : Z;
  sha256 : list Z -> list Z;
  ripemd160 : list Z -> list Z;
  decodeFQN : string -> FQN;
  bufferCVFromString : string -> ClarityValue;
  getZonefileHash : string -> list Z;
  cvToString : ClarityValue -> string;
  getCVTypeString : ClarityValue -> string;
  cvToStringOfUncheckedValue : ClarityValue -> string;
  privateKeyToString : StacksPrivateKey -> string;
  getAddressFromPrivateKey : string -> string;
  uintRangeError : Z -> JsError
}.

(** JavaScript truthiness of an optional string: [undefined] and the
    empty string are falsy. [ifTruthy o f d] is [o ? f(o) : d]. *)
Definition ifTruthy {A} (o : option string) (f : string -> A) (d : A) : A :=
  match o with
  | Some s => if String.eqb s "" then d else f s
  | None => d
  end.

Definition truthy (o : option string) : bool :=
  ifTruthy o (fun _ => true) false.

Definition BNS_CONTRACT_NAME : string := "bns".

Inductive BnsContractAddress : Type := mainnet | testnet.

Definition addressString (a : BnsContractAddress) : string :=
  match a with
  | mainnet => "SP000000000000000000002Q6VF78"
  | testnet => "ST000000000000000000002AMW42H"
  end.

Record BnsContractCallOptions : Type := mkBnsContractCallOptions {
  functionName : string;
  functionArgs : list ClarityValue;
  publicKey : string;
  network : StacksNetwork;
  attachment : option (list Z)
}.

Record UnsignedContractCallOptions : Type := mkUnsignedContractCallOptions {
  tx_contractAddress : string;
  tx_contractName : string;
  tx_functionName : string;
  tx_functionArgs : list ClarityValue;
  tx_publicKey : string;
  tx_validateWithAbi : bool;
  tx_network : StacksNetwork;
  tx_anchorMode : AnchorMode
}.

Record BnsReadOnlyOptions : Type := mkBnsReadOnlyOptions {
  ro_functionName : string;
  ro_functionArgs : list ClarityValue;
  ro_senderAddress : string;
  ro_network : StacksNetwork
}.

Record ReadOnlyFunctionOptions : Type := mkReadOnlyFunctionOptions {
  call_contractAddress : string;
  call_contractName : string;
  call_functionName : string;
  call_senderAddress : string;
  call_functionArgs : list ClarityValue;
  call_network : StacksNetwork
}.

Section Operations.
Context {imports : Imports}.

(** The calls that leave this file for an effect: key generation
    and the two network-facing entry points of
    [@stacks/transactions]. *)
Inductive call : Type -> Type :=
| makeRandomPrivKey : call StacksPrivateKey
| callReadOnlyFunction : ReadOnlyFunctionOptions -> call ClarityValue
| makeUnsignedContractCall : UnsignedContractCallOptions -> call StacksTransaction.

(** An [async] function: it resolves, rejects, or performs a call
    and continues with the answer. *)
Inductive Promise (A : Type) : Type :=
| Resolve (a : A)
| Reject (e : JsError)
| Await {X : Type} (c : call X) (k : X -> Promise A).
Arguments Resolve {A} a.
Arguments Reject {A} e.
Arguments Await {A X} c k.

Fixpoint andThen {A B} (p : Promise A) (k : A -> Promise B) : Promise B :=
  match p with
  | Resolve a => k a
  | Reject e => Reject e
  | Await c k' => Await c (fun x => andThen (k' x) k)
  end.

(** The world outside, as far as these operations see it: what each
    call answers. A call that fails outside (a network error) is not
    part of this model. *)
Record Remote : Type := mkRemote {
  randomKey : StacksPrivateKey;
  readOnly : ReadOnlyFunctionOptions -> ClarityValue;
  unsignedCall : UnsignedContractCallOptions -> StacksTransaction
}.

Definition answer (env : Remote) {X} (c : call X) : X :=
  match c with
  | makeRandomPrivKey => randomKey env
  | callReadOnlyFunction o => readOnly env o
  | makeUnsignedContractCall o => unsignedCall env o
  end.

(** What a promise settles to against [env]. *)
Fixpoint settle {A} (env : Remote) (p : Promise A) : result JsError A :=
  match p with
  | Resolve a => Ok a
  | Reject e => Err e
  | Await c k => settle env (k (answer env c))
  end.

(** Modelled from the spec: [hash160] of [@stacks/transactions], a
    cryptographic digest and then a second, shorter digest over its
    output. *)
Definition hash160 (data : list Z) : list Z := ripemd160 (sha256 data).

(** The integers that fit the 128 bits of an unsigned Clarity
    integer. *)
Definition isUint128 (value : Z) : bool := (0 <=? value) && (value <? 2 ^ 128).

(** Modelled from the spec: the function [uintCV] of
    [@stacks/transactions], called on an integer. Integers are exactly
    128 bits wide, so an integer outside the unsigned 128 bits is no
    Clarity value: the function throws. *)
Definition uintCVOf (value : Z) : result JsError ClarityValue :=
  if isUint128 value then Ok (uintCV value) else Err (uintRangeError value).

(** The same on the integers of an array literal, left to right:
    the first one outside the range throws. *)
Fixpoint uintCVsOf (values : list Z) : result JsError (list ClarityValue) :=
  match values with
  | [] => Ok []
  | value :: values =>
      match uintCVOf value with
      | Err e => Err e
      | Ok cv =>
          match uintCVsOf values with
          | Err e => Err e
          | Ok cvs => Ok (cv :: cvs)
          end
      end
  end.

Definition getBnsContractAddress (network : StacksNetwork)
  : result JsError BnsContractAddress :=
  if chainId network =? ChainID_Mainnet then Ok mainnet
  else if chainId network =? ChainID_Testnet then Ok testnet
  else Err (Error ("Unexpected ChainID: " +:+ pretty (chainId network))).

Definition makeBnsContractCall (options : BnsContractCallOptions)
  : Promise StacksTransaction :=
  match getBnsContractAddress (network options) with
  | Err e => Reject e
  | Ok addr =>
      let txOptions := {|
        tx_contractAddress := addressString addr;
        tx_contractName := BNS_CONTRACT_NAME;
        tx_functionName := functionName options;
        tx_functionArgs := functionArgs options;
        tx_publicKey := publicKey options;
        tx_validateWithAbi := false;
        tx_network := network options;
        tx_anchorMode := Any
      |} in
      Await (makeUnsignedContractCall txOptions) Resolve
  end.

Definition callReadOnlyBnsFunction (options : BnsReadOnlyOptions)
  : Promise ClarityValue :=
  match getBnsContractAddress (ro_network options) with
  | Err e => Reject e
  | Ok addr =>
      Await (callReadOnlyFunction {|
        call_contractAddress := addressString addr;
        call_contractName := BNS_CONTRACT_NAME;
        call_functionName := ro_functionName options;
        call_senderAddress := ro_senderAddress options;
        call_functionArgs := ro_functionArgs options;
        call_network := ro_network options
      |}) Resolve
  end.

(** The sender of a read-only call: the address of a fresh random
    key. *)
Definition withRandomAddress {A} (k : string -> Promise A) : Promise A :=
  Await makeRandomPrivKey (fun key =>
    let randomPrivateKey := privateKeyToString key in
    let randomAddress := getAddressFromPrivateKey randomPrivateKey in
    k randomAddress).

Definition canRegisterName (fullyQualifiedName : string) (network : StacksNetwork)
  : Promise bool :=
  let bnsFunctionName := "can-name-be-registered" in
  let fqn := decodeFQN fullyQualifiedName in
  if truthy (subdomain fqn) then
    Reject (Error "Cannot register a subdomain using registerName")
  else
    withRandomAddress (fun randomAddress =>
    andThen (callReadOnlyBnsFunction {|
      ro_functionName := bnsFunctionName;
      ro_senderAddress := randomAddress;
      ro_functionArgs :=
        [bufferCVFromString (namespace fqn); bufferCVFromString (name fqn)];
      ro_network := network
    |}) (fun responseCV =>
      match responseCV with
      | responseOkCV value =>
          Resolve (match value with trueCV => true | _ => false end)
      | _ => Resolve false
      end)).

Definition getNamespacePrice (namespace : string) (network : StacksNetwork)
  : Promise Z :=
  let bnsFunctionName := "get-namespace-price" in
  withRandomAddress (fun randomAddress =>
  andThen (callReadOnlyBnsFunction {|
    ro_functionName := bnsFunctionName;
    ro_senderAddress := randomAddress;
    ro_functionArgs := [bufferCVFromString namespace];
    ro_network := network
  |}) (fun responseCV =>
    match responseCV with
    | responseOkCV value =>
        match value with
        | intCV n | uintCV n => Resolve n
        | _ => Reject (Error "Response did not contain a number")
        end
    | responseErrorCV value => Reject (Error (cvToString value))
    | _ =>
        Reject (Error ("Unexpected Clarity Value type: "
                       +:+ getCVTypeString responseCV))
    end)).

(** [cvToString((responseCV as ResponseErrorCV).value)]: the cast
    checks nothing. On an error response the field is the error
    value, and an optional holds a value in the same field; on any
    other variant, what [cvToString] makes of the field is not decided
    in this file. *)
Definition errorResponseString (responseCV : ClarityValue) : string :=
  match responseCV with
  | responseErrorCV value | someCV value => cvToString value
  | other => cvToStringOfUncheckedValue other
  end.

Definition getNamePrice (fullyQualifiedName : string) (network : StacksNetwork)
  : Promise Z :=
  let bnsFunctionName := "get-name-price" in
  let fqn := decodeFQN fullyQualifiedName in
  if truthy (subdomain fqn) then
    Reject (Error "Cannot get subdomain name price")
  else
    withRandomAddress (fun randomAddress =>
    andThen (callReadOnlyBnsFunction {|
      ro_functionName := bnsFunctionName;
      ro_senderAddress := randomAddress;
      ro_functionArgs :=
        [bufferCVFromString (namespace fqn); bufferCVFromString (name fqn)];
      ro_network := network
    |}) (fun responseCV =>
      match responseCV with
      | responseOkCV value =>
          match value with
          | intCV n | uintCV n => Resolve n
          | _ => Reject (Error "Response did not contain a number")
          end
      | _ => Reject (Error (errorResponseString responseCV))
      end)).

Definition buildPreorderNamespaceTx (namespace salt : string) (stxToBurn : Z)
    (publicKey : string) (network : StacksNetwork) : Promise StacksTransaction :=
  let bnsFunctionName := "namespace-preorder" in
  let saltedNamespaceBuffer := Buffer_from (namespace +:+ salt) in
  let hashedSaltedNamespace := hash160 saltedNamespaceBuffer in
  match uintCVOf stxToBurn with
  | Err e => Reject e
  | Ok burn =>
      makeBnsContractCall {|
        functionName := bnsFunctionName;
        functionArgs := [bufferCV hashedSaltedNamespace; burn];
        publicKey := publicKey;
        network := network;
        attachment := None
      |}
  end.

Definition buildPreorderNameTx (fullyQualifiedName salt : string) (stxToBurn : Z)
    (publicKey : string) (network : StacksNetwork) : Promise StacksTransaction :=
  let bnsFunctionName := "name-preorder" in
  let fqn := decodeFQN fullyQualifiedName in
  if truthy (subdomain fqn) then
    Reject (Error "Cannot preorder a subdomain using preorderName()")
  else
    let saltedNamesBuffer := Buffer_from (fullyQualifiedName +:+ salt) in
    let hashedSaltedName := hash160 saltedNamesBuffer in
    match uintCVOf stxToBurn with
    | Err e => Reject e
    | Ok burn =>
        makeBnsContractCall {|
          functionName := bnsFunctionName;
          functionArgs := [bufferCV hashedSaltedName; burn];
          publicKey := publicKey;
          network := network;
          attachment := None
        |}
    end.

Definition buildRegisterNameTx (fullyQualifiedName salt zonefile : string)
    (publicKey : string) (network : StacksNetwork) : Promise StacksTransaction :=
  let bnsFunctionName := "name-register" in
  let fqn := decodeFQN fullyQualifiedName in
  if truthy (subdomain fqn) then
    Reject (Error "Cannot register a subdomain using registerName()")
  else
    let zonefileHash := getZonefileHash zonefile in
    makeBnsContractCall {|
      functionName := bnsFunctionName;
      functionArgs :=
        [bufferCVFromString (namespace fqn); bufferCVFromString (name fqn);
         bufferCVFromString salt; bufferCV zonefileHash];
      network := network;
      publicKey := publicKey;
      attachment := Some (Buffer_from zonefile)
    |}.

Definition buildUpdateNameTx (fullyQualifiedName zonefile : string)
    (publicKey : string) (network : StacksNetwork) : Promise StacksTransaction :=
  let bnsFunctionName := "name-update" in
  let fqn := decodeFQN fullyQualifiedName in
  if truthy (subdomain fqn) then
    Reject (Error "Cannot update a subdomain using updateName()")
  else
    let zonefileHash := getZonefileHash zonefile in
    makeBnsContractCall {|
      functionName := bnsFunctionName;
      functionArgs :=
        [bufferCVFromString (namespace fqn); bufferCVFromString (name fqn);
         bufferCV zonefileHash];
      publicKey := publicKey;
      network := network;
      attachment := Some (Buffer_from zonefile)
    |}.

(** The options that [buildTransferNameTx] hands to
    [makeBnsContractCall]. *)
Definition transferNameCall (fqn : FQN) (newOwnerAddress : string)
    (zonefile : option string) (publicKey : string) (network : StacksNetwork)
  : BnsContractCallOptions :=
  let functionArgs :=
    [bufferCVFromString (namespace fqn); bufferCVFromString (name fqn);
     bufferCVFromString newOwnerAddress] in
  let functionArgs :=
    ifTruthy zonefile
      (fun z => functionArgs ++ [bufferCV (getZonefileHash z)]) functionArgs in
  {|
    functionName := "name-transfer";
    functionArgs := functionArgs;
    publicKey := publicKey;
    network := network;
    attachment := ifTruthy zonefile (fun z => Some (Buffer_from z)) None
  |}.

Definition buildTransferNameTx (fullyQualifiedName newOwnerAddress : string)
    (zonefile : option string) (publicKey : string) (network : StacksNetwork)
  : Promise StacksTransaction :=
  let fqn := decodeFQN fullyQualifiedName in
  if truthy (subdomain fqn) then
    Reject (Error "Cannot transfer a subdomain using transferName()")
  else
    makeBnsContractCall
      (transferNameCall fqn newOwnerAddress zonefile publicKey network).

Definition buildRevokeNameTx (fullyQualifiedName : string)
    (publicKey : string) (network : StacksNetwork) : Promise StacksTransaction :=
  let bnsFunctionName := "name-revoke" in
  let fqn := decodeFQN fullyQualifiedName in
  if truthy (subdomain fqn) then
    Reject (Error "Cannot revoke a subdomain using revokeName()")
  else
    makeBnsContractCall {|
      functionName := bnsFunctionName;
      functionArgs :=
        [bufferCVFromString (namespace fqn); bufferCVFromString (name fqn)];
      publicKey := publicKey;
      network := network;
      attachment := None
    |}.

(** The options that [buildRenewNameTx] hands to
    [makeBnsContractCall], unless [uintCV] throws while the arguments
    are built. *)
Definition renewNameCall (fqn : FQN) (stxToBurn : Z)
    (newOwnerAddress zonefile : option string)
    (publicKey : string) (network : StacksNetwork)
  : result JsError BnsContractCallOptions :=
  match uintCVOf stxToBurn with
  | Err e => Err e
  | Ok burn =>
      let functionArgs :=
        [bufferCVFromString (namespace fqn); bufferCVFromString (name fqn);
         burn] in
      let functionArgs :=
        ifTruthy newOwnerAddress
          (fun a => functionArgs ++ [bufferCVFromString a]) functionArgs in
      let functionArgs :=
        ifTruthy zonefile
          (fun z => functionArgs ++ [bufferCV (getZonefileHash z)])
          functionArgs in
      Ok {|
        functionName := "name-renewal";
        functionArgs := functionArgs;
        publicKey := publicKey;
        network := network;
        attachment := ifTruthy zonefile (fun z => Some (Buffer_from z)) None
      |}
  end.

Definition buildRenewNameTx (fullyQualifiedName : string) (stxToBurn : Z)
    (newOwnerAddress zonefile : option string)
    (publicKey : string) (network : StacksNetwork) : Promise StacksTransaction :=
  let fqn := decodeFQN fullyQualifiedName in
  if truthy (subdomain fqn) then
    Reject (Error "Cannot renew a subdomain using renewName()")
  else
    match renewNameCall fqn stxToBurn newOwnerAddress zonefile
            publicKey network with
    | Err e => Reject e
    | Ok options => makeBnsContractCall options
    end.

End Operations.

Arguments Resolve {_ A} a.
Arguments Reject {_ A} e.
Arguments Await {_ A X} c k.

(** *** Test doubles

    Stand-ins for the imports, for running the operations on concrete
    inputs: a transaction is the request it was built from, the two
    digests tag their input, and a name is split at its dots. *)
Fixpoint splitDots (s : string) : list string :=
  match s with
  | EmptyString => [EmptyString]
  | String c s' =>
      if Ascii.eqb c "." then EmptyString :: splitDots s'
      else match splitDots s' with
           | part :: parts => String c part :: parts
           | [] => [String c EmptyString]
           end
  end.

Definition testDecodeFQN (fqdn : string) : FQN :=
  match splitDots fqdn with
  | sub :: name :: namespace :: _ => mkFQN (Some sub) namespace name
  | name :: namespace :: _ => mkFQN None namespace name
  | name :: _ => mkFQN None "" name
  | [] => mkFQN None "" ""
  end.

Definition testCvToString (cv : ClarityValue) : string :=
  match cv with
  | intCV n => pretty n
  | uintCV n => "u" +:+ pretty n
  | trueCV => "true"
  | falseCV => "false"
  | noneCV => "none"
  | _ => "(value)"
  end.

Definition testImports : Imports := {|
  StacksTransaction := UnsignedContractCallOptions;
  StacksPrivateKey := string;
  ChainID_Mainnet := 1;
  ChainID_Testnet := 2147483648;
  sha256 := fun data => 1 :: data;
  ripemd160 := fun data => 2 :: data;
  decodeFQN := testDecodeFQN;
  bufferCVFromString := fun s => bufferCV (Buffer_from s);
  getZonefileHash := fun zonefile => 2 :: 1 :: Buffer_from zonefile;
  cvToString := testCvToString;
  getCVTypeString := fun _ => "(type)";
  cvToStringOfUncheckedValue := fun _ => "undefined";
  privateKeyToString := fun key => key;
  getAddressFromPrivateKey := fun key => "ST" +:+ key;
  uintRangeError := fun value =>
    Error ("Cannot construct unsigned clarity integer from " +:+ pretty value)
|}.

Definition testRemote (response : ClarityValue)
  : Remote (imports := testImports) := {|
  randomKey := "00" : @StacksPrivateKey testImports;
  readOnly := fun _ => response;
  unsignedCall := fun options => options : @StacksTransaction testImports
|}.

Definition testMainnet : StacksNetwork := mkNetwork 1 "https://stacks-node-api.mainnet.stacks.co".
Definition testTestnet : StacksNetwork := mkNetwork 2147483648 "https://stacks-node-api.testnet.stacks.co".
Definition testUnknownNet : StacksNetwork := mkNetwork 7 "http://localhost:3999".

(** The address of the tests of [@stacks/transactions]
    (packages/transactions/tests/clarity.test.ts). *)
Definition testAddress : string := "SP2JXKMSH007NPYAQHKJPQMAQYAD90NQGTVJVQ02B".

End Bns.

(** ** Session store (src/unnamed/part_000) *)

Module SessionStore.

(** What a method of the store throws: the error of the store
    itself, or whatever an identity change callback threw, named by a
    text. *)
Inductive JsError : Type :=
| NoSessionDataError (msg : string)
| CallbackError (thrown : string).

Record SessionIdentityChangeEvent : Type := mkEvent {
  newIdentity : option string;
  oldIdentity : option string
}.

(** What the store imports from [./sessionData]: the session and its
    options, the constructor, the empty options object and the two
    fields that the store reads. [Callback] stands for the functions
    that can be registered as identity change callbacks. *)
Class Imports : Type := {
  SessionData : Type;
  SessionOptions : Type;
  UserData : Type;
  Callback : Type;
  newSessionData : SessionOptions -> SessionData;
  emptyOptions : SessionOptions;
  userData : SessionData -> option UserData;
  identityAddress : UserData -> option string
}.

Section Store.
Context {imports : Imports}.

(** The fields of an [InstanceDataStore], and the calls that it has
    made to its identity change callback, latest first. The session
    is [None] when the field is [undefined] or [null]. *)
Record InstanceDataStore : Type := mkStore {
  sessionData : option SessionData;
  identityChangeCallback : option Callback;
  lastUpdatedIdentity : option string;
  notified : list (Callback * SessionIdentityChangeEvent)
}.

(** [session.userData && session.userData.identityAddress], when
    truthy. *)
Definition identityOf (session : SessionData) : option string :=
  match userData session with
  | Some u =>
      match identityAddress u with
      | Some a => if String.eqb a "" then None else Some a
      | None => None
      end
  | None => None
  end.

(** The same behind the guard [session &&]: the argument of
    [setSessionData] is not checked and can be [null] or
    [undefined]. *)
Definition currentIdentityOf (session : option SessionData) : option string :=
  match session with
  | Some s => identityOf s
  | None => None
  end.

Definition hasIdentityChangeCallback (this : InstanceDataStore) : bool :=
  match identityChangeCallback this with
  | Some _ => true
  | None => false
  end.

Definition identity_eqb (a b : option string) : bool :=
  match a, b with
  | Some x, Some y => String.eqb x y
  | None, None => true
  | _, _ => false
  end.

(** How a call on the store ends, and the store that it leaves. *)
Inductive outcome (A : Type) : Type :=
| Returned (value : A) (this' : InstanceDataStore)
| Thrown (e : JsError) (this' : InstanceDataStore).
Arguments Returned {A} value this'.
Arguments Thrown {A} e this'.

Definition stateOf {A} (o : outcome A) : InstanceDataStore :=
  match o with
  | Returned _ this' => this'
  | Thrown _ this' => this'
  end.

Definition getSessionData (this : InstanceDataStore)
  : result JsError SessionData :=
  match sessionData this with
  | None => Err (NoSessionDataError "No session data was found.")
  | Some s => Ok s
  end.

(** [called] is what the registered callback does to the store when
    it is called. The session is stored before the call and the last
    updated identity after it; when the callback throws, the method
    ends there. *)
Definition setSessionData (called : InstanceDataStore -> outcome unit)
    (session : option SessionData) (this : InstanceDataStore) : outcome bool :=
  let this :=
    {| sessionData := session;
       identityChangeCallback := identityChangeCallback this;
       lastUpdatedIdentity := lastUpdatedIdentity this;
       notified := notified this |} in
  let currentIdentity := currentIdentityOf session in
  let finish (this : InstanceDataStore) :=
    Returned true
      {| sessionData := sessionData this;
         identityChangeCallback := identityChangeCallback this;
         lastUpdatedIdentity := currentIdentity;
         notified := notified this |} in
  if hasIdentityChangeCallback this
     && negb (identity_eqb (lastUpdatedIdentity this) currentIdentity)
  then
    match identityChangeCallback this with
    | Some callback =>
        let event := {| oldIdentity := lastUpdatedIdentity this;
                        newIdentity := currentIdentity |} in
        match called {| sessionData := sessionData this;
                        identityChangeCallback := identityChangeCallback this;
                        lastUpdatedIdentity := lastUpdatedIdentity this;
                        notified := (callback, event) :: notified this |} with
        | Returned _ this => finish this
        | Thrown e this => Thrown e this
        end
    | None => finish this
    end
  else finish this.

Definition deleteSessionData (called : InstanceDataStore -> outcome unit)
    (this : InstanceDataStore) : outcome bool :=
  match setSessionData called (Some (newSessionData emptyOptions)) this with
  | Returned _ this => Returned true this
  | Thrown e this => Thrown e this
  end.

Definition setSessionIdentityChangeCallback (callback : option Callback)
    (this : InstanceDataStore) : InstanceDataStore :=
  {| sessionData := sessionData this;
     identityChangeCallback := callback;
     lastUpdatedIdentity := lastUpdatedIdentity this;
     notified := notified this |}.

(** The object before any constructor body has run. The field
    declarations of the class have no initializer and leave what the
    base constructor stored in place. *)
Definition blank : InstanceDataStore :=
  {| sessionData := None; identityChangeCallback := None;
     lastUpdatedIdentity := None; notified := [] |}.

(** A callback that returns at once. While the constructors run no
    callback is registered, so whatever is passed for it there is
    never called. *)
Definition returns (this : InstanceDataStore) : outcome unit :=
  Returned tt this.

(** [SessionDataStore]'s constructor, with [setSessionData]
    dispatched to the instance store. *)
Definition superConstructor (sessionOptions : option SessionOptions)
    (this : InstanceDataStore) : InstanceDataStore :=
  match sessionOptions with
  | Some o => stateOf (setSessionData returns (Some (newSessionData o)) this)
  | None => this
  end.

Definition constructor (sessionOptions : option SessionOptions)
  : InstanceDataStore :=
  let this := superConstructor sessionOptions blank in
  let '(session, this) :=
    match sessionData this with
    | None =>
        let s := newSessionData emptyOptions in
        (s, stateOf (setSessionData returns (Some s) this))
    | Some s => (s, this)
    end in
  match identityOf session with
  | Some a =>
      {| sessionData := sessionData this;
         identityChangeCallback := identityChangeCallback this;
         lastUpdatedIdentity := Some a;
         notified := notified this |}
  | None => this
  end.

(** The methods that can be called on a constructed store, by a
    client or by a callback. *)
Inductive method : Type :=
| GetSessionData
| SetSessionData (session : option SessionData)
| DeleteSessionData
| SetSessionIdentityChangeCallback (callback : option Callback).

(** What a callback does when the store calls it: it returns, it
    throws, or it calls a method of the store and goes on, whether
    that call returned or threw. [during] is what the callback does
    that the store calls in the course of that call. *)
Inductive Behaviour : Type :=
| Return
| Throw (e : JsError)
| Call (m : method) (during : Behaviour) (next : Behaviour).

Definition invokeWith (called : InstanceDataStore -> outcome unit)
    (m : method) (this : InstanceDataStore) : outcome unit :=
  match m with
  | GetSessionData =>
      match getSessionData this with
      | Ok _ => Returned tt this
      | Err e => Thrown e this
      end
  | SetSessionData session =>
      match setSessionData called session this with
      | Returned _ this => Returned tt this
      | Thrown e this => Thrown e this
      end
  | DeleteSessionData =>
      match deleteSessionData called this with
      | Returned _ this => Returned tt this
      | Thrown e this => Thrown e this
      end
  | SetSessionIdentityChangeCallback callback =>
      Returned tt (setSessionIdentityChangeCallback callback this)
  end.

Fixpoint run (b : Behaviour) (this : InstanceDataStore) : outcome unit :=
  match b with
  | Return => Returned tt this
  | Throw e => Thrown e this
  | Call m during next => run next (stateOf (invokeWith (run during) m this))
  end.

(** A client calls [m]; [during] is what the callback does if the
    store calls it. *)
Definition invoke (m : method) (during : Behaviour) (this : InstanceDataStore)
  : outcome unit :=
  invokeWith (run during) m this.

(** The methods that a callback calls, those of the callbacks called
    in their course included. *)
Fixpoint calledMethods (b : Behaviour) : list method :=
  match b with
  | Return => []
  | Throw _ => []
  | Call m during next => m :: calledMethods during ++ calledMethods next
  end.

(** The stores that can come about: a constructed store, after any
    number of method calls, each with a behaviour of the callbacks
    that [allowed] admits. A call that threw counts: the client can
    catch what was thrown and go on with the store. *)
Inductive reachable_by (allowed : method -> Behaviour -> Prop)
  : InstanceDataStore -> Prop :=
| reachable_new sessionOptions :
    reachable_by allowed (constructor sessionOptions)
| reachable_invoke m during this :
    reachable_by allowed this ->
    allowed m during ->
    reachable_by allowed (stateOf (invoke m during this)).

(** Every call and every callback. *)
Definition reachable : InstanceDataStore -> Prop :=
  reachable_by (fun _ _ => True).



(** The callbacks only observe: they return, without a call to the
    store. *)
Definition observed (m : method) (during : Behaviour) : Prop :=
  during = Return.

End Store.

Arguments Returned {_ A} value this'.
Arguments Thrown {_ A} e this'.

(** *** Test double

    A session is its identity address, if any; callbacks are
    numbered. *)
Definition testImports : Imports := {|
  SessionData := option string;
  SessionOptions := option string;
  UserData := string;
  Callback := nat;
  newSessionData := fun o => o;
  emptyOptions := None;
  userData := fun s => s;
  identityAddress := fun u => Some u
|}.

Definition testSession : @SessionData testImports := Some "1abc".
Definition testEmptySession : @SessionData testImports := None.

End SessionStore.

(** ** Profile zone files (src/unnamed/part_001) *)

Module ProfileZoneFiles.

(** A JavaScript value as JSON shows it. An object holds its own
    properties; the first entry of a name is the property. *)
#[warnings="-register-all"] Inductive JsValue : Type :=
| JNull
| JUndefined
| JBool (b : bool)
| JNumber (n : Z)
| JString (s : string)
| JArray (items : list JsValue)
| JObject (fields : list (string * JsValue)).

Inductive JsError : Type :=
| TypeError (msg : string).

Fixpoint lookup (key : string) (fields : list (string * JsValue)) : option JsValue :=
  match fields with
  | [] => None
  | (k, v) :: rest => if String.eqb k key then Some v else lookup key rest
  end.

(** The own property names of an array or a string are [length] and
    the indices below the length, in their canonical decimal form. *)
Definition indexOf (key : string) (len : nat) : option nat :=
  match NilEmpty.uint_of_string key with
  | Some digits =>
      let i := Nat.of_uint digits in
      if String.eqb (NilEmpty.string_of_uint (Nat.to_uint i)) key
         && (i <? len)%nat
      then Some i else None
  | None => None
  end.

Definition isIndexOrLength (key : string) (len : nat) : bool :=
  String.eqb key "length"
  || match indexOf key len with Some _ => true | None => false end.

(** [v.hasOwnProperty(key)]. The method is inherited from
    [Object.prototype]; [null] and [undefined] have no properties, and
    an object with an own property of that name shadows the method
    with a value that is not a function. *)
Definition hasOwnProperty (v : JsValue) (key : string) : result JsError bool :=
  match v with
  | JNull | JUndefined =>
      Err (TypeError "Cannot read properties of null or undefined")
  | JBool _ | JNumber _ => Ok false
  | JString s => Ok (isIndexOrLength key (String.length s))
  | JArray items => Ok (isIndexOrLength key (length items))
  | JObject fields =>
      match lookup "hasOwnProperty" fields with
      | Some _ => Err (TypeError "hasOwnProperty is not a function")
      | None =>
          Ok (match lookup key fields with Some _ => true | None => false end)
      end
  end.

(** [v.key] for an own property; [undefined] when there is none. *)
Definition getField (v : JsValue) (key : string) : JsValue :=
  match v with
  | JObject fields =>
      match lookup key fields with
      | Some x => x
      | None => JUndefined
      end
  | JArray items =>
      if String.eqb key "length" then JNumber (Z.of_nat (length items))
      else match indexOf key (length items) with
           | Some i => nth i items JUndefined
           | None => JUndefined
           end
  | JString s =>
      if String.eqb key "length" then JNumber (Z.of_nat (String.length s))
      else match indexOf key (String.length s) with
           | Some i => JString (String.substring i 1 s)
           | None => JUndefined
           end
  | _ => JUndefined
  end.

Definition getTokenFileUrl (zoneFileJson : JsValue)
  : result JsError (option string) :=
  match hasOwnProperty zoneFileJson "uri" with
  | Err e => Err e
  | Ok false => Ok None
  | Ok true =>
      match getField zoneFileJson "uri" with
      | JArray [] => Ok None
      | JArray (firstUriRecord :: _) =>
          match hasOwnProperty firstUriRecord "target" with
          | Err e => Err e
          | Ok false => Ok None
          | Ok true =>
              match getField firstUriRecord "target" with
              | JString tokenFileUrl =>
                  if String.prefix "https" tokenFileUrl then Ok (Some tokenFileUrl)
                  else if String.prefix "http" tokenFileUrl then Ok (Some tokenFileUrl)
                  else Ok (Some ("https://" +:+ tokenFileUrl))
              | _ => Err (TypeError "tokenFileUrl.startsWith is not a function")
              end
          end
      | _ => Ok None
      end
  end.

(** *** The parts of a zone file that [getTokenFileUrl] looks at *)

(** The own [uri] property, the first record of a [uri] array, and
    the own [target] property of a record. *)
Definition ownProperty (v : JsValue) (key : string) : option JsValue :=
  match v with
  | JObject fields => lookup key fields
  | _ => None
  end.

Definition isArray (v : JsValue) : bool :=
  match v with
  | JArray _ => true
  | _ => false
  end.

Definition firstUriRecord (zoneFileJson : JsValue) : option JsValue :=
  match ownProperty zoneFileJson "uri" with
  | Some (JArray (record :: _)) => Some record
  | _ => None
  end.

(** A value on which [hasOwnProperty] can be called: not [null] or
    [undefined], and with no own property that hides the method. *)
Definition hasMethods (v : JsValue) : bool :=
  match v with
  | JNull | JUndefined => false
  | JObject fields =>
      match lookup "hasOwnProperty" fields with
      | Some _ => false
      | None => true
      end
  | _ => true
  end.

Definition isString (v : JsValue) : bool :=
  match v with
  | JString _ => true
  | _ => false
  end.

(** The shape of a parsed zone file, as far as this function relies
    on it: a value with methods, whose first uri record, if there is
    one, is a value with methods whose target, if there is one, is a
    string. *)
Definition zoneFileShape (zoneFileJson : JsValue) : bool :=
  hasMethods zoneFileJson
  && match firstUriRecord zoneFileJson with
     | Some record =>
         hasMethods record
         && match ownProperty record "target" with
            | Some target => isString target
            | None => true
            end
     | None => true
     end.

(** The four cases without a token file URL: no own [uri] property,
    a [uri] that is not an array, an empty [uri] array, a first record
    without an own [target] property. *)
Definition noTokenFileUrl (zoneFileJson : JsValue) : Prop :=
  ownProperty zoneFileJson "uri" = None
  \/ (exists uri, ownProperty zoneFileJson "uri" = Some uri /\ isArray uri = false)
  \/ ownProperty zoneFileJson "uri" = Some (JArray [])
  \/ (exists record,
        firstUriRecord zoneFileJson = Some record
        /\ ownProperty record "target" = None).

(** The URL for a target: the target itself when it starts with
    [http], and [https://] before it otherwise. *)
Definition withScheme (target : string) : string :=
  if String.prefix "http" target then target else "https://" +:+ target.

(** *** Sample zone files *)

Definition sampleZoneFile : JsValue :=
  JObject
    [("$origin", JString "alice.id");
     ("$ttl", JNumber 3600);
     ("uri",
      JArray
        [JObject
           [("name", JString "_http._tcp");
            ("priority", JNumber 10);
            ("weight", JNumber 1);
            ("target", JString "gaia.blockstack.org/hub/1abc/profile.json")]])].

End ProfileZoneFiles.

(** ** BNS namespace operations (src/unnamed/part_003) *)

Module BnsNamespace.
Import Bytes Clarity Bns.

Record PriceFunction : Type := mkPriceFunction {
  base : Z;
  coefficient : Z;
  b1 : Z;
  b2 : Z;
  b3 : Z;
  b4 : Z;
  b5 : Z;
  b6 : Z;
  b7 : Z;
  b8 : Z;
  b9 : Z;
  b10 : Z;
  b11 : Z;
  b12 : Z;
  b13 : Z;
  b14 : Z;
  b15 : Z;
  b16 : Z;
  nonAlphaDiscount : Z;
  noVowelDiscount : Z
}.

(** [standardPrincipalCV] of [@stacks/transactions], called on the
    text of an address: it decodes the text, and throws on a text that
    is no address. *)
Class PrincipalImports : Type := {
  standardPrincipalCV : string -> result JsError ClarityValue
}.

Section Operations.
Context {imports : Imports} {principals : PrincipalImports}.

(** Whether [standardPrincipalCV] takes a text for an address. *)
Definition isAddress (address : string) : bool :=
  match standardPrincipalCV address with
  | Ok _ => true
  | Err _ => false
  end.

(** The integers of a reveal, in the order in which [uintCV] is
    called on them. *)
Definition revealIntegers (priceFunction : PriceFunction) (lifetime : Z)
  : list Z :=
  [base priceFunction;
   coefficient priceFunction;
   b1 priceFunction;
   b2 priceFunction;
   b3 priceFunction;
   b4 priceFunction;
   b5 priceFunction;
   b6 priceFunction;
   b7 priceFunction;
   b8 priceFunction;
   b9 priceFunction;
   b10 priceFunction;
   b11 priceFunction;
   b12 priceFunction;
   b13 priceFunction;
   b14 priceFunction;
   b15 priceFunction;
   b16 priceFunction;
   nonAlphaDiscount priceFunction;
   noVowelDiscount priceFunction;
   lifetime].

(** The arguments are built left to right: the two buffers, the
    integers, the principal. The first of them that throws rejects
    the promise before [makeBnsContractCall] is called. *)
Definition buildRevealNamespaceTx (namespace salt : string)
    (priceFunction : PriceFunction) (lifetime : Z)
    (namespaceImportAddress : string)
    (publicKey : string) (network : StacksNetwork) : Promise StacksTransaction :=
  let bnsFunctionName := "namespace-reveal" in
  match uintCVsOf (revealIntegers priceFunction lifetime) with
  | Err e => Reject e
  | Ok integers =>
      match standardPrincipalCV namespaceImportAddress with
      | Err e => Reject e
      | Ok importPrincipal =>
          makeBnsContractCall {|
            functionName := bnsFunctionName;
            functionArgs :=
              [bufferCVFromString namespace; bufferCVFromString salt]
              ++ integers ++ [importPrincipal];
            publicKey := publicKey;
            network := network;
            attachment := None
          |}
      end
  end.

Definition buildImportNameTx (namespace name beneficiary zonefile : string)
    (publicKey : string) (network : StacksNetwork) : Promise StacksTransaction :=
  let bnsFunctionName := "name-import" in
  let zonefileHash := getZonefileHash zonefile in
  match standardPrincipalCV beneficiary with
  | Err e => Reject e
  | Ok beneficiaryPrincipal =>
      makeBnsContractCall {|
        functionName := bnsFunctionName;
        functionArgs :=
          [bufferCVFromString namespace;
           bufferCVFromString name;
           beneficiaryPrincipal;
           bufferCV zonefileHash];
        publicKey := publicKey;
        network := network;
        attachment := Some (Buffer_from zonefile)
      |}
  end.

Definition buildReadyNamespaceTx (namespace : string)
    (publicKey : string) (network : StacksNetwork) : Promise StacksTransaction :=
  let bnsFunctionName := "namespace-ready" in
  makeBnsContractCall {|
    functionName := bnsFunctionName;
    functionArgs := [bufferCVFromString namespace];
    publicKey := publicKey;
    network := network;
    attachment := None
  |}.

End Operations.

(** *** Test doubles

    The stand-in for [standardPrincipalCV] knows one address, that
    of the tests of [@stacks/transactions]: its version is 22 and its
    hash the 20 bytes that the text encodes. It takes no other text.
    A second set of imports takes the first byte of a zonefile for its
    hash, so that two zonefiles can have the same hash. *)
Definition testPrincipals : PrincipalImports := {|
  standardPrincipalCV := fun address =>
    if String.eqb address testAddress
    then Ok (Clarity.standardPrincipalCV
               (mkAddress 22
                  [165; 217; 211; 49; 0; 15; 91; 121; 87; 140;
                   229; 107; 209; 87; 242; 154; 144; 86; 240; 214]))
    else Err (Error "Invalid c32 address")
|}.

Definition firstByteImports : Imports := {|
  StacksTransaction := UnsignedContractCallOptions;
  StacksPrivateKey := string;
  ChainID_Mainnet := 1;
  ChainID_Testnet := 2147483648;
  sha256 := fun data => 1 :: data;
  ripemd160 := fun data => 2 :: data;
  decodeFQN := testDecodeFQN;
  bufferCVFromString := fun s => bufferCV (Buffer_from s);
  getZonefileHash := fun zonefile => take 1 (Buffer_from zonefile);
  cvToString := testCvToString;
  getCVTypeString := fun _ => "(type)";
  cvToStringOfUncheckedValue := fun _ => "undefined";
  privateKeyToString := fun key => key;
  getAddressFromPrivateKey := fun key => "ST" +:+ key;
  uintRangeError := fun value =>
    Error ("Cannot construct unsigned clarity integer from " +:+ pretty value)
|}.

Definition testPriceFunction : PriceFunction :=
  mkPriceFunction 1 1 1 2 3 4 5 6 7 8 9 10 11 12 13 14 15 16 1 1.

End BnsNamespace.

(** ** The calls that a BNS operation makes *)

Module BnsCalls.
Import Clarity Bns.

Section Calls.
Context {imports : Imports}.

(** One call that left the file. *)
Inductive event : Type :=
| madeRandomPrivKey
| calledReadOnlyFunction (options : ReadOnlyFunctionOptions)
| madeUnsignedContractCall (options : UnsignedContractCallOptions).

Definition eventOf {X} (c : call X) : event :=
  match c with
  | makeRandomPrivKey => madeRandomPrivKey
  | callReadOnlyFunction o => calledReadOnlyFunction o
  | makeUnsignedContractCall o => madeUnsignedContractCall o
  end.

(** The calls that a promise makes against [env] until it settles,
    in their order. *)
Fixpoint calls {A} (env : Remote) (p : Promise A) : list event :=
  match p with
  | Resolve _ => []
  | Reject _ => []
  | Await c k => eventOf c :: calls env (k (answer env c))
  end.

(** Whether the chain of [network] is one with a BNS contract. *)
Definition knownChain (network : StacksNetwork) : bool :=
  match getBnsContractAddress network with
  | Ok _ => true
  | Err _ => false
  end.

(** A promise of a transaction with [accepted] for the checks of its
    builder. When the builder accepts its input and the chain is
    known, the promise makes one call, of [makeUnsignedContractCall],
    for [functionName] of the BNS contract of [network], and resolves
    to the answer. Otherwise it rejects without a call. *)
Definition oneContractCall (env : Remote) (functionName publicKey : string)
    (network : StacksNetwork) (accepted : bool)
    (p : Promise StacksTransaction) : Prop :=
  if accepted && knownChain network
  then
    exists a request,
      getBnsContractAddress network = Ok a
      /\ calls env p = [madeUnsignedContractCall request]
      /\ settle env p = Ok (unsignedCall env request)
      /\ tx_contractAddress request = addressString a
      /\ tx_contractName request = "bns"
      /\ tx_functionName request = functionName
      /\ tx_publicKey request = publicKey
      /\ tx_validateWithAbi request = false
      /\ tx_network request = network
      /\ tx_anchorMode request = Any
  else exists e, settle env p = Err e /\ calls env p = [].

(** The read-only call of a query: to [functionName] of the BNS
    contract at [a], in the name of the address of the random key. *)
Definition queryRequest (env : Remote) (a : BnsContractAddress)
    (functionName : string) (functionArgs : list ClarityValue)
    (network : StacksNetwork) : ReadOnlyFunctionOptions :=
  {| call_contractAddress := addressString a;
     call_contractName := "bns";
     call_functionName := functionName;
     call_senderAddress :=
       getAddressFromPrivateKey (privateKeyToString (randomKey env));
     call_functionArgs := functionArgs;
     call_network := network |}.

(** A query that draws a random key and then either rejects, the
    chain of [network] being unknown, or makes one read-only call. *)
Definition oneReadOnlyCall {A} (env : Remote) (functionName : string)
    (functionArgs : list ClarityValue) (network : StacksNetwork)
    (p : Promise A) : Prop :=
  match getBnsContractAddress network with
  | Err e => calls env p = [madeRandomPrivKey] /\ settle env p = Err e
  | Ok a =>
      calls env p
      = [madeRandomPrivKey;
         calledReadOnlyFunction
           (queryRequest env a functionName functionArgs network)]
  end.

End Calls.
End BnsCalls.

(** ** The invariant of the instance store (src/unnamed/part_000) *)

Module SessionIdentity.
Import SessionStore.

Section Store.
Context {imports : Imports}.

(** What the store keeps while the callbacks only observe: the last
    updated identity is the identity of the stored session. *)
Definition tracked (this : InstanceDataStore) : Prop :=
  lastUpdatedIdentity this = currentIdentityOf (sessionData this).

(** What the store keeps whatever the callbacks do: every call to a
    callback reported two different identities. *)
Definition truthful (this : InstanceDataStore) : Prop :=
  Forall (fun call => oldIdentity call.2 <> newIdentity call.2)
    (notified this).

End Store.

Definition testCallback : @Callback testImports := 7%nat.

(** A callback that stores the empty session when it is called, and
    a store with a registered callback. *)
Definition testReentrant : Behaviour (imports := testImports) :=
  Call (SetSessionData (Some testEmptySession)) Return Return.

Definition testListening : InstanceDataStore (imports := testImports) :=
  setSessionIdentityChangeCallback (Some testCallback) (constructor None).

End SessionIdentity.

(** ** The local storage session store (src/unnamed/part_000) *)

Module LocalStorage.
Import SessionStore.

(** The [localStorage] of the browser: texts under text keys. A key
    or a value that is no text is stored as its text; writing never
    fails for lack of room. *)
Abbreviation Storage := (gmap string string).

(** A [StorageEvent], as far as the store reads it: the key is
    [null] when the storage was cleared, the new value is [null] when
    the item was removed. *)
Record StorageEvent : Type := mkStorageEvent {
  ev_key : option string;
  newValue : option string
}.

(** What the store imports besides the session itself: the default
    key, [sessionOptions.storeOptions.localStorageKey] when there are
    store options and the field is a string, the text of a session,
    and [SessionData.fromJSON(JSON.parse(data))], which throws on a
    text that it cannot read. *)
Class StorageImports {imports : Imports} : Type := {
  ParseError : Type;
  LOCALSTORAGE_SESSION_KEY : string;
  localStorageKey : SessionOptions -> option string;
  toString : SessionData -> string;
  fromJSON : string -> result ParseError SessionData
}.

Section Store.
Context {imports : Imports} {storageImports : StorageImports}.

Inductive JsError : Type :=
| NoSessionDataError (msg : string)
| Thrown (e : ParseError).

(** The fields of a [LocalStorageStore], whether its handler is
    registered for the [storage] events of the window, and the calls
    that it has made to its identity change callback, latest first.
    The key is [undefined] until the constructor assigns it. *)
Record LocalStorageStore : Type := mkStore {
  key : option string;
  identityChangeCallback : option Callback;
  lastUpdatedIdentity : option string;
  listening : bool;
  notified : list (Callback * SessionIdentityChangeEvent)
}.

(** [this.key] as the key of a storage item. *)
Definition keyString (this : LocalStorageStore) : string :=
  default "undefined" (key this).

Definition hasIdentityChangeCallback (this : LocalStorageStore) : bool :=
  match identityChangeCallback this with
  | Some _ => true
  | None => false
  end.

Definition getSessionData (this : LocalStorageStore) (localStorage : Storage)
  : result JsError SessionData :=
  let data := localStorage !! keyString this in
  Bns.ifTruthy data
    (fun data =>
       match fromJSON data with
       | Ok session => Ok session
       | Err e => Err (Thrown e)
       end)
    (Err (NoSessionDataError "No session data was found in localStorage")).

Definition setSessionData (session : SessionData) (this : LocalStorageStore)
    (localStorage : Storage) : bool * LocalStorageStore * Storage :=
  let currentIdentity := identityOf session in
  let calls :=
    if hasIdentityChangeCallback this
       && negb (identity_eqb (lastUpdatedIdentity this) currentIdentity)
    then
      match identityChangeCallback this with
      | Some callback =>
          (callback, {| oldIdentity := lastUpdatedIdentity this;
                        newIdentity := currentIdentity |}) :: notified this
      | None => notified this
      end
    else notified this in
  (true,
   {| key := key this;
      identityChangeCallback := identityChangeCallback this;
      lastUpdatedIdentity := currentIdentity;
      listening := listening this;
      notified := calls |},
   <[keyString this := toString session]> localStorage).

Definition deleteSessionData (this : LocalStorageStore) (localStorage : Storage)
  : bool * LocalStorageStore * Storage :=
  let localStorage := delete (keyString this) localStorage in
  let '(_, this, localStorage) :=
    setSessionData (newSessionData emptyOptions) this localStorage in
  (true, this, localStorage).

(** The handler of the [storage] events of the window. *)
Definition sessionStorageEvent (ev : StorageEvent) (this : LocalStorageStore)
    (localStorage : Storage) : result JsError LocalStorageStore :=
  match identityChangeCallback this with
  | None => Ok this
  | Some callback =>
      let read : option (option string) :=
        match ev_key ev, key this with
        | Some k, Some k' =>
            if String.eqb k k' then Some (newValue ev) else None
        | Some _, None => None
        | None, _ => Some (localStorage !! keyString this)
        end in
      match read with
      | None => Ok this
      | Some currentSessionDataString =>
          let parsed : result JsError (option string) :=
            Bns.ifTruthy currentSessionDataString
              (fun data =>
                 match fromJSON data with
                 | Ok sessionData => Ok (identityOf sessionData)
                 | Err e => Err (Thrown e)
                 end)
              (Ok None) in
          match parsed with
          | Err e => Err e
          | Ok currentIdentity =>
              if negb (identity_eqb (lastUpdatedIdentity this) currentIdentity)
              then
                let updateEvent :=
                  {| newIdentity := currentIdentity;
                     oldIdentity := lastUpdatedIdentity this |} in
                Ok {| key := key this;
                      identityChangeCallback := identityChangeCallback this;
                      lastUpdatedIdentity := currentIdentity;
                      listening := listening this;
                      notified := (callback, updateEvent) :: notified this |}
              else Ok this
          end
      end
  end.

(** [removeEventListener] when a callback was registered, then the
    assignment, then [addEventListener] under a condition that reads
    the handler, which is a function and so always holds. *)
Definition setSessionIdentityChangeCallback (callback : option Callback)
    (this : LocalStorageStore) : LocalStorageStore :=
  let listening :=
    if hasIdentityChangeCallback this then false else listening this in
  let listening := true || listening in
  {| key := key this;
     identityChangeCallback := callback;
     lastUpdatedIdentity := lastUpdatedIdentity this;
     listening := listening;
     notified := notified this |}.

(** The object before any constructor body has run. *)
Definition blank : LocalStorageStore :=
  {| key := None; identityChangeCallback := None;
     lastUpdatedIdentity := None; listening := false; notified := [] |}.

(** [SessionDataStore]'s constructor, with [setSessionData]
    dispatched to the local storage store. It runs before the key is
    assigned. *)
Definition superConstructor (sessionOptions : option SessionOptions)
    (this : LocalStorageStore) (localStorage : Storage)
  : LocalStorageStore * Storage :=
  match sessionOptions with
  | Some o =>
      let '(_, this, localStorage) :=
        setSessionData (newSessionData o) this localStorage in
      (this, localStorage)
  | None => (this, localStorage)
  end.

(** The key that the constructor assigns. *)
Definition keyOf (sessionOptions : option SessionOptions) : string :=
  match sessionOptions with
  | Some o => Bns.ifTruthy (localStorageKey o) (fun k => k) LOCALSTORAGE_SESSION_KEY
  | None => LOCALSTORAGE_SESSION_KEY
  end.

Definition constructor (sessionOptions : option SessionOptions)
    (localStorage : Storage) : result JsError (LocalStorageStore * Storage) :=
  let '(this, localStorage) :=
    superConstructor sessionOptions blank localStorage in
  let this :=
    {| key := Some (keyOf sessionOptions);
       identityChangeCallback := identityChangeCallback this;
       lastUpdatedIdentity := lastUpdatedIdentity this;
       listening := listening this;
       notified := notified this |} in
  let data := localStorage !! keyString this in
  let loaded : result JsError (SessionData * LocalStorageStore * Storage) :=
    Bns.ifTruthy data
      (fun data =>
         match fromJSON data with
         | Ok sessionData => Ok (sessionData, this, localStorage)
         | Err e => Err (Thrown e)
         end)
      (let sessionData := newSessionData emptyOptions in
       let '(_, this, localStorage) :=
         setSessionData sessionData this localStorage in
       Ok (sessionData, this, localStorage)) in
  match loaded with
  | Err e => Err e
  | Ok (sessionData, this, localStorage) =>
      match identityOf sessionData with
      | Some a =>
          Ok ({| key := key this;
                 identityChangeCallback := identityChangeCallback this;
                 lastUpdatedIdentity := Some a;
                 listening := listening this;
                 notified := notified this |}, localStorage)
      | None => Ok (this, localStorage)
      end
  end.

(** What can happen to a constructed store: a client calls a
    method, or the window dispatches a [storage] event to the
    registered handler. *)
Inductive method : Type :=
| GetSessionData
| SetSessionData (session : SessionData)
| DeleteSessionData
| SetSessionIdentityChangeCallback (callback : option Callback)
| DispatchStorageEvent (ev : StorageEvent).

Definition invoke (m : method) (this : LocalStorageStore)
    (localStorage : Storage) : result JsError (LocalStorageStore * Storage) :=
  match m with
  | GetSessionData =>
      match getSessionData this localStorage with
      | Ok _ => Ok (this, localStorage)
      | Err e => Err e
      end
  | SetSessionData s =>
      let '(_, this, localStorage) := setSessionData s this localStorage in
      Ok (this, localStorage)
  | DeleteSessionData =>
      let '(_, this, localStorage) := deleteSessionData this localStorage in
      Ok (this, localStorage)
  | SetSessionIdentityChangeCallback cb =>
      Ok (setSessionIdentityChangeCallback cb this, localStorage)
  | DispatchStorageEvent ev =>
      if listening this then
        match sessionStorageEvent ev this localStorage with
        | Ok this => Ok (this, localStorage)
        | Err e => Err e
        end
      else Ok (this, localStorage)
  end.

(** The stores that can come about, with the storage beside them:
    a constructed store, after any number of methods and events that
    returned, and with any changes that others made to the storage
    in between. *)
Inductive reachable : LocalStorageStore -> Storage -> Prop :=
| reachable_new sessionOptions localStorage this localStorage' :
    constructor sessionOptions localStorage = Ok (this, localStorage') ->
    reachable this localStorage'
| reachable_invoke m this localStorage this' localStorage' :
    reachable this localStorage ->
    invoke m this localStorage = Ok (this', localStorage') ->
    reachable this' localStorage'
| reachable_storage this localStorage localStorage' :
    reachable this localStorage ->
    reachable this localStorage'.

End Store.

(** *** Test double

    The text of a session is [session:] and its identity address;
    the options name the key [my-session] when they hold an
    identity address. *)
Definition testStorageImports : @StorageImports testImports :=
  @Build_StorageImports testImports
    string
    "blockstack-session"
    (fun o : option string =>
       match o with
       | Some _ => Some "my-session"
       | None => None
       end)
    (fun s : option string => "session:" +:+ default "" s)
    (fun data =>
       if String.prefix "session:" data
       then
         let a := String.substring 8 (String.length data - 8)%nat data in
         Ok (if String.eqb a "" then None else Some a)
       else Err "SyntaxError").

Definition testOptions : @SessionOptions testImports := Some "1abc".

(** The store that the constructor makes without options on an
    empty storage, and the storage after it. *)
Definition testStore : LocalStorageStore (imports := testImports) :=
  {| key := Some "blockstack-session";
     identityChangeCallback := None;
     lastUpdatedIdentity := None;
     listening := false;
     notified := [] |}.

Definition testStorage : Storage := <["blockstack-session" := "session:"]> ∅.

End LocalStorage.

(** ** JavaScript string methods *)

Module JsString.

(** [s.indexOf(sep) >= 0]. *)
Fixpoint includes (sep s : string) : bool :=
  String.prefix sep s
  || match s with
     | EmptyString => false
     | String _ s' => includes sep s'
     end.

(** [s.split(sep)] for a separator that is not empty, from left to
    right; [skip] counts the characters of a separator that was found
    and is still to be passed over. *)
Fixpoint split_from (sep : string) (skip : nat) (s : string) : list string :=
  match s with
  | EmptyString => [EmptyString]
  | String c s' =>
      match skip with
      | S n => split_from sep n s'
      | O =>
          if String.prefix sep s
          then EmptyString :: split_from sep (String.length sep - 1) s'
          else match split_from sep 0 s' with
               | part :: parts => String c part :: parts
               | [] => [String c EmptyString]
               end
      end
  end.

Definition split (sep s : string) : list string := split_from sep 0 s.

(** [parts.join(sep)]. *)
Definition join (sep : string) (parts : list string) : string :=
  String.concat sep parts.

(** [s.replace(/\/$/, '')]: [s] without one slash at its end. *)
Fixpoint stripTrailingSlash (s : string) : string :=
  match s with
  | EmptyString => EmptyString
  | String c s' =>
      match s' with
      | EmptyString => if Ascii.eqb c "/" then EmptyString else s
      | String _ _ => String c (stripTrailingSlash s')
      end
  end.

(** The character [c] occurs in [s]. *)
Fixpoint occurs (c : ascii) (s : string) : bool :=
  match s with
  | EmptyString => false
  | String c' s' => Ascii.eqb c' c || occurs c s'
  end.

End JsString.

(** ** Profile zone files: making and resolving (src/unnamed/part_001,
       src/unnamed/part_002, src/src/profiles/profileLookup.ts) *)

Module Profiles.
Import JsString ProfileZoneFiles.

(** What is thrown, or what a promise rejects with: an [Error]
    made in these files, a [TypeError] of a property access, what an
    import or the network threw, and the rejection without a
    reason. *)
Inductive Exception : Type :=
| Error (message : string)
| OfTypeError (e : JsError)
| Foreign (description : string)
| Undefined.

Definition typeError {A} (r : result JsError A) : result Exception A :=
  match r with
  | Ok a => Ok a
  | Err e => Err (OfTypeError e)
  end.

(** An error in a template string. *)
Definition exceptionString (e : Exception) : string :=
  match e with
  | Error message => "Error: " +:+ message
  | OfTypeError (TypeError message) => "TypeError: " +:+ message
  | Foreign description => description
  | Undefined => "undefined"
  end.

(** The [zoneFile] object of [makeProfileZoneFile] for a target. *)
Definition zoneFileObject (origin target : string) : JsValue :=
  JObject
    [("$origin", JString origin);
     ("$ttl", JNumber 3600);
     ("uri",
      JArray
        [JObject
           [("name", JString "_http._tcp");
            ("priority", JNumber 10);
            ("weight", JNumber 1);
            ("target", JString target)]])].

(** [makeProfileZoneFile] up to its [zoneFile] object, before it is
    handed to [makeZoneFile]. *)
Definition profileZoneFileJson (origin tokenFileUrl : string)
  : result Exception JsValue :=
  if negb (includes "://" tokenFileUrl) then
    Err (Error "Invalid token file url")
  else
    match split "://" tokenFileUrl with
    | urlScheme :: afterScheme :: _ =>
        let urlParts := split "/" afterScheme in
        match urlParts with
        | domain :: pathParts =>
            let pathname := "/" +:+ join "/" pathParts in
            Ok (zoneFileObject origin
                  (urlScheme +:+ "://" +:+ domain +:+ pathname))
        | [] =>
            Err (OfTypeError (TypeError "Cannot read properties of undefined"))
        end
    | _ => Err (OfTypeError (TypeError "Cannot read properties of undefined"))
    end.

(** [v] in a condition. *)
Definition truthyValue (v : JsValue) : bool :=
  match v with
  | JNull | JUndefined => false
  | JBool b => b
  | JNumber n => negb (n =? 0)
  | JString s => negb (String.eqb s "")
  | JArray _ | JObject _ => true
  end.

(** [Object.keys(v).length] for a value that is not [null] or
    [undefined]. *)
Definition keysLength (v : JsValue) : nat :=
  match v with
  | JObject fields => length (remove_dups (map fst fields))
  | JArray items => length items
  | JString s => String.length s
  | _ => 0%nat
  end.

(** [v[key]], which throws on [null] and [undefined]. *)
Definition getProperty (v : JsValue) (key : string) : result Exception JsValue :=
  match v with
  | JNull | JUndefined =>
      Err (OfTypeError (TypeError "Cannot read properties of null or undefined"))
  | _ => Ok (getField v key)
  end.

(** What these files import from packages that are not part of
    them: [zone-file], [JSON], the legacy format of [Person] and
    [extractProfile] of [./profileTokens]. Each can throw.
    [legacyProfile p] is [Person.fromLegacyFormat(p).profile()]. *)
Class Imports : Type := {
  makeZoneFile : JsValue -> string -> string;
  parseZoneFile : JsValue -> result Exception JsValue;
  JSON_parse : JsValue -> result Exception JsValue;
  legacyProfile : JsValue -> result Exception JsValue;
  extractProfile : JsValue -> JsValue -> result Exception JsValue
}.

(** The network: the text and the JSON behind a URL, for [fetch]
    with [response.text()] and with [response.json()], and
    [config.network.getNameInfo]. Each can fail. *)
Record Network : Type := mkNetwork {
  fetchText : string -> result Exception string;
  fetchJson : string -> result Exception JsValue;
  getNameInfo : string -> result Exception JsValue
}.

(** What a run does that can be seen from outside. *)
Inductive Event : Type :=
| Fetched (url : string)
| AskedNameInfo (username : string)
| LoggerError (message : string)
| LoggerDebug (message : string)
| ConsoleError (e : Exception)
| ConsoleWarn (e : Exception)
| ConsoleWarnText (message : string)
| CalledBack (profile : JsValue).

(** A run of an [async] function: its events in their order, and
    the value it resolves to or the exception it rejects with. *)
Definition Run (A : Type) : Type := list Event * result Exception A.

Definition ret {A} (a : A) : Run A := ([], Ok a).

Definition throw {A} (e : Exception) : Run A := ([], Err e).

Definition lift {A} (r : result Exception A) : Run A := ([], r).

Definition emit (ev : Event) : Run unit := ([ev], Ok tt).

Definition bind {A B} (m : Run A) (k : A -> Run B) : Run B :=
  match m with
  | (events, Ok a) => let '(events', r) := k a in (events ++ events', r)
  | (events, Err e) => (events, Err e)
  end.

(** [try { m } catch (error) { handler(error) }]. *)
Definition catch {A} (m : Run A) (handler : Exception -> Run A) : Run A :=
  match m with
  | (events, Ok a) => (events, Ok a)
  | (events, Err e) => let '(events', r) := handler e in (events ++ events', r)
  end.

Notation "x <- m ;; k" := (bind m (fun x => k))
  (at level 100, m at next level, right associativity).
Notation "m ;;; k" := (bind m (fun _ => k))
  (at level 100, right associativity).

(** The URLs that a run fetched and the profiles that it handed to
    the callback. *)
Definition fetched (events : list Event) : list string :=
  omap (fun ev => match ev with Fetched url => Some url | _ => None end) events.

Definition calledBack (events : list Event) : list JsValue :=
  omap (fun ev => match ev with CalledBack p => Some p | _ => None end) events.

(** A run that goes to the network at most once, for a URL that
    starts with [http], and calls the callback at most once. *)
Definition atMostOnce (events : list Event) : Prop :=
  (length (fetched events) <= 1)%nat
  /\ Forall (fun url => String.prefix "http" url = true) (fetched events)
  /\ (length (calledBack events) <= 1)%nat.

Section Operations.
Context {imports : Imports}.

Definition makeProfileZoneFile (origin tokenFileUrl : string)
  : result Exception string :=
  match profileZoneFileJson origin tokenFileUrl with
  | Err e => Err e
  | Ok zoneFile =>
      let zoneFileTemplate :=
        "{$origin}" +:+ String "010" ("{$ttl}" +:+ String "010"
          ("{uri}" +:+ String "010" "")) in
      Ok (makeZoneFile zoneFile zoneFileTemplate)
  end.

(** [fetch(url)] and [response.text()]. *)
Definition fetch (network : Network) (url : string) : Run string :=
  ([Fetched url], fetchText network url).

(** The token file of a profile: fetched, parsed, and the token of
    its first record verified against the key or address. *)
Definition fetchProfile (network : Network) (tokenFileUrl : string)
    (publicKeyOrAddress : JsValue) : Run JsValue :=
  responseText <- fetch network tokenFileUrl ;;
  responseJson <- lift (JSON_parse (JString responseText)) ;;
  let tokenRecords := responseJson in
  firstRecord <- lift (getProperty tokenRecords "0") ;;
  token <- lift (getProperty firstRecord "token") ;;
  lift (extractProfile token publicKeyOrAddress).

Definition resolveZoneFileToProfile (network : Network)
    (zoneFile publicKeyOrAddress : JsValue) : Run JsValue :=
  zoneFileJson <- lift (parseZoneFile zoneFile) ;;
  hasOrigin <- lift (typeError (hasOwnProperty zoneFileJson "$origin")) ;;
  let zoneFileJson := if hasOrigin then zoneFileJson else JNull in
  if truthyValue zoneFileJson && (0 <? keysLength zoneFileJson)%nat then
    tokenFileUrl <- lift (typeError (getTokenFileUrl zoneFileJson)) ;;
    Bns.ifTruthy tokenFileUrl
      (fun tokenFileUrl =>
         catch (fetchProfile network tokenFileUrl publicKeyOrAddress)
           (fun error =>
              emit (LoggerError
                      ("resolveZoneFileToProfile: error fetching token file "
                       +:+ tokenFileUrl +:+ ": " +:+ exceptionString error)) ;;;
              throw error))
      (emit (LoggerDebug
               "Token file url not found. Resolving to blank profile.") ;;;
       ret (JObject []))
  else
    profile <- lift (JSON_parse zoneFile) ;;
    lift (legacyProfile profile).

(** The first [try] of [resolveZoneFileToPerson]: the zone file
    object that is left, and what was caught. *)
Definition parsedWithOrigin (zoneFile : JsValue) : JsValue * option Exception :=
  match parseZoneFile zoneFile with
  | Err e => (JNull, Some e)
  | Ok parsed =>
      match hasOwnProperty parsed "$origin" with
      | Err e => (parsed, Some (OfTypeError e))
      | Ok false => (JNull, Some (Error "zone file is missing an origin"))
      | Ok true => (parsed, None)
      end
  end.

(** Its second [try]: the profile that is left, and what was
    caught. *)
Definition legacyOrRaw (zoneFile : JsValue) : JsValue * option Exception :=
  match JSON_parse zoneFile with
  | Err e => (JNull, Some e)
  | Ok parsed =>
      match legacyProfile parsed with
      | Err e => (parsed, Some e)
      | Ok profile => (profile, None)
      end
  end.

(** The callback is an observer: its call is recorded, it does not
    throw. *)
Definition resolveZoneFileToPerson (network : Network)
    (zoneFile publicKeyOrAddress : JsValue) : Run unit :=
  let '(zoneFileJson, caught) := parsedWithOrigin zoneFile in
  match caught with
  | Some e => emit (ConsoleError e)
  | None => ret tt
  end ;;;
  if truthyValue zoneFileJson && (0 <? keysLength zoneFileJson)%nat then
    tokenFileUrl <- lift (typeError (getTokenFileUrl zoneFileJson)) ;;
    Bns.ifTruthy tokenFileUrl
      (fun tokenFileUrl =>
         catch (profile <- fetchProfile network tokenFileUrl publicKeyOrAddress ;;
                emit (CalledBack profile))
           (fun error => emit (ConsoleWarn error)))
      (emit (ConsoleWarnText "Token file url not found") ;;;
       emit (CalledBack (JObject [])))
  else
    let '(profile, caught) := legacyOrRaw zoneFile in
    match caught with
    | Some e => emit (ConsoleWarn e)
    | None => ret tt
    end ;;;
    emit (CalledBack profile).

(** The first step of [lookupProfile]: the answer of the lookup
    URL for the name, or of [getNameInfo]. *)
Definition lookupZoneFile (network : Network) (username : string)
    (zoneFileLookupURL : option string) : Run JsValue :=
  Bns.ifTruthy zoneFileLookupURL
    (fun zoneFileLookupURL =>
       let url := stripTrailingSlash zoneFileLookupURL +:+ "/" +:+ username in
       ([Fetched url], fetchJson network url))
    ([AskedNameInfo username], getNameInfo network username).

Definition lookupProfile (network : Network) (username : string)
    (zoneFileLookupURL : option string) : Run JsValue :=
  if String.eqb username "" then throw Undefined
  else
    responseJSON <- lookupZoneFile network username zoneFileLookupURL ;;
    hasZonefile <- lift (typeError (hasOwnProperty responseJSON "zonefile")) ;;
    hasAddress <-
      (if hasZonefile : bool
       then lift (typeError (hasOwnProperty responseJSON "address"))
       else ret false) ;;
    if hasZonefile && hasAddress then
      resolveZoneFileToProfile network
        (getField responseJSON "zonefile") (getField responseJSON "address")
    else
      throw (Error ("Invalid zonefile lookup response: did not contain `address`"
                    +:+ " or `zonefile` field")).

End Operations.

(** *** Test doubles

    A zone file in text form is its object; JSON text is not read;
    a token is its own profile. The network has one token file. *)
Definition testImports : Imports := {|
  makeZoneFile := fun zoneFile template => template;
  parseZoneFile := fun zoneFile => Ok zoneFile;
  JSON_parse := fun text =>
    match text with
    | JString "[token]" =>
        Ok (JArray [JObject [("token", JObject [("name", JString "Alice")])]])
    | _ => Err (Foreign "SyntaxError: Unexpected token")
    end;
  legacyProfile := fun profile => Ok profile;
  extractProfile := fun token publicKeyOrAddress => Ok token
|}.

Definition testNetwork : Network := {|
  fetchText := fun url =>
    if String.eqb url "https://gaia.blockstack.org/hub/1abc/profile.json"
    then Ok "[token]" else Err (Foreign "TypeError: Failed to fetch");
  fetchJson := fun url =>
    if String.eqb url "https://core.blockstack.org/v1/names/alice.id"
    then Ok (JObject [("zonefile", sampleZoneFile);
                      ("address", JString "1abc")])
    else Err (Foreign "TypeError: Failed to fetch");
  getNameInfo := fun username => Err (Foreign "Error: Name not found")
|}.

Definition testUnreachableZoneFile : JsValue :=
  JObject
    [("$origin", JString "bob.id");
     ("uri", JArray [JObject [("target", JString "example.org/bob.json")]])].

End Profiles.

(** ** Name and namespace validity (src/src/operations/safety.ts) *)

Module Safety.
Import JsString.

(** [c] is in the range from [lo] to [hi]. *)
Definition inRange (lo hi c : ascii) : bool :=
  (nat_of_ascii lo <=? nat_of_ascii c)%nat
  && (nat_of_ascii c <=? nat_of_ascii hi)%nat.

Fixpoint allChars (class : ascii -> bool) (s : string) : bool :=
  match s with
  | EmptyString => true
  | String c s' => class c && allChars class s'
  end.

(** The character class [[a-z0-9\-_+]]. *)
Definition namePartChar (c : ascii) : bool :=
  inRange "a" "z" c || inRange "0" "9" c
  || Ascii.eqb c "-" || Ascii.eqb c "_" || Ascii.eqb c "+".

(** The character class [[a-z0-9\-_]]. *)
Definition namespaceChar (c : ascii) : bool :=
  inRange "a" "z" c || inRange "0" "9" c
  || Ascii.eqb c "-" || Ascii.eqb c "_".

(** [NAME_PART_RULE.test(namePart)] for [/^[a-z0-9\-_+]+$/]. *)
Definition NAME_PART_RULE (namePart : string) : bool :=
  negb (String.eqb namePart "") && allChars namePartChar namePart.

Definition LENGTH_MAX_NAME : nat := 37.

(** [namespaceID.match(NAMESPACE_RULE) !== null] for
    [/^[a-z0-9\-_]{1,19}$/]. *)
Definition NAMESPACE_RULE (namespaceID : string) : bool :=
  (1 <=? String.length namespaceID)%nat
  && (String.length namespaceID <=? 19)%nat
  && allChars namespaceChar namespaceID.

(** What the promise of [isNameValid] resolves to; it never
    rejects. *)
Definition isNameValid (fullyQualifiedName : string) : bool :=
  if String.eqb fullyQualifiedName ""
     || (LENGTH_MAX_NAME <? String.length fullyQualifiedName)%nat
  then false
  else
    let nameParts := split "." fullyQualifiedName in
    if negb (length nameParts =? 2)%nat then false
    else
      fold_left
        (fun (agg : bool) namePart =>
           if negb agg then false else NAME_PART_RULE namePart)
        nameParts true.

(** What the promise of [isNamespaceValid] resolves to. *)
Definition isNamespaceValid (namespaceID : string) : bool :=
  NAMESPACE_RULE namespaceID.

End Safety.

(** * Properties *)

(** ** Bytes *)

Module BytesFacts.
Import Bytes.

Lemma length_toBytesBE n v : length (toBytesBE n v) = n.
Proof. induction n as [|n IH]; simpl; [done | by rewrite IH]. Qed.

Lemma wf_toBytesBE n v : wf_bytes (toBytesBE n v).
Proof.
  induction n as [|n IH]; constructor; [|done].
  apply Z.mod_pos_bound. lia.
Qed.

Lemma fromBytesBE_toBytesBE n v :
  fromBytesBE (toBytesBE n v) = v mod 256 ^ Z.of_nat n.
Proof.
  induction n as [|n IH].
  - simpl. by rewrite Z.mod_1_r.
  - cbn [toBytesBE fromBytesBE]. rewrite length_toBytesBE, IH.
    rewrite Nat2Z.inj_succ, Z.pow_succ_r by lia.
    rewrite (Z.mul_comm 256), Z.rem_mul_r by lia. lia.
Qed.

Lemma fromBytesBE_toBytesBE_small n v :
  0 <= v < 256 ^ Z.of_nat n -> fromBytesBE (toBytesBE n v) = v.
Proof. intros. rewrite fromBytesBE_toBytesBE. by apply Z.mod_small. Qed.

Lemma ascii_of_byte_of_ascii c : ascii_of_byte (byte_of_ascii c) = c.
Proof.
  unfold ascii_of_byte, byte_of_ascii.
  by rewrite N2Z.id, ascii_N_embedding.
Qed.

Lemma is_byte_of_ascii c : is_byte (byte_of_ascii c).
Proof.
  unfold is_byte, byte_of_ascii.
  pose proof (N_ascii_bounded c). lia.
Qed.

Lemma string_of_bytes_Buffer_from s : string_of_bytes (Buffer_from s) = s.
Proof.
  induction s as [|c s IH]; simpl; [done|].
  by rewrite ascii_of_byte_of_ascii, IH.
Qed.

Lemma length_Buffer_from s : length (Buffer_from s) = String.length s.
Proof. induction s as [|c s IH]; simpl; [done | by rewrite IH]. Qed.

Lemma wf_Buffer_from s : wf_bytes (Buffer_from s).
Proof.
  induction s as [|c s IH]; constructor; [apply is_byte_of_ascii | done].
Qed.

Lemma Buffer_from_app a b :
  Buffer_from (a +:+ b) = Buffer_from a ++ Buffer_from b.
Proof. induction a as [|c a IH]; simpl; [done | by rewrite IH]. Qed.

Lemma Buffer_from_inj a b : Buffer_from a = Buffer_from b -> a = b.
Proof.
  intros E. rewrite <- (string_of_bytes_Buffer_from a), E.
  apply string_of_bytes_Buffer_from.
Qed.

(** [Buffer.compare] is a total order on buffers. *)
Lemma compare_refl a : compare a a = Eq.
Proof. induction a as [|x a IH]; simpl; [done|]. by rewrite Z.compare_refl. Qed.

Lemma compare_Eq a b : compare a b = Eq -> a = b.
Proof.
  revert b. induction a as [|x a IH]; intros [|y b]; simpl; try done.
  destruct (Z.compare_spec x y); try done.
  intros E. f_equal; [done | by apply IH].
Qed.

Lemma compare_antisym a b : compare b a = CompOpp (compare a b).
Proof.
  revert b. induction a as [|x a IH]; intros [|y b]; simpl; try done.
  rewrite (Z.compare_antisym x y).
  destruct (x ?= y); simpl; [apply IH | done | done].
Qed.

Lemma compare_Lt_trans a b c :
  compare a b = Lt -> compare b c = Lt -> compare a c = Lt.
Proof.
  revert b c. induction a as [|x a IH]; intros [|y b] [|z c]; simpl; try done.
  destruct (Z.compare_spec x y), (Z.compare_spec y z); subst; try done.
  - rewrite Z.compare_refl. apply IH.
  - intros _ _. by rewrite (proj2 (Z.compare_lt_iff _ _)) by lia.
  - intros _ _. by rewrite (proj2 (Z.compare_lt_iff _ _)) by lia.
  - intros _ _. by rewrite (proj2 (Z.compare_lt_iff _ _)) by lia.
Qed.

End BytesFacts.

(** ** The byte reader *)

Module ReaderFacts.
Import BufferReader.

Lemma remaining_advance r bs rest :
  remaining r = bs ++ rest -> remaining (advance (length bs) r) = rest.
Proof.
  unfold remaining, advance. simpl. intros E.
  by rewrite <- drop_drop, E, drop_app_length.
Qed.

Lemma advance_advance a b r : advance b (advance a r) = advance (a + b) r.
Proof. unfold advance. simpl. f_equal. lia. Qed.

Lemma advance_0 r : advance 0 r = r.
Proof. destruct r. unfold advance. simpl. f_equal. lia. Qed.

Lemma remaining_new bs : remaining (new bs) = bs.
Proof. done. Qed.

Lemma parses_ret {A} (a : A) : parses (ret a) [] a.
Proof. intros r rest _. unfold ret. simpl. by rewrite advance_0. Qed.

Lemma parses_bind {A B} (m : Reader A) (k : A -> Reader B) bs bs' a b :
  parses m bs a -> parses (k a) bs' b -> parses (bind m k) (bs ++ bs') b.
Proof.
  intros Hm Hk r rest E. unfold bind.
  rewrite <- app_assoc in E. rewrite (Hm _ _ E).
  rewrite (Hk _ rest (remaining_advance _ _ _ E)).
  by rewrite advance_advance, length_app.
Qed.

Lemma parses_bind_ret {A B} (m : Reader A) (f : A -> B) bs a :
  parses m bs a -> parses (bind m (fun x => ret (f x))) bs (f a).
Proof.
  intros Hm. rewrite <- (app_nil_r bs).
  eapply parses_bind; [done | apply parses_ret].
Qed.

Lemma parses_readByte b : parses readByte [b] b.
Proof.
  intros r rest E. unfold readByte.
  assert (buffer r !! offset r = Some b) as ->; [|done].
  unfold remaining in E.
  rewrite <- (Nat.add_0_r (offset r)), <- lookup_drop. by rewrite E.
Qed.

Lemma parses_readBuffer n bs : length bs = n -> parses (readBuffer n) bs bs.
Proof.
  intros <- r rest E. unfold readBuffer.
  rewrite E, length_app, take_app_length.
  by destruct (Nat.leb_spec (length bs) (length bs + length rest)); [|lia].
Qed.

Lemma parses_readUInt32BE v :
  0 <= v < 2 ^ 32 -> parses readUInt32BE (Bytes.toBytesBE 4 v) v.
Proof.
  intros Hv. unfold readUInt32BE.
  rewrite <- (BytesFacts.fromBytesBE_toBytesBE_small 4 v) at 2 by done.
  apply parses_bind_ret, parses_readBuffer, BytesFacts.length_toBytesBE.
Qed.

Lemma parses_replicateM {A} (m : Reader A) bss xs :
  Forall2 (parses m) bss xs ->
  parses (replicateM (length xs) m) (concat bss) xs.
Proof.
  induction 1 as [|bs x bss xs Hx _ IH]; simpl.
  - apply parses_ret.
  - eapply parses_bind; [done|]. by apply parses_bind_ret.
Qed.

(** Readers only move forward. *)
Lemma length_remaining r :
  length (remaining r) = (length (buffer r) - offset r)%nat.
Proof. unfold remaining. apply length_drop. Qed.

Lemma forward_ret {A} (a : A) : forward_only (ret a).
Proof. intros r a' r' [= _ <-]. done. Qed.

Lemma forward_fail {A} e : forward_only (@fail A e).
Proof. intros r a r' [=]. Qed.

Lemma readByte_consumes r b r' :
  readByte r = Ok (b, r') ->
  (length (remaining r') < length (remaining r))%nat.
Proof.
  unfold readByte. destruct (buffer r !! offset r) eqn:E; intros [= _ <-].
  apply lookup_lt_Some in E. rewrite !length_remaining. simpl. lia.
Qed.

Lemma forward_readByte : forward_only readByte.
Proof. intros r b r' Hr%readByte_consumes. lia. Qed.

Lemma forward_readBuffer n : forward_only (readBuffer n).
Proof.
  intros r bs r'. unfold readBuffer.
  destruct (n <=? length (remaining r))%nat; intros [= _ <-].
  rewrite !length_remaining. simpl. lia.
Qed.

Lemma forward_bind {A B} (m : Reader A) (k : A -> Reader B) :
  forward_only m -> (forall a, forward_only (k a)) -> forward_only (bind m k).
Proof.
  intros Hm Hk r b r'. unfold bind.
  destruct (m r) as [[a r1]|e] eqn:E; [|done].
  intros Hr'. pose proof (Hm _ _ _ E). pose proof (Hk _ _ _ _ Hr'). lia.
Qed.

Lemma forward_replicateM {A} (m : Reader A) count :
  forward_only m -> forward_only (replicateM count m).
Proof.
  intros Hm. induction count as [|count IH]; simpl.
  - apply forward_ret.
  - apply forward_bind; [done|]. intros a.
    apply forward_bind; [done|]. intros l. apply forward_ret.
Qed.

Lemma forward_readUInt32BE : forward_only readUInt32BE.
Proof.
  apply forward_bind; [apply forward_readBuffer|]. intros. apply forward_ret.
Qed.

(** Readers that agree where little is left. *)
Lemma agree_refl {A} n (m : Reader A) : agree_below n m m.
Proof. by intros r _. Qed.

Lemma agree_bind {A B} n (m m' : Reader A) (k k' : A -> Reader B) :
  agree_below n m m' -> forward_only m ->
  (forall a, agree_below n (k a) (k' a)) ->
  agree_below n (bind m k) (bind m' k').
Proof.
  intros Hm Hfwd Hk r Hr. unfold bind. rewrite <- (Hm r Hr).
  destruct (m r) as [[a r1]|e] eqn:E; [|done].
  apply Hk. pose proof (Hfwd _ _ _ E). lia.
Qed.

Lemma agree_after_readByte {A} n (k k' : Z -> Reader A) :
  (forall b, agree_below n (k b) (k' b)) ->
  agree_below (S n) (bind readByte k) (bind readByte k').
Proof.
  intros Hk r Hr. unfold bind.
  destruct (readByte r) as [[b r1]|e] eqn:E; [|done].
  apply Hk. pose proof (readByte_consumes _ _ _ E). lia.
Qed.

Lemma agree_replicateM {A} n (m m' : Reader A) count :
  agree_below n m m' -> forward_only m ->
  agree_below n (replicateM count m) (replicateM count m').
Proof.
  intros Hm Hfwd. induction count as [|count IH]; simpl.
  - apply agree_refl.
  - apply agree_bind; [done | done |]. intros a.
    apply agree_bind; [done | by apply forward_replicateM |].
    intros l. apply agree_refl.
Qed.

(** Reading from the start of a buffer. *)
Lemma parses_new {A} (m : Reader A) bs a :
  parses m bs a -> m (new bs) = Ok (a, advance (length bs) (new bs)).
Proof. intros Hm. apply (Hm _ []). by rewrite app_nil_r. Qed.

End ReaderFacts.

(** ** UTF-8 *)

Module Utf8Facts.
Import Utf8.

Local Ltac branch :=
  repeat match goal with
    | |- context [?a <? ?b] => destruct (Z.ltb_spec a b); try lia
    | |- context [?a <=? ?b] => destruct (Z.leb_spec a b); try lia
    end.

Lemma decode_encode_cp c rest :
  is_scalar c -> decode (encode_cp c ++ rest) = cons c <$> decode rest.
Proof.
  intros Hc. unfold encode_cp.
  destruct (Z.ltb_spec c 128); [|destruct (Z.ltb_spec c 2048);
    [|destruct (Z.ltb_spec c 65536)]].
  - assert (0 <= c) by (destruct Hc; lia).
    simpl. by branch.
  - assert (c = 64 * (c / 64) + c mod 64 /\ 0 <= c mod 64 < 64
            /\ 2 <= c / 64 < 32) as (E & Hr & Hq)
      by (Z.div_mod_to_equations; lia).
    revert E Hr Hq. generalize (c / 64) (c mod 64). intros q r -> Hr Hq.
    cbn [app decode]. unfold is_cont. cbv zeta.
    replace ((192 + q - 192) * 64 + (128 + r - 128)) with (64 * q + r) by lia.
    by branch.
  - assert (c = 4096 * (c / 4096) + 64 * ((c / 64) mod 64) + c mod 64
            /\ 0 <= c mod 64 < 64 /\ 0 <= (c / 64) mod 64 < 64
            /\ 0 <= c / 4096 < 16) as (E & Hr & Hq & Hp)
      by (Z.div_mod_to_equations; lia).
    revert E Hr Hq Hp Hc H0.
    generalize (c / 4096) ((c / 64) mod 64) (c mod 64).
    intros p q r -> Hr Hq Hp Hc Hlo.
    cbn [app decode]. unfold is_cont, scalarb. cbv zeta.
    replace ((224 + p - 224) * 4096 + (128 + q - 128) * 64 + (128 + r - 128))
      with (4096 * p + 64 * q + r) by lia.
    unfold is_scalar in Hc. by branch.
  - assert (c = 262144 * (c / 262144) + 4096 * ((c / 4096) mod 64)
                + 64 * ((c / 64) mod 64) + c mod 64
            /\ 0 <= c mod 64 < 64 /\ 0 <= (c / 64) mod 64 < 64
            /\ 0 <= (c / 4096) mod 64 < 64
            /\ 0 <= c / 262144 < 8) as (E & Hr & Hq & Hp & Ho)
      by (unfold is_scalar in Hc; Z.div_mod_to_equations; lia).
    revert E Hr Hq Hp Ho Hc H1.
    generalize (c / 262144) ((c / 4096) mod 64) ((c / 64) mod 64) (c mod 64).
    intros o p q r -> Hr Hq Hp Ho Hc Hlo.
    cbn [app decode]. unfold is_cont, scalarb. cbv zeta.
    replace ((240 + o - 240) * 262144 + (128 + p - 128) * 4096
             + (128 + q - 128) * 64 + (128 + r - 128))
      with (262144 * o + 4096 * p + 64 * q + r) by lia.
    unfold is_scalar in Hc. by branch.
Qed.

Lemma decode_encode s : Forall is_scalar s -> decode (encode s) = Some s.
Proof.
  induction 1 as [|c s Hc _ IH]; [done|].
  unfold encode in *. cbn [flat_map].
  by rewrite decode_encode_cp, IH.
Qed.

Lemma wf_encode_cp c : is_scalar c -> Bytes.wf_bytes (encode_cp c).
Proof.
  unfold encode_cp, is_scalar, Bytes.wf_bytes. intros Hc.
  destruct (Z.ltb_spec c 128); [|destruct (Z.ltb_spec c 2048);
    [|destruct (Z.ltb_spec c 65536)]];
    repeat (apply List.Forall_cons;
            [unfold Bytes.is_byte; Z.div_mod_to_equations; lia|]);
    apply List.Forall_nil.
Qed.

Lemma wf_encode s : Forall is_scalar s -> Bytes.wf_bytes (encode s).
Proof.
  induction 1 as [|c s Hc _ IH]; [constructor|].
  unfold encode in *. cbn [flat_map]. apply Forall_app.
  split; [by apply wf_encode_cp | done].
Qed.

End Utf8Facts.

(** ** Sorting tuple entries by key *)

Module SortFacts.
Import Bytes Clarity.

Lemma key_leb_total a b : key_leb a b = true \/ key_leb b a = true.
Proof.
  unfold key_leb. rewrite (BytesFacts.compare_antisym (Buffer_from a)).
  destruct (compare (Buffer_from a) (Buffer_from b)); simpl; auto.
Qed.

Lemma key_leb_antisym a b : key_leb a b = true -> key_leb b a = true -> a = b.
Proof.
  unfold key_leb. rewrite (BytesFacts.compare_antisym (Buffer_from a)).
  destruct (compare (Buffer_from a) (Buffer_from b)) eqn:E; simpl; try done.
  intros _ _. by apply BytesFacts.Buffer_from_inj, BytesFacts.compare_Eq.
Qed.

Lemma key_leb_trans a b c :
  key_leb a b = true -> key_leb b c = true -> key_leb a c = true.
Proof.
  unfold key_leb.
  destruct (compare (Buffer_from a) (Buffer_from b)) eqn:E1; try done;
    destruct (compare (Buffer_from b) (Buffer_from c)) eqn:E2; try done;
    intros _ _.
  - apply BytesFacts.compare_Eq in E1. by rewrite E1, E2.
  - apply BytesFacts.compare_Eq in E1. by rewrite E1, E2.
  - apply BytesFacts.compare_Eq in E2. by rewrite <- E2, E1.
  - by rewrite (BytesFacts.compare_Lt_trans _ _ _ E1 E2).
Qed.

#[global] Instance entry_le_total {V} : Total (@entry_le V).
Proof. intros x y. apply key_leb_total. Qed.

#[global] Instance entry_le_trans {V} : Transitive (@entry_le V).
Proof. intros x y z. apply key_leb_trans. Qed.

Lemma sortByKey_Permutation {V} (d : list (string * V)) : sortByKey d ≡ₚ d.
Proof. apply merge_sort_Permutation. Qed.

Lemma sortByKey_Sorted {V} (d : list (string * V)) :
  StronglySorted entry_le (sortByKey d).
Proof. apply StronglySorted_merge_sort; apply _. Qed.

Lemma length_sortByKey {V} (d : list (string * V)) :
  length (sortByKey d) = length d.
Proof. apply Permutation_length, sortByKey_Permutation. Qed.

(** Among entries with pairwise distinct keys, an entry is known by
    its key. *)
Lemma NoDup_fst_inj {V} (d : list (string * V)) x y :
  NoDup (map fst d) -> x ∈ d -> y ∈ d -> x.1 = y.1 -> x = y.
Proof.
  induction d as [|e d IH]; simpl; intros Hnd Hx Hy E.
  - by apply elem_of_nil in Hx.
  - apply NoDup_cons in Hnd as [Hne Hnd].
    apply elem_of_cons in Hx as [->|Hx], Hy as [->|Hy]; auto.
    + exfalso. apply Hne. rewrite E. by apply (list_elem_of_fmap_2 fst).
    + exfalso. apply Hne. rewrite <- E. by apply (list_elem_of_fmap_2 fst).
Qed.

(** The sorted order of entries with distinct keys does not depend on
    the order they were given in. *)
Lemma sortByKey_unique {V} (d1 d2 : list (string * V)) :
  NoDup (map fst d1) -> d1 ≡ₚ d2 -> sortByKey d1 = sortByKey d2.
Proof.
  intros Hnd Hp.
  apply (Sorted_unique_strong entry_le).
  - intros x y Hx Hy Hxy Hyx.
    apply (NoDup_fst_inj d1); [done | | |].
    + by rewrite <- (sortByKey_Permutation d1).
    + by rewrite Hp, <- (sortByKey_Permutation d2).
    + by apply key_leb_antisym.
  - apply Sorted_merge_sort; apply _.
  - apply Sorted_merge_sort; apply _.
  - by rewrite !sortByKey_Permutation.
Qed.

(** Sorting looks at keys only, so it commutes with a change of the
    values. *)
Section Fmap.
Context {V W : Type} (f : V -> W).

Let g : string * V -> string * W := fun e => (e.1, f e.2).
Let gs : list (option (list (string * V))) -> list (option (list (string * W))) :=
  fmap (M:=list) (fmap (M:=option) (fmap (M:=list) g)).

Lemma list_merge_fmap (l1 l2 : list (string * V)) :
  list_merge entry_le (g <$> l1) (g <$> l2) = g <$> list_merge entry_le l1 l2.
Proof.
  revert l2. induction l1 as [|x1 l1 IH1]; intros l2.
  - by rewrite fmap_nil, !list_merge_nil_l.
  - induction l2 as [|x2 l2 IH2].
    + by rewrite fmap_nil, !list_merge_nil_r.
    + rewrite !fmap_cons, !list_merge_cons.
      destruct (decide (entry_le (g x1) (g x2))) as [Hg|Hg],
               (decide (entry_le x1 x2)) as [Hle|Hle]; try done.
      * rewrite fmap_cons. f_equal. rewrite <- IH1. by rewrite fmap_cons.
      * rewrite fmap_cons. f_equal. rewrite <- IH2. by rewrite fmap_cons.
Qed.

Lemma merge_list_to_stack_fmap
    (st : list (option (list (string * V)))) (l : list (string * V)) :
  merge_list_to_stack entry_le (gs st) (g <$> l)
  = gs (merge_list_to_stack entry_le st l).
Proof.
  revert l. induction st as [|[l'|] st IH]; intros l; simpl; try done.
  f_equal. by rewrite list_merge_fmap, IH.
Qed.

Lemma merge_stack_fmap (st : list (option (list (string * V)))) :
  merge_stack entry_le (gs st) = g <$> merge_stack entry_le st.
Proof.
  induction st as [|[l'|] st IH]; simpl; try done.
  by rewrite IH, list_merge_fmap.
Qed.

Lemma merge_sort_aux_fmap
    (st : list (option (list (string * V)))) (l : list (string * V)) :
  merge_sort_aux entry_le (gs st) (g <$> l)
  = g <$> merge_sort_aux entry_le st l.
Proof.
  revert st. induction l as [|x l IH]; intros st; simpl.
  - apply merge_stack_fmap.
  - rewrite <- IH. f_equal.
    apply (merge_list_to_stack_fmap st [x]).
Qed.

Lemma sortByKey_fmap (d : list (string * V)) :
  sortByKey (map (fun e => (e.1, f e.2)) d)
  = map (fun e => (e.1, f e.2)) (sortByKey d).
Proof. apply (merge_sort_aux_fmap [] d). Qed.
End Fmap.

End SortFacts.

(** ** The Clarity codec *)

Module ClarityFacts.
Import Bytes BufferReader Clarity ReaderFacts SortFacts.

(** *** Tuples are written and compared in key order *)

Lemma serializeCV_tuple d :
  serializeCV (tupleCV d)
  = typeId Tuple :: toBytesBE 4 (Z.of_nat (length d))
      ++ concat (map encodeEntry (sortByKey d)).
Proof.
  cbn [serializeCV typeOf]. do 3 f_equal.
  rewrite (sortByKey_fmap serializeCV), map_map. done.
Qed.

Lemma canonical_tuple d :
  canonical (tupleCV d)
  = tupleCV (map (fun e => (e.1, canonical e.2)) (sortByKey d)).
Proof. cbn [canonical]. by rewrite (sortByKey_fmap canonical). Qed.

(** *** Integers *)

Lemma pow_256_16 : 256 ^ Z.of_nat 16 = 2 ^ 128.
Proof. reflexivity. Qed.

Lemma toSigned128_twos_complement n :
  - 2 ^ 127 <= n < 2 ^ 127 ->
  toSigned128 (fromBytesBE (toBytesBE 16 (n mod 2 ^ 128))) = n.
Proof.
  intros Hn. rewrite BytesFacts.fromBytesBE_toBytesBE, pow_256_16.
  rewrite Z.mod_mod by lia. unfold toSigned128.
  destruct (Z.ltb_spec (n mod 2 ^ 128) (2 ^ 127));
    Z.div_mod_to_equations; lia.
Qed.

Lemma fromBytesBE_uint128 n :
  0 <= n < 2 ^ 128 -> fromBytesBE (toBytesBE 16 n) = n.
Proof.
  intros. apply BytesFacts.fromBytesBE_toBytesBE_small. by rewrite pow_256_16.
Qed.

(** *** Readers of the parts of a value *)

Lemma parses_eq {A} (m : Reader A) bs a a' :
  parses m bs a -> a = a' -> parses m bs a'.
Proof. by intros ? <-. Qed.

Lemma fits_spec w n : fits w n = true -> 0 <= Z.of_nat n < 2 ^ w.
Proof. unfold fits. intros ?%Z.ltb_lt. lia. Qed.

Lemma parses_length_prefixed {A} (n : nat) (k : Z -> Reader A) bs a :
  fits 32 n = true ->
  parses (k (Z.of_nat n)) bs a ->
  parses (bind readUInt32BE k) (toBytesBE 4 (Z.of_nat n) ++ bs) a.
Proof.
  intros Hn%fits_spec Hk.
  eapply parses_bind; [by apply parses_readUInt32BE | done].
Qed.

Lemma parses_deserializeLPString s :
  fits 8 (String.length s) = true ->
  parses deserializeLPString (serializeLPString s) s.
Proof.
  intros Hs. unfold deserializeLPString, serializeLPString, readUInt8.
  change (?x :: Buffer_from s) with ([x] ++ Buffer_from s).
  eapply parses_bind; [apply parses_readByte|].
  rewrite Nat2Z.id.
  eapply parses_eq; [apply (parses_bind_ret _ string_of_bytes)|].
  - apply parses_readBuffer, BytesFacts.length_Buffer_from.
  - apply BytesFacts.string_of_bytes_Buffer_from.
Qed.

Lemma parses_deserializeAddress a :
  wf_address a = true ->
  parses deserializeAddress (serializeAddress a) a.
Proof.
  unfold wf_address. rewrite !andb_true_iff.
  intros [_ Hlen%Nat.eqb_eq].
  unfold deserializeAddress, serializeAddress.
  change (?x :: hash160 a) with ([x] ++ hash160 a).
  eapply parses_bind; [apply parses_readByte|].
  eapply parses_eq;
    [apply (parses_bind_ret _ (mkAddress (version a))), parses_readBuffer|];
    [done | by destruct a].
Qed.

Lemma parses_bind_nil {A B} (m : Reader A) (k : A -> Reader B) bs a b :
  parses m bs a -> parses (k a) [] b -> parses (bind m k) bs b.
Proof.
  intros Hm Hk. rewrite <- (app_nil_r bs). by eapply parses_bind.
Qed.

Lemma Forall2_map_same {A B C} (R : B -> C -> Prop)
    (f : A -> B) (g : A -> C) (l : list A) :
  Forall (fun x => R (f x) (g x)) l -> Forall2 R (map f l) (map g l).
Proof. induction 1; constructor; done. Qed.

Lemma list_max_ge {A} (f : A -> nat) (l : list A) x :
  x ∈ l -> (f x <= list_max (map f l))%nat.
Proof.
  unfold list_max. induction 1 as [x l|x y l _ IH]; simpl; lia.
Qed.

Lemma forallb_elem_of {A} (p : A -> bool) (l : list A) x :
  forallb p l = true -> x ∈ l -> p x = true.
Proof.
  rewrite forallb_forall. intros Hp Hx. by apply Hp, list_elem_of_In.
Qed.

Lemma scalarb_spec c : Utf8.scalarb c = true -> Utf8.is_scalar c.
Proof.
  unfold Utf8.scalarb, Utf8.is_scalar.
  rewrite orb_true_iff, !andb_true_iff, !Z.leb_le, !Z.ltb_lt. lia.
Qed.

Lemma forallb_scalarb s :
  forallb Utf8.scalarb s = true -> Forall Utf8.is_scalar s.
Proof.
  intros Hs. apply Forall_forall. intros c Hc.
  by apply scalarb_spec, (forallb_elem_of _ s).
Qed.

(** *** Decoding what was encoded *)

Local Ltac tag :=
  cbn [serializeCV typeOf deserializeCV_fuel];
  match goal with
  | |- parses _ (?t :: ?p) _ => change (t :: p) with ([t] ++ p)
  end;
  eapply parses_bind; [apply parses_readByte|];
  cbn [typeId]; simpl typeOfId; cbv iota.

Lemma parses_deserializeCV v :
  constructible v = true ->
  forall fuel, (depth v < fuel)%nat ->
  parses (deserializeCV_fuel fuel) (serializeCV v) (canonical v).
Proof.
  induction v as [n|n|b| | |a|a name|x IH|x IH| |x IH|l IH|d IH|s|s]
    using ClarityValue_nested_ind;
    intros Hc [|fuel] Hd; cbn [depth] in Hd; try lia;
    cbn [constructible] in Hc;
    rewrite ?serializeCV_tuple, ?canonical_tuple;
    cbn [canonical]; tag.
  - apply andb_true_iff in Hc as [?%Z.leb_le ?%Z.ltb_lt].
    eapply parses_eq;
      [apply (parses_bind_ret _ (fun bs => intCV (toSigned128 (fromBytesBE bs)))),
         parses_readBuffer, BytesFacts.length_toBytesBE|].
    f_equal. by apply toSigned128_twos_complement.
  - apply andb_true_iff in Hc as [?%Z.leb_le ?%Z.ltb_lt].
    eapply parses_eq;
      [apply (parses_bind_ret _ (fun bs => uintCV (fromBytesBE bs))),
         parses_readBuffer, BytesFacts.length_toBytesBE|].
    f_equal. by apply fromBytesBE_uint128.
  - apply andb_true_iff in Hc as [_ Hlen].
    apply parses_length_prefixed; [done|]. rewrite Nat2Z.id.
    by apply (parses_bind_ret _ bufferCV), parses_readBuffer.
  - apply parses_ret.
  - apply parses_ret.
  - by apply (parses_bind_ret _ standardPrincipalCV), parses_deserializeAddress.
  - apply andb_true_iff in Hc as [Ha Hname].
    eapply parses_bind; [by apply parses_deserializeAddress|].
    by apply (parses_bind_ret _ (contractPrincipalCV a)),
      parses_deserializeLPString.
  - apply (parses_bind_ret _ responseOkCV), IH; [done | lia].
  - apply (parses_bind_ret _ responseErrorCV), IH; [done | lia].
  - apply parses_ret.
  - apply (parses_bind_ret _ someCV), IH; [done | lia].
  - apply andb_true_iff in Hc as [Hlen Hall].
    apply parses_length_prefixed; [done|]. rewrite Nat2Z.id.
    apply (parses_bind_ret _ listCV).
    rewrite <- (length_map canonical l).
    apply parses_replicateM, Forall2_map_same.
    rewrite Forall_forall in IH. apply Forall_forall. intros x Hx.
    apply IH; [done | by apply (forallb_elem_of _ l) |].
    pose proof (list_max_ge depth l x Hx). lia.
  - apply andb_true_iff in Hc as [[Hlen Hnd]%andb_true_iff Hall].
    apply parses_length_prefixed; [done|]. rewrite Nat2Z.id.
    apply (parses_bind_ret _ tupleCV).
    rewrite <- (length_sortByKey d),
      <- (length_map (fun e => (e.1, canonical e.2)) (sortByKey d)).
    apply parses_replicateM, Forall2_map_same.
    rewrite Forall_forall in IH. apply Forall_forall. intros e He.
    rewrite sortByKey_Permutation in He.
    pose proof (forallb_elem_of _ d e Hall He) as [Hkey Hv]%andb_true_iff.
    unfold encodeEntry.
    eapply parses_bind; [by apply parses_deserializeLPString|].
    apply (parses_bind_ret _ (pair e.1)), IH; [done | done |].
    pose proof (list_max_ge (fun e => depth e.2) d e He). simpl in *. lia.
  - apply andb_true_iff in Hc as [Hlen Hascii].
    apply parses_length_prefixed; [done|]. rewrite Nat2Z.id.
    eapply parses_bind_nil;
      [apply parses_readBuffer, BytesFacts.length_Buffer_from|].
    rewrite Hascii, BytesFacts.string_of_bytes_Buffer_from. apply parses_ret.
  - apply andb_true_iff in Hc as [Hs%forallb_scalarb Hlen].
    apply parses_length_prefixed; [done|]. rewrite Nat2Z.id.
    eapply parses_bind_nil; [by apply parses_readBuffer|].
    rewrite Utf8Facts.decode_encode by done. apply parses_ret.
Qed.

(** *** The serializer writes bytes *)

Lemma is_byteb_spec b : is_byteb b = true -> is_byte b.
Proof.
  unfold is_byteb, is_byte. rewrite andb_true_iff, Z.leb_le, Z.ltb_lt. lia.
Qed.

Lemma forallb_is_byteb bs : forallb is_byteb bs = true -> wf_bytes bs.
Proof.
  intros Hbs. apply Forall_forall. intros b Hb.
  by apply is_byteb_spec, (forallb_elem_of _ bs).
Qed.

Lemma wf_serializeLPString s :
  fits 8 (String.length s) = true -> wf_bytes (serializeLPString s).
Proof.
  intros Hs%fits_spec. constructor; [|apply BytesFacts.wf_Buffer_from].
  unfold is_byte. lia.
Qed.

Lemma wf_serializeAddress a :
  wf_address a = true -> wf_bytes (serializeAddress a).
Proof.
  unfold wf_address. rewrite !andb_true_iff. intros [[Hv Hh] _].
  constructor; [by apply is_byteb_spec | by apply forallb_is_byteb].
Qed.

Lemma wf_concat_map {A} (f : A -> list Z) (l : list A) :
  (forall x, x ∈ l -> wf_bytes (f x)) -> wf_bytes (concat (map f l)).
Proof.
  induction l as [|y l IH]; intros Hall; simpl; [constructor|].
  apply Forall_app. split.
  - apply Hall, list_elem_of_here.
  - apply IH. intros x Hx. by apply Hall, list_elem_of_further.
Qed.

Lemma wf_serializeCV v :
  constructible v = true -> wf_bytes (serializeCV v).
Proof.
  induction v as [n|n|b| | |a|a name|x IH|x IH| |x IH|l IH|d IH|s|s]
    using ClarityValue_nested_ind;
    intros Hc; cbn [constructible] in Hc;
    rewrite ?serializeCV_tuple;
    cbn [serializeCV typeOf typeId];
    (constructor; [unfold is_byte; lia|]);
    fold (wf_bytes);
    repeat match goal with
      | |- Forall is_byte ?l => change (wf_bytes l)
      | |- wf_bytes (_ ++ _) => apply Forall_app; split
      | |- wf_bytes (toBytesBE _ _) => apply BytesFacts.wf_toBytesBE
      | |- wf_bytes [] => constructor
      end.
  - by apply forallb_is_byteb, (proj1 (andb_prop _ _ Hc)).
  - by apply wf_serializeAddress.
  - by apply wf_serializeAddress, (proj1 (andb_prop _ _ Hc)).
  - by apply wf_serializeLPString, (proj2 (andb_prop _ _ Hc)).
  - by apply IH.
  - by apply IH.
  - by apply IH.
  - apply andb_true_iff in Hc as [_ Hall].
    apply wf_concat_map. rewrite Forall_forall in IH. intros x Hx.
    apply IH; [done|]. by apply (forallb_elem_of _ l).
  - apply andb_true_iff in Hc as [_ Hall].
    apply wf_concat_map. rewrite Forall_forall in IH. intros e He.
    rewrite sortByKey_Permutation in He.
    pose proof (forallb_elem_of _ d e Hall He) as [Hkey Hv]%andb_true_iff.
    apply Forall_app. split; [by apply wf_serializeLPString | by apply IH].
  - apply BytesFacts.wf_Buffer_from.
  - apply andb_true_iff in Hc as [Hs%forallb_scalarb _].
    by apply Utf8Facts.wf_encode.
Qed.

(** *** The fuel of [deserializeCV] suffices *)

Lemma list_max_le_bound {A} (f : A -> nat) (l : list A) n :
  (forall x, x ∈ l -> (f x <= n)%nat) -> (list_max (map f l) <= n)%nat.
Proof.
  unfold list_max. induction l as [|y l IH]; intros Hall; simpl; [lia|].
  pose proof (Hall y (list_elem_of_here _ _)).
  pose proof (IH (fun x Hx => Hall x (list_elem_of_further _ _ _ Hx))). lia.
Qed.

Lemma length_concat_ge {A B} (f : A -> list B) (l : list A) x :
  x ∈ l -> (length (f x) <= length (concat (map f l)))%nat.
Proof.
  induction 1 as [x l|x y l _ IH]; simpl; rewrite length_app; lia.
Qed.

Lemma depth_lt_length v : (depth v < length (serializeCV v))%nat.
Proof.
  induction v as [n|n|b| | |a|a name|x IH|x IH| |x IH|l IH|d IH|s|s]
    using ClarityValue_nested_ind;
    rewrite ?serializeCV_tuple;
    cbn [depth serializeCV length]; try lia.
  - assert (list_max (map depth l) <= length (concat (map serializeCV l)))%nat.
    { apply list_max_le_bound. rewrite Forall_forall in IH. intros x Hx.
      pose proof (IH x Hx).
      pose proof (length_concat_ge serializeCV l x Hx). lia. }
    rewrite length_app, BytesFacts.length_toBytesBE. lia.
  - assert (list_max (map (fun e => depth e.2) d)
            <= length (concat (map encodeEntry (sortByKey d))))%nat.
    { apply list_max_le_bound. rewrite Forall_forall in IH. intros e He.
      pose proof (IH e He).
      assert (e ∈ sortByKey d) as He' by (by rewrite sortByKey_Permutation).
      pose proof (length_concat_ge encodeEntry _ e He') as Hlen.
      unfold encodeEntry at 1 in Hlen. rewrite length_app in Hlen.
      simpl in *. lia. }
    rewrite length_app, BytesFacts.length_toBytesBE. lia.
Qed.

Lemma forward_deserializeLPString : forward_only deserializeLPString.
Proof.
  apply forward_bind; [apply forward_readByte|]. intros n.
  apply forward_bind; [apply forward_readBuffer|]. intros. apply forward_ret.
Qed.

Lemma forward_deserializeAddress : forward_only deserializeAddress.
Proof.
  apply forward_bind; [apply forward_readByte|]. intros v.
  apply forward_bind; [apply forward_readBuffer|]. intros. apply forward_ret.
Qed.

Local Ltac forward :=
  repeat first
    [ apply forward_ret | apply forward_fail | apply forward_readByte
    | apply forward_readBuffer | apply forward_readUInt32BE
    | apply forward_deserializeLPString | apply forward_deserializeAddress
    | apply forward_replicateM | assumption
    | apply forward_bind; [|intros ?] ].

Lemma forward_deserializeCV_fuel fuel : forward_only (deserializeCV_fuel fuel).
Proof.
  induction fuel as [|fuel IH]; cbn [deserializeCV_fuel]; [apply forward_fail|].
  apply forward_bind; [apply forward_readByte|]. intros tag.
  destruct (typeOfId tag) as [[]|]; forward.
  - by destruct (isAscii _); forward.
  - by destruct (Utf8.decode _); forward.
Qed.

Local Ltac agree IH :=
  repeat first
    [ apply agree_refl | exact IH
    | apply agree_replicateM
    | apply forward_deserializeCV_fuel
    | apply agree_bind; [| |intros ?]
    | progress forward ].

(** More fuel than there are bytes left changes nothing: each level of
    nesting has read its tag byte before it descends. *)
Lemma deserializeCV_fuel_enough fuel fuel' :
  (fuel <= fuel')%nat ->
  agree_below fuel (deserializeCV_fuel fuel') (deserializeCV_fuel fuel).
Proof.
  revert fuel'. induction fuel as [|fuel IH]; intros fuel' Hle.
  - intros r Hr. lia.
  - destruct fuel' as [|fuel']; [lia|].
    specialize (IH fuel' ltac:(lia)).
    cbn [deserializeCV_fuel]. apply agree_after_readByte. intros tag.
    destruct (typeOfId tag) as [[]|]; agree IH.
Qed.

(** The result of [deserializeCV] is the result with any larger
    fuel. *)
Lemma deserializeCV_any_fuel bs fuel :
  (length bs < fuel)%nat ->
  deserializeCV_fuel fuel (BufferReader.new bs)
  = deserializeCV_fuel (S (length bs)) (BufferReader.new bs).
Proof.
  intros Hlt. apply deserializeCV_fuel_enough; [lia|].
  rewrite remaining_new. lia.
Qed.

(** *** Canonical values *)

Lemma sortByKey_idem {V} (d : list (string * V)) :
  NoDup (map fst d) -> sortByKey (sortByKey d) = sortByKey d.
Proof.
  intros Hnd. symmetry. apply sortByKey_unique; [done|].
  by rewrite sortByKey_Permutation.
Qed.

Lemma canonical_idem v :
  constructible v = true -> canonical (canonical v) = canonical v.
Proof.
  induction v as [n|n|b| | |a|a name|x IH|x IH| |x IH|l IH|d IH|s|s]
    using ClarityValue_nested_ind;
    intros Hc; cbn [constructible] in Hc;
    rewrite ?canonical_tuple; cbn [canonical]; try done.
  - by rewrite IH.
  - by rewrite IH.
  - by rewrite IH.
  - apply andb_true_iff in Hc as [_ Hall]. f_equal.
    rewrite map_map. apply map_ext_in. intros x Hx%list_elem_of_In.
    rewrite Forall_forall in IH. apply IH; [done|].
    by apply (forallb_elem_of _ l).
  - apply andb_true_iff in Hc as [[_ Hnd%bool_decide_eq_true]%andb_true_iff Hall].
    f_equal.
    rewrite (sortByKey_fmap canonical), sortByKey_idem by done.
    rewrite map_map. apply map_ext_in. intros e He%list_elem_of_In.
    rewrite sortByKey_Permutation in He. simpl. f_equal.
    rewrite Forall_forall in IH. apply IH; [done|].
    by pose proof (forallb_elem_of _ d e Hall He) as [_ ?]%andb_true_iff.
Qed.

(** *** Keys in byte order *)

Lemma key_leb_ne_lt a b : key_leb a b = true -> a <> b -> key_lt a b.
Proof.
  unfold key_leb, key_lt.
  destruct (Bytes.compare (Buffer_from a) (Buffer_from b)) eqn:E; try done.
  intros _ Hne. destruct Hne.
  by apply BytesFacts.Buffer_from_inj, BytesFacts.compare_Eq.
Qed.

Lemma keys_increasing {V} (d : list (string * V)) :
  NoDup (map fst d) -> StronglySorted entry_le d ->
  StronglySorted key_lt (map fst d).
Proof.
  intros Hnd Hs. induction Hs as [|x l _ IH Hx]; simpl; [constructor|].
  apply NoDup_cons in Hnd as [Hne Hnd].
  constructor; [by apply IH|].
  rewrite Forall_forall in Hx. apply Forall_forall.
  intros k (y & -> & Hy)%list_elem_of_fmap.
  apply key_leb_ne_lt; [by apply Hx|].
  intros E. apply Hne. rewrite E. by apply (list_elem_of_fmap_2 fst).
Qed.

(** *** Reading back what was written *)

Lemma deserializeCV_serializeCV v :
  constructible v = true -> deserializeCV (serializeCV v) = Ok (canonical v).
Proof.
  intros Hc. unfold deserializeCV.
  rewrite (parses_new _ _ (canonical v)); [done|].
  apply parses_deserializeCV; [done|].
  pose proof (depth_lt_length v). lia.
Qed.

End ClarityFacts.

(** ** Claims about the Clarity codec *)

Module ClarityCodec.
Import Bytes BufferReader Clarity ReaderFacts SortFacts ClarityFacts.

(** C1: for every constructible Clarity value [v], whatever its
    nesting of lists, tuples, optionals and responses, deserializing
    the serialization of [v] succeeds and returns [v] with the entries
    of every tuple in sorted key order; that value is equal to [v]
    under [cv_equal], the structural equality that compares tuples in
    canonical key order and not in insertion order. *)
Theorem serialize_deserialize_roundtrip (v : ClarityValue) :
  constructible v = true ->
  deserializeCV (serializeCV v) = Ok (canonical v)
  /\ cv_equal (canonical v) v.
Proof.
  intros Hc. split.
  - by apply deserializeCV_serializeCV.
  - by apply canonical_idem.
Qed.

(** C2: the fixed vectors of the serializer, as hex: [intCV 1],
    [intCV (-1)], [trueCV] and the buffer [de ad be ef]. *)
Theorem serialization_test_vectors :
  toHex (serializeCV (intCV 1)) = "0000000000000000000000000000000001"
  /\ toHex (serializeCV (intCV (-1))) = "00ffffffffffffffffffffffffffffffff"
  /\ toHex (serializeCV trueCV) = "03"
  /\ toHex (serializeCV (bufferCV [222; 173; 190; 239])) = "0200000004deadbeef".
Proof. repeat split; vm_compute; reflexivity. Qed.

(** C3: two tuples that hold the same entries, given in different
    orders, serialize to the same bytes, because the entries are
    written in the byte order of their keys; and the tuple read back
    from those bytes has the same keys, in strictly increasing byte
    order. *)
Theorem tuple_serialization_canonical (d1 d2 : list (string * ClarityValue)) :
  NoDup (map fst d1) ->
  d1 ≡ₚ d2 ->
  serializeCV (tupleCV d1) = serializeCV (tupleCV d2)
  /\ (constructible (tupleCV d1) = true ->
      exists d',
        deserializeCV (serializeCV (tupleCV d1)) = Ok (tupleCV d')
        /\ StronglySorted key_lt (map fst d')
        /\ map fst d' ≡ₚ map fst d1).
Proof.
  intros Hnd Hp. split.
  { rewrite !serializeCV_tuple, (sortByKey_unique d1 d2) by done.
    by rewrite (Permutation_length Hp). }
  intros Hc.
  exists (map (fun e => (e.1, canonical e.2)) (sortByKey d1)).
  assert (map fst (map (fun e => (e.1, canonical e.2)) (sortByKey d1))
          = map fst (sortByKey d1)) as Ekeys.
  { rewrite map_map. by apply map_ext. }
  assert (map fst (sortByKey d1) ≡ₚ map fst d1) as Hkeys
    by apply Permutation_map, sortByKey_Permutation.
  split; [|split].
  - rewrite <- canonical_tuple. by apply deserializeCV_serializeCV.
  - rewrite Ekeys. apply keys_increasing; [|apply sortByKey_Sorted].
    by rewrite Hkeys.
  - by rewrite Ekeys.
Qed.

End ClarityCodec.

(** ** Claims about the BNS operations *)

Module BnsFacts.
Import Bytes Clarity Bns.

Lemma ifTruthy_Some {A} z (f : string -> A) d :
  z <> "" -> ifTruthy (Some z) f d = f z.
Proof. intros Hz. unfold ifTruthy. by destruct (String.eqb_spec z ""). Qed.

Section WithImports.
Context {imports : Imports}.

Lemma isUint128_spec value : isUint128 value = true <-> 0 <= value < 2 ^ 128.
Proof. unfold isUint128. rewrite andb_true_iff, Z.leb_le, Z.ltb_lt. done. Qed.

Lemma uintCVOf_in_range value :
  0 <= value < 2 ^ 128 -> uintCVOf value = Ok (uintCV value).
Proof. intros H%isUint128_spec. unfold uintCVOf. by rewrite H. Qed.

Lemma uintCVOf_out_of_range value :
  ~ 0 <= value < 2 ^ 128 -> uintCVOf value = Err (uintRangeError value).
Proof.
  intros H. unfold uintCVOf.
  destruct (isUint128 value) eqn:E; [|done].
  by apply isUint128_spec in E.
Qed.

(** The range of [uintCVOf] is the range of the unsigned integers
    that the value model holds. *)
Lemma isUint128_constructible value :
  isUint128 value = constructible (uintCV value).
Proof. reflexivity. Qed.

Lemma getBnsContractAddress_known network a :
  getBnsContractAddress network = Ok a ->
  forall options,
    Bns.network options = network ->
    makeBnsContractCall options
    = Await (makeUnsignedContractCall {|
        tx_contractAddress := addressString a;
        tx_contractName := BNS_CONTRACT_NAME;
        tx_functionName := functionName options;
        tx_functionArgs := functionArgs options;
        tx_publicKey := publicKey options;
        tx_validateWithAbi := false;
        tx_network := network;
        tx_anchorMode := Any |}) Resolve.
Proof.
  intros Ha options <-. unfold makeBnsContractCall. by rewrite Ha.
Qed.

(** C6: the contract address depends on the chain identifier of the
    network and on nothing else: the mainnet identifier gives the
    mainnet address, the testnet identifier the testnet address,
    and with any other identifier the lookup throws, and so do the
    transaction builder and the read-only call, before they call
    out. *)
Theorem contract_address_by_chain_id (network : StacksNetwork) :
  ChainID_Mainnet <> ChainID_Testnet ->
  (chainId network = ChainID_Mainnet ->
     getBnsContractAddress network = Ok mainnet)
  /\ (chainId network = ChainID_Testnet ->
        getBnsContractAddress network = Ok testnet)
  /\ (chainId network <> ChainID_Mainnet ->
      chainId network <> ChainID_Testnet ->
      let e := Error ("Unexpected ChainID: " +:+ pretty (chainId network)) in
      getBnsContractAddress network = Err e
      /\ (forall options, Bns.network options = network ->
            makeBnsContractCall options = Reject e)
      /\ (forall options, ro_network options = network ->
            callReadOnlyBnsFunction options = Reject e))
  /\ (forall other, chainId other = chainId network ->
        getBnsContractAddress other = getBnsContractAddress network)
  /\ addressString mainnet = "SP000000000000000000002Q6VF78"
  /\ addressString testnet = "ST000000000000000000002AMW42H".
Proof.
  intros Hdistinct. unfold getBnsContractAddress.
  repeat split.
  - intros ->. by rewrite Z.eqb_refl.
  - intros ->. rewrite Z.eqb_refl.
    by destruct (Z.eqb_spec ChainID_Testnet ChainID_Mainnet).
  - by destruct (Z.eqb_spec (chainId network) ChainID_Mainnet),
      (Z.eqb_spec (chainId network) ChainID_Testnet).
  - intros options <-. unfold makeBnsContractCall, getBnsContractAddress.
    by destruct (Z.eqb_spec (chainId (Bns.network options)) ChainID_Mainnet),
      (Z.eqb_spec (chainId (Bns.network options)) ChainID_Testnet).
  - intros options <-. unfold callReadOnlyBnsFunction, getBnsContractAddress.
    by destruct (Z.eqb_spec (chainId (ro_network options)) ChainID_Mainnet),
      (Z.eqb_spec (chainId (ro_network options)) ChainID_Testnet).
  - by intros other ->.
Qed.

(** C4: the first argument of a preorder is the buffer
    [ripemd160 (sha256 (identifier bytes ++ salt bytes))], for the
    namespace preorder with the namespace as identifier and for the
    name preorder with the fully qualified name; the amount, the
    key and the network have no part in it, so equal identifier and
    salt give equal commitments. The preorder is made when the amount
    is an unsigned integer of 128 bits, on a known chain from a
    request with that commitment as its first argument; with any
    other amount [uintCV] throws and nothing is made. *)
Theorem preorder_commitment_hash160 :
  (forall namespace salt stxToBurn publicKey network,
     0 <= stxToBurn < 2 ^ 128 ->
     buildPreorderNamespaceTx namespace salt stxToBurn publicKey network
     = makeBnsContractCall {|
         functionName := "namespace-preorder";
         functionArgs :=
           [bufferCV (ripemd160 (sha256 (Buffer_from namespace
                                           ++ Buffer_from salt)));
            uintCV stxToBurn];
         publicKey := publicKey;
         network := network;
         attachment := None |})
  /\ (forall fullyQualifiedName salt stxToBurn publicKey network,
        truthy (subdomain (decodeFQN fullyQualifiedName)) = false ->
        0 <= stxToBurn < 2 ^ 128 ->
        buildPreorderNameTx fullyQualifiedName salt stxToBurn publicKey network
        = makeBnsContractCall {|
            functionName := "name-preorder";
            functionArgs :=
              [bufferCV (ripemd160 (sha256 (Buffer_from fullyQualifiedName
                                              ++ Buffer_from salt)));
               uintCV stxToBurn];
            publicKey := publicKey;
            network := network;
            attachment := None |})
  /\ (forall env namespace salt stxToBurn publicKey network a,
        getBnsContractAddress network = Ok a ->
        0 <= stxToBurn < 2 ^ 128 ->
        exists request,
          settle env (buildPreorderNamespaceTx namespace salt stxToBurn
                        publicKey network)
          = Ok (unsignedCall env request)
          /\ tx_functionArgs request
             = [bufferCV (ripemd160 (sha256 (Buffer_from namespace
                                              ++ Buffer_from salt)));
                uintCV stxToBurn])
  /\ (forall env fullyQualifiedName salt stxToBurn publicKey network a,
        truthy (subdomain (decodeFQN fullyQualifiedName)) = false ->
        getBnsContractAddress network = Ok a ->
        0 <= stxToBurn < 2 ^ 128 ->
        exists request,
          settle env (buildPreorderNameTx fullyQualifiedName salt stxToBurn
                        publicKey network)
          = Ok (unsignedCall env request)
          /\ tx_functionArgs request
             = [bufferCV (ripemd160 (sha256 (Buffer_from fullyQualifiedName
                                              ++ Buffer_from salt)));
                uintCV stxToBurn])
  /\ (forall namespace salt stxToBurn publicKey network,
        ~ 0 <= stxToBurn < 2 ^ 128 ->
        buildPreorderNamespaceTx namespace salt stxToBurn publicKey network
        = Reject (uintRangeError stxToBurn))
  /\ (forall fullyQualifiedName salt stxToBurn publicKey network,
        truthy (subdomain (decodeFQN fullyQualifiedName)) = false ->
        ~ 0 <= stxToBurn < 2 ^ 128 ->
        buildPreorderNameTx fullyQualifiedName salt stxToBurn publicKey network
        = Reject (uintRangeError stxToBurn)).
Proof.
  split; [|split; [|split; [|split; [|split]]]].
  - intros ns salt stx pk net Hstx. unfold buildPreorderNamespaceTx, hash160.
    by rewrite uintCVOf_in_range, BytesFacts.Buffer_from_app.
  - intros fqn salt stx pk net Hsub Hstx.
    unfold buildPreorderNameTx, hash160.
    by rewrite Hsub, uintCVOf_in_range, BytesFacts.Buffer_from_app.
  - intros env ns salt stx pk net a Ha Hstx.
    unfold buildPreorderNamespaceTx, hash160.
    rewrite uintCVOf_in_range, BytesFacts.Buffer_from_app by done.
    erewrite getBnsContractAddress_known; [|done..].
    by eexists.
  - intros env fqn salt stx pk net a Hsub Ha Hstx.
    unfold buildPreorderNameTx, hash160.
    rewrite Hsub, uintCVOf_in_range, BytesFacts.Buffer_from_app by done.
    erewrite getBnsContractAddress_known; [|done..].
    by eexists.
  - intros ns salt stx pk net Hstx. unfold buildPreorderNamespaceTx.
    by rewrite uintCVOf_out_of_range.
  - intros fqn salt stx pk net Hsub Hstx. unfold buildPreorderNameTx.
    by rewrite Hsub, uintCVOf_out_of_range.
Qed.

(** C5: each operation that takes a fully qualified name throws
    when [decodeFQN] finds a subdomain in it, and does so at once:
    the promise is rejected without any call having been made. *)
Theorem subdomain_rejected_first (fullyQualifiedName : string) :
  truthy (subdomain (decodeFQN fullyQualifiedName)) = true ->
  (forall salt stxToBurn publicKey network,
     buildPreorderNameTx fullyQualifiedName salt stxToBurn publicKey network
     = Reject (Error "Cannot preorder a subdomain using preorderName()"))
  /\ (forall salt zonefile publicKey network,
        buildRegisterNameTx fullyQualifiedName salt zonefile publicKey network
        = Reject (Error "Cannot register a subdomain using registerName()"))
  /\ (forall zonefile publicKey network,
        buildUpdateNameTx fullyQualifiedName zonefile publicKey network
        = Reject (Error "Cannot update a subdomain using updateName()"))
  /\ (forall newOwnerAddress zonefile publicKey network,
        buildTransferNameTx fullyQualifiedName newOwnerAddress zonefile
          publicKey network
        = Reject (Error "Cannot transfer a subdomain using transferName()"))
  /\ (forall publicKey network,
        buildRevokeNameTx fullyQualifiedName publicKey network
        = Reject (Error "Cannot revoke a subdomain using revokeName()"))
  /\ (forall stxToBurn newOwnerAddress zonefile publicKey network,
        buildRenewNameTx fullyQualifiedName stxToBurn newOwnerAddress zonefile
          publicKey network
        = Reject (Error "Cannot renew a subdomain using renewName()"))
  /\ (forall network,
        canRegisterName fullyQualifiedName network
        = Reject (Error "Cannot register a subdomain using registerName"))
  /\ (forall network,
        getNamePrice fullyQualifiedName network
        = Reject (Error "Cannot get subdomain name price")).
Proof.
  intros Hsub.
  unfold buildPreorderNameTx, buildRegisterNameTx, buildUpdateNameTx,
    buildTransferNameTx, buildRevokeNameTx, buildRenewNameTx,
    canRegisterName, getNamePrice.
  rewrite Hsub. repeat split.
Qed.

(** The guard is on the truth value of the subdomain: a name for
    which [decodeFQN] reports an empty subdomain passes it. *)
Lemma empty_subdomain_passes_guard (fullyQualifiedName : string)
    (publicKey : string) (network : StacksNetwork) :
  subdomain (decodeFQN fullyQualifiedName) = Some "" ->
  buildRevokeNameTx fullyQualifiedName publicKey network
  = makeBnsContractCall {|
      functionName := "name-revoke";
      functionArgs :=
        [bufferCVFromString (namespace (decodeFQN fullyQualifiedName));
         bufferCVFromString (name (decodeFQN fullyQualifiedName))];
      publicKey := publicKey;
      network := network;
      attachment := None |}.
Proof. intros Hsub. unfold buildRevokeNameTx. by rewrite Hsub. Qed.

(** C7, as amended: when the endpoint answers a price query with an
    error response, [getNamespacePrice] and [getNamePrice] reject
    with the rendering of the error value as message;
    [canRegisterName] resolves to [false]. *)
Theorem error_response_of_queries (env : Remote) (e : ClarityValue)
    (network : StacksNetwork) (a : BnsContractAddress) :
  (forall options, readOnly env options = responseErrorCV e) ->
  getBnsContractAddress network = Ok a ->
  (forall namespace,
     settle env (getNamespacePrice namespace network)
     = Err (Error (cvToString e)))
  /\ (forall fullyQualifiedName,
        truthy (subdomain (decodeFQN fullyQualifiedName)) = false ->
        settle env (getNamePrice fullyQualifiedName network)
        = Err (Error (cvToString e)))
  /\ (forall fullyQualifiedName,
        truthy (subdomain (decodeFQN fullyQualifiedName)) = false ->
        settle env (canRegisterName fullyQualifiedName network) = Ok false).
Proof.
  intros Henv Ha. repeat split.
  - intros ns. unfold getNamespacePrice, withRandomAddress,
      callReadOnlyBnsFunction.
    cbn [ro_network]. rewrite Ha. cbn. by rewrite Henv.
  - intros fqn Hsub. unfold getNamePrice, withRandomAddress,
      callReadOnlyBnsFunction.
    cbn [ro_network]. rewrite Hsub, Ha. cbn. by rewrite Henv.
  - intros fqn Hsub. unfold canRegisterName, withRandomAddress,
      callReadOnlyBnsFunction.
    cbn [ro_network]. rewrite Hsub, Ha. cbn. by rewrite Henv.
Qed.


End WithImports.
End BnsFacts.

(** ** Claims about the session store *)

Module SessionStoreFacts.
Import SessionStore.

Section WithImports.
Context {imports : Imports}.


(** An invariant of the store that every admitted method keeps,
    given that the callback keeps it, is kept by every callback that
    calls admitted methods only. *)
Lemma run_keeps (P : InstanceDataStore -> Prop) (admitted : method -> bool) :
  (forall called m this,
     admitted m = true ->
     (forall this', P this' -> P (stateOf (called this'))) ->
     P this -> P (stateOf (invokeWith called m this))) ->
  forall b this,
    forallb admitted (calledMethods b) = true ->
    P this -> P (stateOf (run b this)).
Proof.
  intros Hstep.
  induction b as [|e|m during IHduring next IHnext]; intros this Hb HP;
    [done..|].
  cbn [calledMethods forallb] in Hb. rewrite forallb_app in Hb.
  apply andb_true_iff in Hb as [Hm [Hduring Hnext]%andb_true_iff].
  cbn [run]. apply IHnext; [done|].
  apply Hstep; [done| |done].
  intros this' HP'. by apply IHduring.
Qed.

Lemma invoke_keeps (P : InstanceDataStore -> Prop) (admitted : method -> bool) :
  (forall called m this,
     admitted m = true ->
     (forall this', P this' -> P (stateOf (called this'))) ->
     P this -> P (stateOf (invokeWith called m this))) ->
  forall m during this,
    forallb admitted (m :: calledMethods during) = true ->
    P this -> P (stateOf (invoke m during this)).
Proof.
  intros Hstep m during this [Hm Hduring]%andb_true_iff HP.
  apply Hstep; [done| |done].
  intros this' HP'. by apply (run_keeps P admitted).
Qed.

Lemma setSessionData_keeps (P : InstanceDataStore -> Prop) called session this :
  (forall this', P this' -> P (stateOf (called this'))) ->
  (forall callback event,
     identityChangeCallback this = Some callback ->
     oldIdentity event = lastUpdatedIdentity this ->
     newIdentity event = currentIdentityOf session ->
     identity_eqb (oldIdentity event) (newIdentity event) = false ->
     P {| sessionData := session;
          identityChangeCallback := identityChangeCallback this;
          lastUpdatedIdentity := lastUpdatedIdentity this;
          notified := (callback, event) :: notified this |}) ->
  (forall this',
     P this' ->
     P {| sessionData := sessionData this';
          identityChangeCallback := identityChangeCallback this';
          lastUpdatedIdentity := currentIdentityOf session;
          notified := notified this' |}) ->
  P {| sessionData := session;
       identityChangeCallback := identityChangeCallback this;
       lastUpdatedIdentity := currentIdentityOf session;
       notified := notified this |} ->
  P (stateOf (setSessionData called session this)).
Proof.
  intros Hcalled Hbefore Hafter Hquiet.
  unfold setSessionData, hasIdentityChangeCallback. cbn [identityChangeCallback
    lastUpdatedIdentity notified sessionData].
  destruct (identityChangeCallback this) as [callback|] eqn:Hcb;
    cbn [andb]; [|done].
  destruct (identity_eqb (lastUpdatedIdentity this) (currentIdentityOf session))
    eqn:Heq; cbn [negb]; [done|].
  match goal with
  | |- context [called ?before] =>
      assert (P before) as Hb by (by apply Hbefore);
      specialize (Hcalled _ Hb); destruct (called before) as [[] this'|e this']
  end; cbn [stateOf] in *; [by apply Hafter | done].
Qed.




End WithImports.
End SessionStoreFacts.

(** ** Claims about profile zone files *)

Module ProfileZoneFilesFacts.
Import ProfileZoneFiles.

Lemma prefix_https_http t :
  String.prefix "https" t = true -> String.prefix "http" t = true.
Proof.
  destruct t as [|c1 [|c2 [|c3 [|c4 t]]]]; cbn [String.prefix]; try done;
    repeat match goal with
      | |- context [ascii_dec ?a ?b] => destruct (ascii_dec a b); try done
      end.
  intros _. by destruct t.
Qed.

Lemma hasOwnProperty_methods v key :
  hasMethods v = true ->
  hasOwnProperty v key
  = Ok (match v with
        | JObject fields =>
            match lookup key fields with Some _ => true | None => false end
        | JString s => isIndexOrLength key (String.length s)
        | JArray items => isIndexOrLength key (length items)
        | _ => false
        end).
Proof.
  destruct v as [| | | | | |fields]; simpl; try done.
  by destruct (lookup "hasOwnProperty" fields).
Qed.

Lemma scheme_cases t :
  (if String.prefix "https" t then Ok (Some t)
   else if String.prefix "http" t then Ok (Some t)
   else Ok (Some ("https://" +:+ t)))
  = (Ok (Some (withScheme t)) : result JsError (option string)).
Proof.
  unfold withScheme.
  destruct (String.prefix "https" t) eqn:E.
  - by rewrite (prefix_https_http t E).
  - by destruct (String.prefix "http" t).
Qed.

(** The result on a zone file of the expected shape, by the cases of
    its [uri]. *)
Lemma getTokenFileUrl_cases z :
  zoneFileShape z = true ->
  match firstUriRecord z with
  | Some record =>
      match ownProperty record "target" with
      | Some (JString t) => getTokenFileUrl z = Ok (Some (withScheme t))
      | Some _ => False
      | None => getTokenFileUrl z = Ok None
      end
  | None => getTokenFileUrl z = Ok None
  end.
Proof.
  unfold zoneFileShape. intros [Hz Hshape]%andb_true_iff.
  unfold getTokenFileUrl. rewrite (hasOwnProperty_methods z "uri" Hz).
  destruct z as [| | | | | |fields]; try done.
  unfold firstUriRecord in *. cbn [ownProperty getField] in *.
  destruct (lookup "uri" fields) as [[| | | | |[|record items]|]|]; try done.
  apply andb_true_iff in Hshape as [Hr Htarget].
  rewrite (hasOwnProperty_methods record "target" Hr).
  destruct record as [| | | | | |rfields]; try done.
  cbn [ownProperty getField] in *.
  destruct (lookup "target" rfields) as [[| | | |t| |]|]; try done.
  by rewrite scheme_cases.
Qed.

Lemma noTokenFileUrl_cases z :
  noTokenFileUrl z
  <-> match firstUriRecord z with
      | Some record => ownProperty record "target" = None
      | None => True
      end.
Proof.
  unfold noTokenFileUrl, firstUriRecord.
  destruct (ownProperty z "uri") as [[| | | | |[|record items]|]|];
    split; try done; eauto 6.
  intros [?|[(u & [= <-] & ?)|[?|(r & [= <-] & ?)]]]; done.
Qed.

(** C9: on a parsed zone file, [getTokenFileUrl] returns [null]
    exactly when there is no [uri] property, the [uri] is not an
    array, the array is empty, or its first record has no [target];
    in every other case the first record has a target string, and the
    result is that string, with [https://] before it unless it
    starts with [http]. *)
Theorem token_file_url_of_zone_file (zoneFileJson : JsValue) :
  zoneFileShape zoneFileJson = true ->
  (getTokenFileUrl zoneFileJson = Ok None <-> noTokenFileUrl zoneFileJson)
  /\ (~ noTokenFileUrl zoneFileJson ->
      exists record target,
        firstUriRecord zoneFileJson = Some record
        /\ ownProperty record "target" = Some (JString target)
        /\ getTokenFileUrl zoneFileJson
           = Ok (Some (if String.prefix "http" target then target
                       else "https://" +:+ target))).
Proof.
  intros Hshape. pose proof (getTokenFileUrl_cases _ Hshape) as Hcases.
  rewrite noTokenFileUrl_cases.
  destruct (firstUriRecord zoneFileJson) as [record|].
  - destruct (ownProperty record "target") as [target|] eqn:Htarget.
    + destruct target as [| | | |t| |]; try contradiction.
      split; [rewrite Hcases; split; intros [=]|].
      intros _. exists record, t. by rewrite Hcases.
    + split; [done|]. by intros [].
  - split; [done|]. by intros [].
Qed.

End ProfileZoneFilesFacts.

(** ** The claims on concrete inputs *)

Module Witnesses.
Import Bytes BufferReader Clarity.

Lemma serialize_deserialize_roundtrip_witness :
  constructible sampleNested = true
  /\ deserializeCV (serializeCV sampleNested) = Ok (canonical sampleNested)
  /\ cv_equal (canonical sampleNested) sampleNested.
Proof.
  split; [reflexivity|].
  apply (ClarityCodec.serialize_deserialize_roundtrip sampleNested).
  reflexivity.
Defined.

Lemma tuple_serialization_canonical_witness :
  NoDup (map fst sampleEntries)
  /\ sampleEntries ≡ₚ sampleEntriesSorted
  /\ constructible (tupleCV sampleEntries) = true
  /\ serializeCV (tupleCV sampleEntries) = serializeCV (tupleCV sampleEntriesSorted)
  /\ exists d',
       deserializeCV (serializeCV (tupleCV sampleEntries)) = Ok (tupleCV d')
       /\ StronglySorted key_lt (map fst d')
       /\ map fst d' ≡ₚ map fst sampleEntries.
Proof.
  assert (NoDup (map fst sampleEntries)) as Hnd
    by (apply (bool_decide_unpack (NoDup (map fst sampleEntries)));
        vm_compute; exact I).
  assert (sampleEntries ≡ₚ sampleEntriesSorted) as Hp by apply perm_swap.
  destruct (ClarityCodec.tuple_serialization_canonical
              sampleEntries sampleEntriesSorted Hnd Hp) as [Hbytes Hkeys].
  split; [exact Hnd|]. split; [exact Hp|]. split; [reflexivity|].
  split; [exact Hbytes|]. apply Hkeys. reflexivity.
Defined.

Section Bns.
Import Bns.
Existing Instance testImports.

Lemma contract_address_by_chain_id_witness :
  (1 : Z) <> 2147483648
  /\ getBnsContractAddress testMainnet = Ok mainnet
  /\ getBnsContractAddress testTestnet = Ok testnet
  /\ getBnsContractAddress testUnknownNet
     = Err (Error "Unexpected ChainID: 7").
Proof.
  assert (@ChainID_Mainnet testImports <> @ChainID_Testnet testImports)
    as Hdistinct by (simpl; lia).
  split; [exact Hdistinct|].
  split; [|split].
  - apply (BnsFacts.contract_address_by_chain_id testMainnet Hdistinct).
    reflexivity.
  - apply (BnsFacts.contract_address_by_chain_id testTestnet Hdistinct).
    reflexivity.
  - apply (BnsFacts.contract_address_by_chain_id testUnknownNet Hdistinct);
      simpl; lia.
Defined.

Lemma preorder_commitment_hash160_witness :
  truthy (subdomain (decodeFQN "alice.id")) = false
  /\ 0 <= 100 < 2 ^ 128
  /\ buildPreorderNameTx "alice.id" "salt" 100 "pk" testMainnet
     = makeBnsContractCall {|
         functionName := "name-preorder";
         functionArgs :=
           [bufferCV (ripemd160 (sha256 (Buffer_from "alice.id"
                                           ++ Buffer_from "salt")));
            uintCV 100];
         publicKey := "pk";
         network := testMainnet;
         attachment := None |}.
Proof.
  assert (0 <= 100 < 2 ^ 128) as Hstx by lia.
  split; [reflexivity|]. split; [exact Hstx|].
  apply (proj1 (proj2 BnsFacts.preorder_commitment_hash160));
    [reflexivity | exact Hstx].
Defined.

Lemma subdomain_rejected_first_witness :
  truthy (subdomain (decodeFQN "www.alice.id")) = true
  /\ buildRegisterNameTx "www.alice.id" "salt" "zonefile" "pk" testMainnet
     = Reject (Error "Cannot register a subdomain using registerName()")
  /\ getNamePrice "www.alice.id" testMainnet
     = Reject (Error "Cannot get subdomain name price").
Proof.
  assert (truthy (subdomain (decodeFQN "www.alice.id")) = true) as Hsub
    by reflexivity.
  pose proof (BnsFacts.subdomain_rejected_first "www.alice.id" Hsub)
    as (_ & Hregister & _ & _ & _ & _ & _ & Hprice).
  split; [exact Hsub|]. split; [apply Hregister | apply Hprice].
Defined.

Lemma error_response_of_queries_witness :
  (forall options,
     readOnly (testRemote (responseErrorCV (uintCV 1001))) options
     = responseErrorCV (uintCV 1001))
  /\ getBnsContractAddress testMainnet = Ok mainnet
  /\ settle (testRemote (responseErrorCV (uintCV 1001)))
       (getNamespacePrice "id" testMainnet)
     = Err (Error "u1001")
  /\ settle (testRemote (responseErrorCV (uintCV 1001)))
       (getNamePrice "alice.id" testMainnet)
     = Err (Error "u1001").
Proof.
  pose proof (BnsFacts.error_response_of_queries
                (testRemote (responseErrorCV (uintCV 1001)))
                (uintCV 1001) testMainnet mainnet
                (fun _ => eq_refl) eq_refl) as (Hns & Hname & _).
  split; [reflexivity|]. split; [reflexivity|].
  split; [apply Hns | apply Hname; reflexivity].
Defined.

(** C7 as stated fails for [canRegisterName]: on an error response
    it resolves to [false]; no error reaches the caller. *)
Lemma canRegisterName_error_response_counterexample :
  readOnly (testRemote (responseErrorCV (uintCV 1001)))
    = (fun _ => responseErrorCV (uintCV 1001))
  /\ settle (testRemote (responseErrorCV (uintCV 1001)))
       (canRegisterName "alice.id" testMainnet)
     = Ok false
  /\ settle (testRemote (responseErrorCV (uintCV 1001)))
       (canRegisterName "alice.id" testMainnet)
     <> Err (Error (cvToString (uintCV 1001))).
Proof. split; [reflexivity|]. split; [reflexivity | discriminate]. Qed.



End Bns.

Section SessionStore.
Import SessionStore.
Existing Instance testImports.



End SessionStore.

Section ProfileZoneFiles.
Import ProfileZoneFiles.

Lemma token_file_url_of_zone_file_witness :
  zoneFileShape sampleZoneFile = true
  /\ (getTokenFileUrl sampleZoneFile = Ok None <-> noTokenFileUrl sampleZoneFile)
  /\ getTokenFileUrl sampleZoneFile
     = Ok (Some "https://gaia.blockstack.org/hub/1abc/profile.json").
Proof.
  split; [reflexivity|].
  split; [|reflexivity].
  apply (ProfileZoneFilesFacts.token_file_url_of_zone_file sampleZoneFile).
  reflexivity.
Defined.

End ProfileZoneFiles.
End Witnesses.

(** ** The calls of the BNS operations *)

Module BnsCallFacts.
Import Bytes Clarity Bns BnsNamespace BnsCalls.

Section WithImports.
Context {imports : Imports} {principals : PrincipalImports}.

Lemma uintCVsOf_in_range values :
  forallb isUint128 values = true -> uintCVsOf values = Ok (map uintCV values).
Proof.
  induction values as [|value values IH]; [done|].
  intros [Hvalue Hvalues]%andb_true_iff. cbn [uintCVsOf map].
  unfold uintCVOf. by rewrite Hvalue, IH.
Qed.

Lemma uintCVsOf_out_of_range values :
  forallb isUint128 values = false -> exists e, uintCVsOf values = Err e.
Proof.
  induction values as [|value values IH]; [done|].
  cbn [forallb uintCVsOf]. unfold uintCVOf.
  destruct (isUint128 value); [|by eexists].
  intros [e ->]%IH. by eexists.
Qed.

Lemma oneContractCall_makeBnsContractCall env options :
  oneContractCall env (functionName options) (publicKey options)
    (network options) true (makeBnsContractCall options).
Proof.
  unfold oneContractCall, knownChain, makeBnsContractCall. cbn [andb].
  destruct (getBnsContractAddress (network options)) as [a|e].
  - eexists a, _. split; [done|]. split; [done|]. done.
  - by exists e.
Qed.

Lemma oneContractCall_Reject env functionName publicKey network e :
  oneContractCall env functionName publicKey network false (Reject e).
Proof. unfold oneContractCall. cbn [andb]. by exists e. Qed.

Local Ltac one_call env :=
  first [ apply oneContractCall_Reject
        | exact (oneContractCall_makeBnsContractCall env _) ].

(** X1: the ten builders leave the file at most once, and it is decided
    by their input whether they do. A builder rejects without any
    call when the name has a subdomain, when an amount, an integer of
    the price function or the lifetime is no unsigned integer of 128
    bits, when the text of a principal is no address, or when the
    chain is unknown. In every other case it makes one call, of
    [makeUnsignedContractCall], and resolves to its answer; the
    request names the BNS contract [bns] at the address of the chain,
    the function of the operation, the public key and the network of
    the caller, no validation against the interface of the contract,
    and the anchor mode [Any]. No builder draws a random key or makes
    a read-only call. *)
Theorem builders_make_one_contract_call env publicKey network :
  (forall namespace salt stxToBurn,
     oneContractCall env "namespace-preorder" publicKey network
       (isUint128 stxToBurn)
       (buildPreorderNamespaceTx namespace salt stxToBurn publicKey network))
  /\ (forall namespace salt priceFunction lifetime namespaceImportAddress,
        oneContractCall env "namespace-reveal" publicKey network
          (forallb isUint128 (revealIntegers priceFunction lifetime)
           && isAddress namespaceImportAddress)
          (buildRevealNamespaceTx namespace salt priceFunction lifetime
             namespaceImportAddress publicKey network))
  /\ (forall namespace name beneficiary zonefile,
        oneContractCall env "name-import" publicKey network
          (isAddress beneficiary)
          (buildImportNameTx namespace name beneficiary zonefile
             publicKey network))
  /\ (forall namespace,
        oneContractCall env "namespace-ready" publicKey network true
          (buildReadyNamespaceTx namespace publicKey network))
  /\ (forall fullyQualifiedName salt stxToBurn,
        oneContractCall env "name-preorder" publicKey network
          (negb (truthy (subdomain (decodeFQN fullyQualifiedName)))
           && isUint128 stxToBurn)
          (buildPreorderNameTx fullyQualifiedName salt stxToBurn
             publicKey network))
  /\ (forall fullyQualifiedName salt zonefile,
        oneContractCall env "name-register" publicKey network
          (negb (truthy (subdomain (decodeFQN fullyQualifiedName))))
          (buildRegisterNameTx fullyQualifiedName salt zonefile
             publicKey network))
  /\ (forall fullyQualifiedName zonefile,
        oneContractCall env "name-update" publicKey network
          (negb (truthy (subdomain (decodeFQN fullyQualifiedName))))
          (buildUpdateNameTx fullyQualifiedName zonefile publicKey network))
  /\ (forall fullyQualifiedName newOwnerAddress zonefile,
        oneContractCall env "name-transfer" publicKey network
          (negb (truthy (subdomain (decodeFQN fullyQualifiedName))))
          (buildTransferNameTx fullyQualifiedName newOwnerAddress zonefile
             publicKey network))
  /\ (forall fullyQualifiedName,
        oneContractCall env "name-revoke" publicKey network
          (negb (truthy (subdomain (decodeFQN fullyQualifiedName))))
          (buildRevokeNameTx fullyQualifiedName publicKey network))
  /\ (forall fullyQualifiedName stxToBurn newOwnerAddress zonefile,
        oneContractCall env "name-renewal" publicKey network
          (negb (truthy (subdomain (decodeFQN fullyQualifiedName)))
           && isUint128 stxToBurn)
          (buildRenewNameTx fullyQualifiedName stxToBurn newOwnerAddress
             zonefile publicKey network)).
Proof.
  repeat split; intros.
  - unfold buildPreorderNamespaceTx, uintCVOf.
    destruct (isUint128 stxToBurn); one_call env.
  - unfold buildRevealNamespaceTx, isAddress.
    destruct (forallb isUint128 (revealIntegers priceFunction lifetime))
      eqn:Hintegers.
    + rewrite uintCVsOf_in_range by done.
      destruct (standardPrincipalCV namespaceImportAddress); one_call env.
    + destruct (uintCVsOf_out_of_range _ Hintegers) as [e ->]. one_call env.
  - unfold buildImportNameTx, isAddress.
    destruct (standardPrincipalCV beneficiary); one_call env.
  - one_call env.
  - unfold buildPreorderNameTx, uintCVOf.
    destruct (truthy (subdomain (decodeFQN fullyQualifiedName)));
      [one_call env|].
    destruct (isUint128 stxToBurn); one_call env.
  - unfold buildRegisterNameTx.
    destruct (truthy (subdomain (decodeFQN fullyQualifiedName))); one_call env.
  - unfold buildUpdateNameTx.
    destruct (truthy (subdomain (decodeFQN fullyQualifiedName))); one_call env.
  - unfold buildTransferNameTx.
    destruct (truthy (subdomain (decodeFQN fullyQualifiedName))); one_call env.
  - unfold buildRevokeNameTx.
    destruct (truthy (subdomain (decodeFQN fullyQualifiedName))); one_call env.
  - unfold buildRenewNameTx, renewNameCall, uintCVOf.
    destruct (truthy (subdomain (decodeFQN fullyQualifiedName)));
      [one_call env|].
    destruct (isUint128 stxToBurn); one_call env.
Qed.

(** What a query does once the name has passed its check: the
    random key, then the chain, then the one read-only call, whose
    answer [k] turns into the result without a further call. *)
Lemma calls_query {A} env functionName functionArgs network
    (k : ClarityValue -> Promise A) :
  (forall responseCV, calls env (k responseCV) = []) ->
  oneReadOnlyCall env functionName functionArgs network
    (withRandomAddress (fun randomAddress =>
       andThen (callReadOnlyBnsFunction {|
         ro_functionName := functionName;
         ro_senderAddress := randomAddress;
         ro_functionArgs := functionArgs;
         ro_network := network |}) k)).
Proof.
  intros Hk. unfold oneReadOnlyCall, withRandomAddress, callReadOnlyBnsFunction.
  simpl. destruct (getBnsContractAddress network) as [a|e]; simpl.
  - by rewrite Hk.
  - done.
Qed.

Lemma settle_query {A} env functionName functionArgs network a
    (k : ClarityValue -> Promise A) :
  getBnsContractAddress network = Ok a ->
  settle env
    (withRandomAddress (fun randomAddress =>
       andThen (callReadOnlyBnsFunction {|
         ro_functionName := functionName;
         ro_senderAddress := randomAddress;
         ro_functionArgs := functionArgs;
         ro_network := network |}) k))
  = settle env
      (k (readOnly env
            (queryRequest env a functionName functionArgs network))).
Proof.
  intros Ha. unfold withRandomAddress, callReadOnlyBnsFunction. simpl.
  by rewrite Ha.
Qed.

(** X2: the three queries never build a transaction. A query for a
    subdomain rejects before any call. Otherwise the query first
    draws a random key; on an unknown chain it then rejects, the key
    drawn and the node never asked; on a known chain it makes one
    read-only call, to its function of the contract [bns] at the
    address of the chain, with the buffers of the namespace and of the
    name as arguments and the address of the random key as sender. *)
Theorem queries_make_one_read_only_call env network :
  (forall fullyQualifiedName,
     let fqn := decodeFQN fullyQualifiedName in
     if truthy (subdomain fqn)
     then calls env (canRegisterName fullyQualifiedName network) = []
     else oneReadOnlyCall env "can-name-be-registered"
            [bufferCVFromString (namespace fqn); bufferCVFromString (name fqn)]
            network (canRegisterName fullyQualifiedName network))
  /\ (forall namespace,
        oneReadOnlyCall env "get-namespace-price"
          [bufferCVFromString namespace] network
          (getNamespacePrice namespace network))
  /\ (forall fullyQualifiedName,
        let fqn := decodeFQN fullyQualifiedName in
        if truthy (subdomain fqn)
        then calls env (getNamePrice fullyQualifiedName network) = []
        else oneReadOnlyCall env "get-name-price"
               [bufferCVFromString (namespace fqn);
                bufferCVFromString (name fqn)]
               network (getNamePrice fullyQualifiedName network)).
Proof.
  split; [|split].
  - intros fullyQualifiedName fqn. unfold canRegisterName. fold fqn.
    destruct (truthy (subdomain fqn)); [done|].
    apply calls_query. by intros [].
  - intros namespace. unfold getNamespacePrice.
    apply calls_query. intros [| | | | | | |[]| | | | | | |]; done.
  - intros fullyQualifiedName fqn. unfold getNamePrice. fold fqn.
    destruct (truthy (subdomain fqn)); [done|].
    apply calls_query. intros [| | | | | | |[]| | | | | | |]; done.
Qed.

(** X3: [canRegisterName] on a name without subdomain and a known chain
    always resolves, and it resolves to [true] exactly when the node
    answers [(ok true)]: every other answer, an error response
    included, gives [false]. *)
Theorem can_register_iff_ok_true env fullyQualifiedName network a :
  truthy (subdomain (decodeFQN fullyQualifiedName)) = false ->
  getBnsContractAddress network = Ok a ->
  let fqn := decodeFQN fullyQualifiedName in
  let responseCV :=
    readOnly env
      (queryRequest env a "can-name-be-registered"
         [bufferCVFromString (namespace fqn); bufferCVFromString (name fqn)]
         network) in
  (exists available,
     settle env (canRegisterName fullyQualifiedName network) = Ok available)
  /\ (settle env (canRegisterName fullyQualifiedName network) = Ok true
      <-> responseCV = responseOkCV trueCV).
Proof.
  intros Hsub Ha fqn responseCV. unfold canRegisterName. rewrite Hsub.
  rewrite (settle_query _ _ _ _ a) by done. fold fqn responseCV.
  destruct responseCV as [| | | | | | |[]| | | | | | |]; simpl;
    (split; [by eexists | split; intros; simplify_eq; done]).
Qed.

(** X4: the two price queries, on a known chain and for a name without
    subdomain, resolve to [n] exactly when the node answers [(ok n)]
    with [n] a signed or an unsigned integer. Every other answer
    rejects; no price is made up. *)
Theorem price_iff_ok_number env network a :
  getBnsContractAddress network = Ok a ->
  (forall namespace n,
     let responseCV :=
       readOnly env
         (queryRequest env a "get-namespace-price"
            [bufferCVFromString namespace] network) in
     settle env (getNamespacePrice namespace network) = Ok n
     <-> responseCV = responseOkCV (intCV n)
         \/ responseCV = responseOkCV (uintCV n))
  /\ (forall fullyQualifiedName n,
        truthy (subdomain (decodeFQN fullyQualifiedName)) = false ->
        let fqn := decodeFQN fullyQualifiedName in
        let responseCV :=
          readOnly env
            (queryRequest env a "get-name-price"
               [bufferCVFromString (namespace fqn);
                bufferCVFromString (name fqn)]
               network) in
        settle env (getNamePrice fullyQualifiedName network) = Ok n
        <-> responseCV = responseOkCV (intCV n)
            \/ responseCV = responseOkCV (uintCV n)).
Proof.
  intros Ha. split.
  - intros namespace n responseCV. unfold getNamespacePrice.
    rewrite (settle_query _ _ _ _ a) by done. fold responseCV.
    destruct responseCV as [| | | | | | |[]| | | | | | |]; simpl;
      (split; [intros; simplify_eq; auto | intros [|]; by simplify_eq]).
  - intros fullyQualifiedName n Hsub fqn responseCV. unfold getNamePrice.
    rewrite Hsub. rewrite (settle_query _ _ _ _ a) by done.
    fold fqn responseCV.
    destruct responseCV as [| | | | | | |[]| | | | | | |]; simpl;
      (split; [intros; simplify_eq; auto | intros [|]; by simplify_eq]).
Qed.

(** X5: a zonefile reaches the request of a builder through its hash and
    through nothing else: the attachment that a builder sets from the
    bytes of the zonefile is not handed on to
    [makeUnsignedContractCall]. Two zonefiles with the same hash give
    the same promise in [buildRegisterNameTx], [buildUpdateNameTx] and
    [buildImportNameTx], and, when neither is empty, in
    [buildTransferNameTx] and [buildRenewNameTx]. *)
Theorem zonefile_only_through_hash zonefile1 zonefile2 publicKey network :
  getZonefileHash zonefile1 = getZonefileHash zonefile2 ->
  (forall fullyQualifiedName salt,
     buildRegisterNameTx fullyQualifiedName salt zonefile1 publicKey network
     = buildRegisterNameTx fullyQualifiedName salt zonefile2 publicKey network)
  /\ (forall fullyQualifiedName,
        buildUpdateNameTx fullyQualifiedName zonefile1 publicKey network
        = buildUpdateNameTx fullyQualifiedName zonefile2 publicKey network)
  /\ (forall namespace name beneficiary,
        buildImportNameTx namespace name beneficiary zonefile1
          publicKey network
        = buildImportNameTx namespace name beneficiary zonefile2
            publicKey network)
  /\ (zonefile1 <> "" -> zonefile2 <> "" ->
      (forall fullyQualifiedName newOwnerAddress,
         buildTransferNameTx fullyQualifiedName newOwnerAddress
           (Some zonefile1) publicKey network
         = buildTransferNameTx fullyQualifiedName newOwnerAddress
             (Some zonefile2) publicKey network)
      /\ (forall fullyQualifiedName stxToBurn newOwnerAddress,
            buildRenewNameTx fullyQualifiedName stxToBurn newOwnerAddress
              (Some zonefile1) publicKey network
            = buildRenewNameTx fullyQualifiedName stxToBurn newOwnerAddress
                (Some zonefile2) publicKey network)).
Proof.
  intros Hhash. split; [|split; [|split]].
  - intros. unfold buildRegisterNameTx, makeBnsContractCall. simpl.
    by rewrite Hhash.
  - intros. unfold buildUpdateNameTx, makeBnsContractCall. simpl.
    by rewrite Hhash.
  - intros. unfold buildImportNameTx, makeBnsContractCall. simpl.
    by rewrite Hhash.
  - intros H1 H2. split; intros.
    + unfold buildTransferNameTx, transferNameCall, makeBnsContractCall.
      rewrite !BnsFacts.ifTruthy_Some by done. simpl. by rewrite Hhash.
    + unfold buildRenewNameTx, renewNameCall, makeBnsContractCall.
      destruct (uintCVOf stxToBurn) as [burn|e]; [|done].
      rewrite !(BnsFacts.ifTruthy_Some zonefile1),
        !(BnsFacts.ifTruthy_Some zonefile2) by done.
      simpl. by rewrite Hhash.
Qed.

(** X6: the reveal of a namespace opens the commitment of its preorder.
    With [bufferCVFromString] the buffer of the bytes of a text, an
    amount, a price function and a lifetime of unsigned integers of
    128 bits and the text of an address, both calls are made: the
    reveal sends the namespace and the salt as its first two
    arguments, before the integers and the principal, and the preorder
    sent the [hash160] of exactly these two buffers, one after the
    other. *)
Theorem namespace_reveal_opens_preorder env namespace salt stxToBurn
    priceFunction lifetime namespaceImportAddress importPrincipal
    publicKey network a :
  (forall s, bufferCVFromString s = bufferCV (Buffer_from s)) ->
  getBnsContractAddress network = Ok a ->
  isUint128 stxToBurn = true ->
  forallb isUint128 (revealIntegers priceFunction lifetime) = true ->
  standardPrincipalCV namespaceImportAddress = Ok importPrincipal ->
  exists preorder reveal,
    calls env
      (buildPreorderNamespaceTx namespace salt stxToBurn publicKey network)
    = [madeUnsignedContractCall preorder]
    /\ calls env
         (buildRevealNamespaceTx namespace salt priceFunction lifetime
            namespaceImportAddress publicKey network)
       = [madeUnsignedContractCall reveal]
    /\ tx_functionArgs reveal
       = bufferCV (Buffer_from namespace) :: bufferCV (Buffer_from salt)
           :: map uintCV (revealIntegers priceFunction lifetime)
           ++ [importPrincipal]
    /\ tx_functionArgs preorder
       = [bufferCV (hash160 (Buffer_from namespace ++ Buffer_from salt));
          uintCV stxToBurn].
Proof.
  intros Hbuffer Ha Hstx Hintegers Hprincipal.
  unfold buildPreorderNamespaceTx, buildRevealNamespaceTx, makeBnsContractCall,
    uintCVOf.
  rewrite Hstx, uintCVsOf_in_range, Hprincipal by done.
  cbn [Bns.network]. rewrite Ha. cbn [calls eventOf].
  eexists _, _. split; [done|]. split; [done|]. cbn [tx_functionArgs functionArgs].
  rewrite !Hbuffer, BytesFacts.Buffer_from_app. done.
Qed.

(** X7: the registration of a name opens the commitment of its
    preorder. With [bufferCVFromString] the buffer of the bytes of a
    text, a fully qualified name that is its name, a dot and its
    namespace, and an amount that is an unsigned integer of 128 bits,
    both calls are made: the registration sends the namespace, the
    name and the salt, and the preorder sent the [hash160] of the
    name, the dot, the namespace and the salt, one after the other. *)
Theorem name_register_opens_preorder env fullyQualifiedName salt stxToBurn
    zonefile publicKey network a :
  (forall s, bufferCVFromString s = bufferCV (Buffer_from s)) ->
  getBnsContractAddress network = Ok a ->
  truthy (subdomain (decodeFQN fullyQualifiedName)) = false ->
  isUint128 stxToBurn = true ->
  fullyQualifiedName
  = name (decodeFQN fullyQualifiedName) +:+ "."
      +:+ namespace (decodeFQN fullyQualifiedName) ->
  let fqn := decodeFQN fullyQualifiedName in
  exists preorder register,
    calls env
      (buildPreorderNameTx fullyQualifiedName salt stxToBurn publicKey network)
    = [madeUnsignedContractCall preorder]
    /\ calls env
         (buildRegisterNameTx fullyQualifiedName salt zonefile
            publicKey network)
       = [madeUnsignedContractCall register]
    /\ tx_functionArgs register
       = [bufferCV (Buffer_from (namespace fqn));
          bufferCV (Buffer_from (name fqn));
          bufferCV (Buffer_from salt);
          bufferCV (getZonefileHash zonefile)]
    /\ tx_functionArgs preorder
       = [bufferCV (hash160 (Buffer_from (name fqn) ++ Buffer_from "."
                             ++ Buffer_from (namespace fqn)
                             ++ Buffer_from salt));
          uintCV stxToBurn].
Proof.
  intros Hbuffer Ha Hsub Hstx Hfqn fqn.
  unfold buildPreorderNameTx, buildRegisterNameTx, makeBnsContractCall,
    uintCVOf.
  rewrite Hsub, Hstx. simpl. rewrite Ha. simpl.
  eexists _, _. split; [done|]. split; [done|]. simpl.
  rewrite !Hbuffer. fold fqn. split; [done|].
  rewrite Hfqn at 1. fold fqn.
  by rewrite !BytesFacts.Buffer_from_app, <- !app_assoc.
Qed.

End WithImports.
End BnsCallFacts.

Module BnsCallWitnesses.
Import Bytes Clarity Bns BnsNamespace BnsCalls.

Section Test.
Existing Instance testImports.
Existing Instance testPrincipals.

Lemma can_register_iff_ok_true_witness :
  truthy (subdomain (decodeFQN "alice.id")) = false
  /\ getBnsContractAddress testMainnet = Ok mainnet
  /\ settle (testRemote (responseOkCV trueCV))
       (canRegisterName "alice.id" testMainnet) = Ok true.
Proof.
  split; [reflexivity|]. split; [reflexivity|].
  apply (BnsCallFacts.can_register_iff_ok_true
           (testRemote (responseOkCV trueCV)) "alice.id" testMainnet mainnet
           eq_refl eq_refl).
  reflexivity.
Defined.

Lemma price_iff_ok_number_witness :
  getBnsContractAddress testMainnet = Ok mainnet
  /\ settle (testRemote (responseOkCV (uintCV 640000000)))
       (getNamespacePrice "id" testMainnet) = Ok 640000000.
Proof.
  split; [reflexivity|].
  apply (proj1 (BnsCallFacts.price_iff_ok_number
                  (testRemote (responseOkCV (uintCV 640000000)))
                  testMainnet mainnet eq_refl)).
  right. reflexivity.
Defined.

Lemma namespace_reveal_opens_preorder_witness :
  (forall s, bufferCVFromString s = bufferCV (Buffer_from s))
  /\ getBnsContractAddress testMainnet = Ok mainnet
  /\ isUint128 100 = true
  /\ forallb isUint128 (revealIntegers testPriceFunction 52595) = true
  /\ standardPrincipalCV testAddress
     = Ok (Clarity.standardPrincipalCV
             (mkAddress 22
                [165; 217; 211; 49; 0; 15; 91; 121; 87; 140;
                 229; 107; 209; 87; 242; 154; 144; 86; 240; 214]))
  /\ exists preorder reveal,
       calls (testRemote noneCV)
         (buildPreorderNamespaceTx "id" "salt" 100 "pk" testMainnet)
       = [madeUnsignedContractCall preorder]
       /\ calls (testRemote noneCV)
            (buildRevealNamespaceTx "id" "salt" testPriceFunction 52595
               testAddress "pk" testMainnet)
          = [madeUnsignedContractCall reveal]
       /\ tx_functionArgs reveal
          = bufferCV (Buffer_from "id") :: bufferCV (Buffer_from "salt")
              :: map uintCV (revealIntegers testPriceFunction 52595)
              ++ [Clarity.standardPrincipalCV
                    (mkAddress 22
                       [165; 217; 211; 49; 0; 15; 91; 121; 87; 140;
                        229; 107; 209; 87; 242; 154; 144; 86; 240; 214])]
       /\ tx_functionArgs preorder
          = [bufferCV (hash160 (Buffer_from "id" ++ Buffer_from "salt"));
             uintCV 100].
Proof.
  split; [reflexivity|]. split; [reflexivity|]. split; [reflexivity|].
  split; [reflexivity|]. split; [reflexivity|].
  apply (BnsCallFacts.namespace_reveal_opens_preorder
           (testRemote noneCV) "id" "salt" 100 testPriceFunction 52595
           testAddress
           (Clarity.standardPrincipalCV
              (mkAddress 22
                 [165; 217; 211; 49; 0; 15; 91; 121; 87; 140;
                  229; 107; 209; 87; 242; 154; 144; 86; 240; 214]))
           "pk" testMainnet mainnet);
    reflexivity.
Defined.

Lemma name_register_opens_preorder_witness :
  (forall s, bufferCVFromString s = bufferCV (Buffer_from s))
  /\ getBnsContractAddress testMainnet = Ok mainnet
  /\ truthy (subdomain (decodeFQN "alice.id")) = false
  /\ isUint128 100 = true
  /\ "alice.id" = name (decodeFQN "alice.id") +:+ "."
                    +:+ namespace (decodeFQN "alice.id")
  /\ exists preorder register,
       calls (testRemote noneCV)
         (buildPreorderNameTx "alice.id" "salt" 100 "pk" testMainnet)
       = [madeUnsignedContractCall preorder]
       /\ calls (testRemote noneCV)
            (buildRegisterNameTx "alice.id" "salt" "$ORIGIN alice.id"
               "pk" testMainnet)
          = [madeUnsignedContractCall register]
       /\ tx_functionArgs register
          = [bufferCV (Buffer_from "id");
             bufferCV (Buffer_from "alice");
             bufferCV (Buffer_from "salt");
             bufferCV (getZonefileHash "$ORIGIN alice.id")]
       /\ tx_functionArgs preorder
          = [bufferCV (hash160 (Buffer_from "alice" ++ Buffer_from "."
                                ++ Buffer_from "id" ++ Buffer_from "salt"));
             uintCV 100].
Proof.
  split; [reflexivity|]. split; [reflexivity|]. split; [reflexivity|].
  split; [reflexivity|]. split; [reflexivity|].
  apply (BnsCallFacts.name_register_opens_preorder
           (testRemote noneCV) "alice.id" "salt" 100 "$ORIGIN alice.id"
           "pk" testMainnet mainnet);
    reflexivity.
Defined.

End Test.

Section FirstByte.
Existing Instance firstByteImports.
Existing Instance testPrincipals.

Lemma zonefile_only_through_hash_witness :
  getZonefileHash "$ORIGIN alice.id" = getZonefileHash "$ORIGIN bob.id"
  /\ buildUpdateNameTx "alice.id" "$ORIGIN alice.id" "pk" testMainnet
     = buildUpdateNameTx "alice.id" "$ORIGIN bob.id" "pk" testMainnet.
Proof.
  split; [reflexivity|].
  apply (BnsCallFacts.zonefile_only_through_hash
           "$ORIGIN alice.id" "$ORIGIN bob.id" "pk" testMainnet).
  reflexivity.
Defined.

End FirstByte.
End BnsCallWitnesses.

(** ** Identity changes in the instance store *)

Module SessionIdentityFacts.
Import SessionStore SessionIdentity.

Lemma identity_eqb_eq a b : identity_eqb a b = true <-> a = b.
Proof.
  destruct a as [x|], b as [y|]; simpl; try (split; by intros).
  destruct (String.eqb_spec x y); split; intros; by simplify_eq.
Qed.

Section WithImports.
Context {imports : Imports}.

Lemma invokeWith_truthful called m this :
  (forall this', truthful this' -> truthful (stateOf (called this'))) ->
  truthful this -> truthful (stateOf (invokeWith called m this)).
Proof.
  intros Hcalled Hlog.
  assert (forall session,
            truthful (stateOf (setSessionData called session this))) as Hset.
  { intros session. apply (SessionStoreFacts.setSessionData_keeps truthful);
      [done| |done..].
    intros callback event _ _ _ Hdiffer. constructor; [|done].
    cbn. intros Hsame%identity_eqb_eq. congruence. }
  destruct m as [|session| |callback]; cbn [invokeWith].
  - by destruct (getSessionData this).
  - specialize (Hset session). by destruct (setSessionData called session this).
  - unfold deleteSessionData.
    specialize (Hset (Some (newSessionData emptyOptions))).
    by destruct (setSessionData called (Some (newSessionData emptyOptions)) this).
  - done.
Qed.

Lemma constructor_quiet sessionOptions :
  notified (constructor sessionOptions) = [].
Proof.
  destruct sessionOptions as [o|]; unfold constructor, superConstructor; simpl.
  - by destruct (identityOf (newSessionData o)).
  - by destruct (identityOf (newSessionData emptyOptions)).
Qed.

Lemma reachable_truthful this : reachable this -> truthful this.
Proof.
  induction 1 as [sessionOptions|m during this _ IH _].
  - unfold truthful. by rewrite constructor_quiet.
  - apply (SessionStoreFacts.invoke_keeps truthful (fun _ => true));
      [|by apply forallb_forall|done].
    intros called m' this' _. apply invokeWith_truthful.
Qed.

Lemma tracked_constructor sessionOptions : tracked (constructor sessionOptions).
Proof.
  unfold tracked, constructor, superConstructor.
  destruct sessionOptions as [o|]; simpl.
  - destruct (identityOf (newSessionData o)) eqn:Hid; simpl; by rewrite Hid.
  - destruct (identityOf (newSessionData emptyOptions)) eqn:Hid; simpl;
      by rewrite Hid.
Qed.

(** With a callback that only observes, [setSessionData] returns,
    with the session stored and its identity as the last updated
    one. *)
Lemma setSessionData_observed session this :
  exists log,
    setSessionData (run Return) session this
    = Returned true {| sessionData := session;
                       identityChangeCallback := identityChangeCallback this;
                       lastUpdatedIdentity := currentIdentityOf session;
                       notified := log |}
    /\ log
       = match identityChangeCallback this with
         | Some callback =>
             if identity_eqb (lastUpdatedIdentity this)
                  (currentIdentityOf session)
             then notified this
             else (callback, {| oldIdentity := lastUpdatedIdentity this;
                                newIdentity := currentIdentityOf session |})
                  :: notified this
         | None => notified this
         end.
Proof.
  unfold setSessionData, hasIdentityChangeCallback.
  cbn [identityChangeCallback lastUpdatedIdentity notified sessionData run].
  destruct (identityChangeCallback this) as [callback|]; cbn [andb];
    [|by eexists].
  destruct (identity_eqb (lastUpdatedIdentity this) (currentIdentityOf session));
    by eexists.
Qed.

Lemma reachable_tracked this : reachable_by observed this -> tracked this.
Proof.
  induction 1 as [sessionOptions|m during this _ IH ->].
  - apply tracked_constructor.
  - unfold invoke. destruct m as [|session| |callback]; cbn [invokeWith].
    + by destruct (getSessionData this).
    + destruct (setSessionData_observed session this) as (log & -> & _).
      done.
    + unfold deleteSessionData.
      destruct (setSessionData_observed
                  (Some (newSessionData emptyOptions)) this) as (log & -> & _).
      done.
    + done.
Qed.

(** X8: in a store whose callbacks have only observed, the last updated
    identity is the identity of the stored session, [undefined] when
    [null] was stored for a session: it is the identity of the
    session that [getSessionData] returns, when it returns one. *)
Theorem last_identity_is_identity_of_session this :
  reachable_by observed this ->
  lastUpdatedIdentity this = currentIdentityOf (sessionData this)
  /\ (forall session,
        getSessionData this = Ok session ->
        lastUpdatedIdentity this = identityOf session).
Proof.
  intros Htracked%reachable_tracked. split; [done|].
  intros session Hget. unfold getSessionData in Hget.
  unfold tracked in Htracked.
  destruct (sessionData this); by simplify_eq.
Qed.

(** X9: the store never reports a change that is none: in every call
    that a store in the hands of a client has made to a callback, the
    old and the new identity differ. A store that was just
    constructed has made no call. *)
Theorem notifications_report_changes :
  (forall sessionOptions, notified (constructor sessionOptions) = [])
  /\ (forall this,
        reachable this ->
        Forall (fun call => oldIdentity call.2 <> newIdentity call.2)
          (notified this)).
Proof.
  split; [apply constructor_quiet|].
  intros this Hreach. by apply reachable_truthful.
Qed.

(** X10: on a store whose callbacks have only observed and that holds a
    session, [setSessionData] with a callback that only observes
    calls the registered callback exactly when the identity of the
    new session, [undefined] for [null], differs from the identity of
    the session that it replaces, once, with that old and that new
    identity. It calls nothing when the identities agree or no
    callback is registered. *)
Theorem set_notifies_iff_identity_changes this replaced session :
  reachable_by observed this ->
  getSessionData this = Ok replaced ->
  notified (stateOf (invoke (SetSessionData session) Return this))
  = match identityChangeCallback this with
    | Some callback =>
        if identity_eqb (identityOf replaced) (currentIdentityOf session)
        then notified this
        else (callback, {| oldIdentity := identityOf replaced;
                           newIdentity := currentIdentityOf session |})
             :: notified this
    | None => notified this
    end.
Proof.
  intros Htracked%reachable_tracked Hget.
  unfold getSessionData in Hget. unfold tracked in Htracked.
  destruct (sessionData this) as [held|] eqn:Hs; [|done].
  simplify_eq. cbn [currentIdentityOf] in Htracked.
  unfold invoke. cbn [invokeWith].
  destruct (setSessionData_observed session this) as (log & -> & ->).
  cbn [stateOf notified]. by rewrite Htracked.
Qed.

End WithImports.
End SessionIdentityFacts.

Module SessionIdentityWitnesses.
Import SessionStore SessionIdentity.

Section Test.
Existing Instance testImports.

Lemma last_identity_is_identity_of_session_witness :
  reachable_by observed
    (stateOf (invoke (SetSessionData (Some testSession)) Return testListening))
  /\ getSessionData
       (stateOf (invoke (SetSessionData (Some testSession)) Return
                   testListening))
     = Ok testSession
  /\ lastUpdatedIdentity
       (stateOf (invoke (SetSessionData (Some testSession)) Return
                   testListening))
     = Some "1abc".
Proof.
  assert (reachable_by observed
            (stateOf (invoke (SetSessionData (Some testSession)) Return
                        testListening))) as Hreach.
  { apply (reachable_invoke observed (SetSessionData (Some testSession)) Return);
      [|reflexivity].
    apply (reachable_invoke observed
             (SetSessionIdentityChangeCallback (Some testCallback)) Return
             (constructor None)); [|reflexivity].
    apply (reachable_new observed None). }
  split; [exact Hreach|]. split; [reflexivity|].
  apply (proj2 (SessionIdentityFacts.last_identity_is_identity_of_session
                  _ Hreach) testSession).
  reflexivity.
Defined.

Lemma notifications_report_changes_witness :
  reachable
    (stateOf (invoke (SetSessionData (Some testSession)) testReentrant
                testListening))
  /\ Forall (fun call => oldIdentity call.2 <> newIdentity call.2)
       (notified
          (stateOf (invoke (SetSessionData (Some testSession)) testReentrant
                      testListening))).
Proof.
  assert (reachable
            (stateOf (invoke (SetSessionData (Some testSession)) testReentrant
                        testListening))) as Hreach.
  { apply (reachable_invoke (fun _ _ => True)
             (SetSessionData (Some testSession)) testReentrant); [|exact I].
    apply (reachable_invoke (fun _ _ => True)
             (SetSessionIdentityChangeCallback (Some testCallback)) Return
             (constructor None)); [|exact I].
    apply (reachable_new (fun _ _ => True) None). }
  split; [exact Hreach|].
  apply (proj2 SessionIdentityFacts.notifications_report_changes _ Hreach).
Defined.

Lemma set_notifies_iff_identity_changes_witness :
  reachable_by observed testListening
  /\ getSessionData testListening = Ok testEmptySession
  /\ notified
       (stateOf (invoke (SetSessionData (Some testSession)) Return
                   testListening))
     = [(testCallback, {| oldIdentity := None; newIdentity := Some "1abc" |})].
Proof.
  assert (reachable_by observed testListening) as Hreach.
  { apply (reachable_invoke observed
             (SetSessionIdentityChangeCallback (Some testCallback)) Return
             (constructor None)); [|reflexivity].
    apply (reachable_new observed None). }
  split; [exact Hreach|]. split; [reflexivity|].
  apply (SessionIdentityFacts.set_notifies_iff_identity_changes
           _ testEmptySession (Some testSession) Hreach eq_refl).
Defined.

(** A callback that calls back into the store breaks the step of
    session and last updated identity: the callback stores the empty
    session while the store is about to record the identity of the
    session that it was given. A callback that throws breaks it as
    well: the session is stored, its identity is not. *)
Lemma callbacks_can_break_tracking :
  stateOf (invoke (SetSessionData (Some testSession)) testReentrant
             testListening)
  = {| sessionData := Some testEmptySession;
       identityChangeCallback := Some testCallback;
       lastUpdatedIdentity := Some "1abc";
       notified := [(testCallback, {| oldIdentity := None;
                                      newIdentity := Some "1abc" |})] |}
  /\ invoke (SetSessionData (Some testSession))
       (Throw (CallbackError "oops")) testListening
     = Thrown (CallbackError "oops")
         {| sessionData := Some testSession;
            identityChangeCallback := Some testCallback;
            lastUpdatedIdentity := None;
            notified := [(testCallback, {| oldIdentity := None;
                                           newIdentity := Some "1abc" |})] |}.
Proof. split; reflexivity. Qed.

End Test.
End SessionIdentityWitnesses.

(** ** The local storage session store *)

Module LocalStorageFacts.
Import SessionStore LocalStorage.

Lemma ifTruthy_falsy {A} o (f : string -> A) d :
  Bns.truthy o = false -> Bns.ifTruthy o f d = d.
Proof.
  unfold Bns.truthy, Bns.ifTruthy.
  destruct o as [s|]; [|done]. by destruct (String.eqb s "").
Qed.


Section WithImports.
Context {imports : Imports} {storageImports : StorageImports}.

(** X11: a [LocalStorageStore] that is constructed with session options
    does not keep the session of these options under its key. The
    base constructor stores that session before the key is assigned,
    so it lands under the key [undefined]; when the storage has no
    session under the key of the store, the constructor then writes
    an empty session there. *)
Theorem constructor_files_options_session_under_undefined
    sessionOptions localStorage :
  Bns.truthy (localStorage !! keyOf (Some sessionOptions)) = false ->
  keyOf (Some sessionOptions) <> "undefined" ->
  exists this localStorage',
    constructor (Some sessionOptions) localStorage = Ok (this, localStorage')
    /\ key this = Some (keyOf (Some sessionOptions))
    /\ localStorage' !! "undefined"
       = Some (toString (newSessionData sessionOptions))
    /\ localStorage' !! keyOf (Some sessionOptions)
       = Some (toString (newSessionData emptyOptions)).
Proof.
  intros Hdata Hkey. unfold constructor, superConstructor.
  cbn [setSessionData blank keyString key default].
  set (k := keyOf (Some sessionOptions)) in *. change (id k) with k.
  rewrite lookup_insert_ne by done.
  rewrite ifTruthy_falsy by done. cbn.
  destruct (identityOf (newSessionData emptyOptions)); cbn;
    eexists _, _; (split; [done|]); (split; [done|]);
    (split; [by rewrite lookup_insert_ne, lookup_insert_eq
            | by rewrite lookup_insert_eq]).
Qed.


(** X13: a store writes to one item of the storage: whatever happens to
    a constructed store, a method or a storage event, it keeps its
    key, and every item under another key is what it was. *)
Theorem store_touches_only_its_key m this localStorage this' localStorage' k :
  invoke m this localStorage = Ok (this', localStorage') ->
  k <> keyString this ->
  key this' = key this /\ localStorage' !! k = localStorage !! k.
Proof.
  intros Hm Hk. destruct m as [|s| |cb|ev]; cbn in Hm.
  - destruct (getSessionData this localStorage); by simplify_eq.
  - simplify_eq. split; [done|]. by rewrite lookup_insert_ne.
  - simplify_eq. split; [done|].
    rewrite lookup_insert_ne by done. by rewrite lookup_delete_ne.
  - by simplify_eq.
  - destruct (listening this); [|by simplify_eq].
    destruct (sessionStorageEvent ev this localStorage) as [that|e] eqn:Hev;
      simplify_eq.
    split; [|done]. unfold sessionStorageEvent in Hev.
    repeat case_match; by simplify_eq.
Qed.

Lemma changes_setSessionData session this localStorage :
  Forall (fun call => oldIdentity call.2 <> newIdentity call.2)
    (notified this) ->
  Forall (fun call => oldIdentity call.2 <> newIdentity call.2)
    (notified (setSessionData session this localStorage).1.2).
Proof.
  intros Hlog. cbn.
  destruct (hasIdentityChangeCallback this); simpl; [|done].
  destruct (identity_eqb (lastUpdatedIdentity this) (identityOf session))
    eqn:Heq; simpl; [done|].
  destruct (identityChangeCallback this); [|done].
  constructor; [|done]. simpl. intros Hsame.
  apply SessionIdentityFacts.identity_eqb_eq in Hsame. congruence.
Qed.

Lemma changes_sessionStorageEvent ev this localStorage this' :
  sessionStorageEvent ev this localStorage = Ok this' ->
  Forall (fun call => oldIdentity call.2 <> newIdentity call.2)
    (notified this) ->
  Forall (fun call => oldIdentity call.2 <> newIdentity call.2)
    (notified this').
Proof.
  intros Hev Hlog. unfold sessionStorageEvent in Hev.
  destruct (identityChangeCallback this) as [callback|]; [|by simplify_eq].
  match type of Hev with
  | match ?read with _ => _ end = _ => destruct read as [text|]
  end; [|by simplify_eq].
  match type of Hev with
  | match ?parsed with _ => _ end = _ =>
      destruct parsed as [currentIdentity|e]
  end; [|done].
  destruct (identity_eqb (lastUpdatedIdentity this) currentIdentity) eqn:Heq;
    simpl in Hev; simplify_eq; [done|].
  constructor; [|done]. simpl. intros Hsame.
  apply SessionIdentityFacts.identity_eqb_eq in Hsame. congruence.
Qed.

Lemma changes_constructor sessionOptions localStorage this localStorage' :
  constructor sessionOptions localStorage = Ok (this, localStorage') ->
  notified this = [].
Proof.
  unfold constructor, superConstructor, Bns.ifTruthy. intros Hnew.
  destruct sessionOptions as [o|]; cbn in Hnew;
    repeat case_match; by simplify_eq.
Qed.

(** X14: the local storage store never reports a change that is none
    either: the constructor calls no callback, and in every call that
    a store has made to a callback, from [setSessionData],
    [deleteSessionData] or a storage event, the old and the new
    identity differ. *)
Theorem storage_notifications_report_changes :
  (forall sessionOptions localStorage this localStorage',
     constructor sessionOptions localStorage = Ok (this, localStorage') ->
     notified this = [])
  /\ (forall this localStorage,
        reachable this localStorage ->
        Forall (fun call => oldIdentity call.2 <> newIdentity call.2)
          (notified this)).
Proof.
  split; [apply changes_constructor|].
  induction 1 as [sessionOptions localStorage this localStorage' Hnew
                 |m this localStorage this' localStorage' _ IH Hm
                 |this localStorage localStorage' _ IH]; [| |done].
  - by rewrite (changes_constructor _ _ _ _ Hnew).
  - destruct m as [|s| |cb|ev]; cbn in Hm.
    + destruct (getSessionData this localStorage); by simplify_eq.
    + injection Hm as <- <-.
      by apply (changes_setSessionData s this localStorage).
    + injection Hm as <- <-.
      by apply (changes_setSessionData (newSessionData emptyOptions) this
                  (delete (keyString this) localStorage)).
    + by injection Hm as <- <-.
    + destruct (listening this); [|by injection Hm as <- <-].
      destruct (sessionStorageEvent ev this localStorage) as [that|e] eqn:Hev;
        [|done].
      injection Hm as <- <-.
      by apply (changes_sessionStorageEvent ev this localStorage).
Qed.

End WithImports.
End LocalStorageFacts.

Module LocalStorageWitnesses.
Import SessionStore LocalStorage.

Section Test.
Existing Instance testImports.
Existing Instance testStorageImports.

Lemma constructor_files_options_session_under_undefined_witness :
  Bns.truthy ((∅ : Storage) !! keyOf (Some testOptions)) = false
  /\ keyOf (Some testOptions) <> "undefined"
  /\ exists this localStorage',
       constructor (Some testOptions) ∅ = Ok (this, localStorage')
       /\ key this = Some "my-session"
       /\ localStorage' !! "undefined" = Some "session:1abc"
       /\ localStorage' !! "my-session" = Some "session:".
Proof.
  assert (Bns.truthy ((∅ : Storage) !! keyOf (Some testOptions)) = false)
    as Hdata by reflexivity.
  assert (keyOf (Some testOptions) <> "undefined") as Hkey by discriminate.
  split; [exact Hdata|]. split; [exact Hkey|].
  apply (LocalStorageFacts.constructor_files_options_session_under_undefined
           testOptions ∅ Hdata Hkey).
Defined.


Lemma store_touches_only_its_key_witness :
  invoke DeleteSessionData testStore (<["other" := "text"]> testStorage)
  = Ok ((deleteSessionData testStore
           (<["other" := "text"]> testStorage)).1.2,
        (deleteSessionData testStore
           (<["other" := "text"]> testStorage)).2)
  /\ "other" <> keyString testStore
  /\ (deleteSessionData testStore (<["other" := "text"]> testStorage)).2
       !! "other"
     = <["other" := "text"]> testStorage !! "other".
Proof.
  assert ("other" <> keyString testStore) as Hk by discriminate.
  split; [reflexivity|]. split; [exact Hk|].
  exact (proj2 (LocalStorageFacts.store_touches_only_its_key
                  DeleteSessionData testStore
                  (<["other" := "text"]> testStorage)
                  (deleteSessionData testStore
                     (<["other" := "text"]> testStorage)).1.2
                  (deleteSessionData testStore
                     (<["other" := "text"]> testStorage)).2
                  "other" eq_refl Hk)).
Defined.

Lemma storage_notifications_report_changes_witness :
  reachable
    (setSessionData testSession
       (setSessionIdentityChangeCallback (Some SessionIdentity.testCallback)
          testStore) testStorage).1.2
    (setSessionData testSession
       (setSessionIdentityChangeCallback (Some SessionIdentity.testCallback)
          testStore) testStorage).2
  /\ Forall (fun call => oldIdentity call.2 <> newIdentity call.2)
       (notified
          (setSessionData testSession
             (setSessionIdentityChangeCallback
                (Some SessionIdentity.testCallback) testStore)
             testStorage).1.2).
Proof.
  assert (reachable testStore testStorage) as Hnew
    by (apply (reachable_new None ∅); reflexivity).
  assert (reachable
            (setSessionIdentityChangeCallback
               (Some SessionIdentity.testCallback) testStore) testStorage)
    as Hcallback
    by (apply (reachable_invoke
                 (SetSessionIdentityChangeCallback
                    (Some SessionIdentity.testCallback))
                 testStore testStorage); [exact Hnew | reflexivity]).
  assert (reachable
            (setSessionData testSession
               (setSessionIdentityChangeCallback
                  (Some SessionIdentity.testCallback) testStore)
               testStorage).1.2
            (setSessionData testSession
               (setSessionIdentityChangeCallback
                  (Some SessionIdentity.testCallback) testStore)
               testStorage).2) as Hreach
    by (apply (reachable_invoke (SetSessionData testSession)
                 (setSessionIdentityChangeCallback
                    (Some SessionIdentity.testCallback) testStore)
                 testStorage); [exact Hcallback | reflexivity]).
  split; [exact Hreach|].
  apply (proj2 LocalStorageFacts.storage_notifications_report_changes
           _ _ Hreach).
Defined.

End Test.
End LocalStorageWitnesses.

(** ** Splitting and joining strings *)

Module JsStringFacts.
Import JsString.

Lemma append_empty_r s : s +:+ "" = s.
Proof.
  induction s as [|c s IH]; [done|].
  change (String c s +:+ "") with (String c (s +:+ "")). by rewrite IH.
Qed.

Lemma prefix_refl_app sep b : String.prefix sep (sep +:+ b) = true.
Proof.
  induction sep as [|c sep IH]; simpl.
  - by destruct b.
  - by destruct (ascii_dec c c).
Qed.

Lemma prefix_first_differs c0 sep' c s :
  c <> c0 -> String.prefix (String c0 sep') (String c s) = false.
Proof. intros Hc. cbn [String.prefix]. by destruct (ascii_dec c0 c). Qed.

Lemma split_from_skip sep x b :
  split_from sep (String.length x) (x +:+ b) = split_from sep 0 b.
Proof. induction x as [|c x IH]; [done | exact IH]. Qed.

Lemma split_from_nonempty sep skip s : split_from sep skip s <> [].
Proof.
  revert skip. induction s as [|c s IH]; intros skip; [done|].
  cbn [split_from]. destruct skip as [|n]; [|apply IH].
  destruct (String.prefix sep (String c s)); [done|].
  by destruct (split_from sep 0 s).
Qed.

(** A separator at the front ends an empty first part. *)
Lemma split_separator c0 sep' b :
  split (String c0 sep') (String c0 sep' +:+ b)
  = "" :: split (String c0 sep') b.
Proof.
  unfold split. change (String c0 sep' +:+ b) with (String c0 (sep' +:+ b)).
  cbn [split_from].
  change (String c0 (sep' +:+ b)) with (String c0 sep' +:+ b).
  rewrite prefix_refl_app.
  replace (String.length (String c0 sep') - 1)%nat with (String.length sep')
    by (simpl; lia).
  by rewrite split_from_skip.
Qed.

(** A text without the first character of the separator is the
    first part of what it is put before. *)
Lemma split_first_part c0 sep' a b :
  occurs c0 a = false ->
  split (String c0 sep') (a +:+ String c0 sep' +:+ b)
  = a :: split (String c0 sep') b.
Proof.
  induction a as [|c a IH]; intros Ha.
  - apply split_separator.
  - cbn [occurs] in Ha. apply orb_false_iff in Ha as [Hc Ha].
    apply Ascii.eqb_neq in Hc. specialize (IH Ha).
    unfold split in *.
    change (String c a +:+ String c0 sep' +:+ b)
      with (String c (a +:+ String c0 sep' +:+ b)).
    cbn [split_from]. rewrite prefix_first_differs by done. by rewrite IH.
Qed.

Lemma split_not_included sep s : includes sep s = false -> split sep s = [s].
Proof.
  unfold split. induction s as [|c s IH]; [done|].
  cbn [includes split_from]. intros [Hp Hs]%orb_false_iff.
  by rewrite Hp, IH.
Qed.

Lemma includes_separator sep a b : includes sep (a +:+ sep +:+ b) = true.
Proof.
  induction a as [|c a IH].
  - change ("" +:+ sep +:+ b) with (sep +:+ b).
    destruct (sep +:+ b) eqn:E; cbn [includes]; rewrite <- E;
      by rewrite prefix_refl_app.
  - change (String c a +:+ sep +:+ b) with (String c (a +:+ sep +:+ b)).
    cbn [includes]. rewrite IH. apply orb_true_r.
Qed.

Lemma prefix_char c c' s :
  String.prefix (String c "") (String c' s) = Ascii.eqb c' c.
Proof.
  cbn [String.prefix].
  destruct (ascii_dec c c') as [->|Hc].
  - rewrite Ascii.eqb_refl. by destruct s.
  - symmetry. apply Ascii.eqb_neq. congruence.
Qed.

(** Splitting at a character and joining with it gives the text
    back. *)
Lemma join_split_char c s : join (String c "") (split (String c "") s) = s.
Proof.
  unfold join, split. induction s as [|c' s IH]; [done|].
  cbn [split_from]. rewrite prefix_char. cbn [String.length Nat.sub].
  pose proof (split_from_nonempty (String c "") 0 s) as Hne.
  destruct (Ascii.eqb_spec c' c) as [->|Hc].
  - destruct (split_from (String c "") 0 s) as [|part parts]; [done|].
    cbn [String.concat] in *. by rewrite <- IH.
  - destruct (split_from (String c "") 0 s) as [|part parts]; [done|].
    cbn [String.concat] in *.
    destruct parts as [|part' parts]; by rewrite <- IH.
Qed.

(** A text has one part exactly when the character does not occur
    in it. *)
Lemma split_char_parts c s :
  match split (String c "") s with
  | [part] => occurs c s = false
  | _ => occurs c s = true
  end.
Proof.
  unfold split. induction s as [|c' s IH]; [done|].
  cbn [split_from occurs]. rewrite prefix_char. cbn [String.length Nat.sub].
  pose proof (split_from_nonempty (String c "") 0 s) as Hne.
  destruct (Ascii.eqb c' c); cbn [orb].
  - by destruct (split_from (String c "") 0 s).
  - by destruct (split_from (String c "") 0 s) as [|part [|part' parts]].
Qed.


End JsStringFacts.

(** ** Making and resolving profile zone files *)

Module ProfilesFacts.
Import JsString ProfileZoneFiles Profiles.

Lemma prefix_app p a b :
  String.prefix p a = true -> String.prefix p (a +:+ b) = true.
Proof.
  revert a. induction p as [|c p IH]; intros a; [by destruct (a +:+ b)|].
  destruct a as [|c' a]; [done|]. simpl.
  destruct (ascii_dec c c'); [apply IH | done].
Qed.

Lemma getTokenFileUrl_http zoneFileJson tokenFileUrl :
  getTokenFileUrl zoneFileJson = Ok (Some tokenFileUrl) ->
  String.prefix "http" tokenFileUrl = true.
Proof.
  intros Hurl. unfold getTokenFileUrl in Hurl.
  destruct (hasOwnProperty zoneFileJson "uri") as [[|]|]; try done.
  destruct (getField zoneFileJson "uri") as [| | | | |[|record items]|];
    try done.
  destruct (hasOwnProperty record "target") as [[|]|]; try done.
  destruct (getField record "target") as [| | | |t| |]; try done.
  destruct (String.prefix "https" t) eqn:Hhttps.
  - injection Hurl as <-. by apply ProfileZoneFilesFacts.prefix_https_http.
  - destruct (String.prefix "http" t) eqn:Hhttp; by injection Hurl as <-.
Qed.

(** X15: the URL that [getTokenFileUrl] returns starts with [http],
    whatever the zone file: a target with another scheme, or with
    none, has [https://] put before it. So the URL is never the empty
    text, and a caller that tests it tests for [null] alone. *)
Theorem token_file_url_starts_with_http zoneFileJson tokenFileUrl :
  getTokenFileUrl zoneFileJson = Ok (Some tokenFileUrl) ->
  String.prefix "http" tokenFileUrl = true
  /\ Bns.truthy (Some tokenFileUrl) = true.
Proof.
  intros Hhttp%getTokenFileUrl_http. split; [exact Hhttp|].
  by destruct tokenFileUrl.
Qed.

(** X16: [getTokenFileUrl] throws exactly on the values that have not
    the shape of a zone file: [null] and [undefined], an object that
    hides [hasOwnProperty], and a [uri] array whose first record is
    such a value or has a target that is no string. On every other
    value it returns a URL or [null]. *)
Theorem token_file_url_throws_iff_misshapen zoneFileJson :
  (exists e, getTokenFileUrl zoneFileJson = Err e)
  <-> zoneFileShape zoneFileJson = false.
Proof.
  split.
  - intros [e He]. destruct (zoneFileShape zoneFileJson) eqn:Hshape; [|done].
    pose proof (ProfileZoneFilesFacts.getTokenFileUrl_cases _ Hshape) as Hcases.
    destruct (firstUriRecord zoneFileJson) as [record|]; [|congruence].
    destruct (ownProperty record "target") as [[| | | |t| |]|];
      try done; congruence.
  - unfold zoneFileShape, getTokenFileUrl, firstUriRecord.
    destruct zoneFileJson as [| | | | | |fields]; try done;
      cbn [hasMethods hasOwnProperty ownProperty getField andb];
      try (intros _; by eexists).
    destruct (lookup "hasOwnProperty" fields); [intros _; by eexists|].
    cbn [andb].
    destruct (lookup "uri" fields) as [[| | | | |[|record items]|]|];
      try done.
    destruct record as [| | | | | |rfields]; try done;
      cbn [hasMethods hasOwnProperty ownProperty getField andb];
      try (intros _; by eexists).
    destruct (lookup "hasOwnProperty" rfields); [intros _; by eexists|].
    cbn [andb].
    destruct (lookup "target" rfields) as [[| | | |t| |]|]; try done;
      intros _; by eexists.
Qed.

Lemma getTokenFileUrl_zoneFileObject origin target :
  getTokenFileUrl (zoneFileObject origin target) = Ok (Some (withScheme target)).
Proof.
  pose proof (ProfileZoneFilesFacts.getTokenFileUrl_cases
                (zoneFileObject origin target) eq_refl) as Hcases.
  exact Hcases.
Qed.

Lemma profileZoneFileJson_target origin scheme rest :
  occurs ":" scheme = false ->
  includes "://" rest = false ->
  profileZoneFileJson origin (scheme +:+ "://" +:+ rest)
  = Ok (zoneFileObject origin
          (scheme +:+ "://" +:+ rest
             +:+ (if occurs "/" rest then "" else "/"))).
Proof.
  intros Hscheme Hrest. unfold profileZoneFileJson.
  rewrite JsStringFacts.includes_separator. cbn [negb].
  rewrite (JsStringFacts.split_first_part ":" "//" scheme rest Hscheme).
  rewrite (JsStringFacts.split_not_included _ _ Hrest).
  pose proof (JsStringFacts.join_split_char "/" rest) as Hjoin.
  pose proof (JsStringFacts.split_char_parts "/" rest) as Hparts.
  destruct (split "/" rest) as [|domain [|part parts]] eqn:Hsplit.
  - by destruct (JsStringFacts.split_from_nonempty "/" 0 rest).
  - rewrite Hparts. unfold join in *. cbn [String.concat] in *.
    by subst domain.
  - rewrite Hparts. unfold join in *. cbn [String.concat] in *.
    by rewrite JsStringFacts.append_empty_r, <- Hjoin.
Qed.

Lemma profileZoneFileJson_second_separator origin scheme rest more :
  occurs ":" scheme = false ->
  occurs ":" rest = false ->
  profileZoneFileJson origin (scheme +:+ "://" +:+ rest +:+ "://" +:+ more)
  = profileZoneFileJson origin (scheme +:+ "://" +:+ rest).
Proof.
  intros Hscheme Hrest. unfold profileZoneFileJson.
  rewrite !JsStringFacts.includes_separator. cbn [negb].
  rewrite !(JsStringFacts.split_first_part ":" "//" scheme _ Hscheme).
  rewrite (JsStringFacts.split_first_part ":" "//" rest more Hrest).
  assert (includes "://" rest = false) as Hnone.
  { clear -Hrest. induction rest as [|c rest IH]; [done|].
    cbn [occurs] in Hrest. apply orb_false_iff in Hrest as [Hc Hrest].
    apply Ascii.eqb_neq in Hc. cbn [includes].
    rewrite JsStringFacts.prefix_first_differs by done. by apply IH. }
  by rewrite (JsStringFacts.split_not_included _ _ Hnone).
Qed.

Section WithImports.
Context {imports : Imports}.

(** X17: the zone file of a profile names its token file. For a URL
    [scheme://rest] with no colon in the scheme and no second [://],
    [makeProfileZoneFile] builds the zone file from the object with
    this URL as the target of its one [uri] record, a slash put after
    it when [rest] has none; and when the scheme starts with [http],
    [getTokenFileUrl] on that object gives this target back. *)
Theorem token_file_url_round_trip origin scheme rest :
  occurs ":" scheme = false ->
  includes "://" rest = false ->
  let target :=
    scheme +:+ "://" +:+ rest +:+ (if occurs "/" rest then "" else "/") in
  (exists zoneFileTemplate,
     makeProfileZoneFile origin (scheme +:+ "://" +:+ rest)
     = Ok (makeZoneFile (zoneFileObject origin target) zoneFileTemplate))
  /\ zoneFileShape (zoneFileObject origin target) = true
  /\ (String.prefix "http" scheme = true ->
      getTokenFileUrl (zoneFileObject origin target) = Ok (Some target)).
Proof.
  intros Hscheme Hrest target. split; [|split; [done|]].
  - unfold makeProfileZoneFile.
    rewrite (profileZoneFileJson_target origin scheme rest Hscheme Hrest).
    by eexists.
  - intros Hhttp. rewrite getTokenFileUrl_zoneFileObject. unfold withScheme.
    subst target. by rewrite (prefix_app "http" scheme _ Hhttp).
Qed.

(** X18: [makeProfileZoneFile] reads a URL up to its second [://]: what
    follows, the separator included, does not reach the zone file. A
    URL that carries another URL, in its path or its query, is cut
    there without an error. *)
Theorem token_file_url_cut_at_second_separator origin scheme rest more :
  occurs ":" scheme = false ->
  occurs ":" rest = false ->
  makeProfileZoneFile origin
    (scheme +:+ "://" +:+ rest +:+ "://" +:+ more)
  = makeProfileZoneFile origin (scheme +:+ "://" +:+ rest).
Proof.
  intros Hscheme Hrest. unfold makeProfileZoneFile.
  by rewrite (profileZoneFileJson_second_separator origin scheme rest more
                Hscheme Hrest).
Qed.

Lemma fetchProfile_events network url publicKeyOrAddress :
  (fetchProfile network url publicKeyOrAddress).1 = [Fetched url].
Proof.
  unfold fetchProfile, fetch, bind, lift.
  destruct (fetchText network url) as [text|e]; [|done].
  destruct (JSON_parse (JString text)) as [json|e]; [|done].
  destruct (getProperty json "0") as [record|e]; [|done].
  destruct (getProperty record "token") as [token|e]; [|done].
  done.
Qed.

Lemma fetchProfile_run network url publicKeyOrAddress :
  fetchProfile network url publicKeyOrAddress
  = ([Fetched url], (fetchProfile network url publicKeyOrAddress).2).
Proof.
  rewrite <- (fetchProfile_events network url publicKeyOrAddress).
  by destruct (fetchProfile network url publicKeyOrAddress).
Qed.

Local Ltac bounded :=
  cbn -[fetchProfile]; unfold atMostOnce; cbn;
  repeat split; try lia; try done;
  first [assumption | by constructor].

(** X19: whenever [resolveZoneFileToProfile] resolves to a profile,
    [resolveZoneFileToPerson] on the same zone file resolves too,
    after it has called the callback once, with that profile, and
    fetched the same URLs. *)
Theorem person_agrees_with_profile network zoneFile publicKeyOrAddress profile :
  (resolveZoneFileToProfile network zoneFile publicKeyOrAddress).2
  = Ok profile ->
  (resolveZoneFileToPerson network zoneFile publicKeyOrAddress).2 = Ok tt
  /\ calledBack (resolveZoneFileToPerson network zoneFile publicKeyOrAddress).1
     = [profile]
  /\ fetched (resolveZoneFileToPerson network zoneFile publicKeyOrAddress).1
     = fetched (resolveZoneFileToProfile network zoneFile publicKeyOrAddress).1.
Proof.
  unfold resolveZoneFileToProfile, resolveZoneFileToPerson, parsedWithOrigin,
    legacyOrRaw, bind, catch, lift, emit, ret, throw, typeError.
  destruct (parseZoneFile zoneFile) as [parsed|e]; [|done].
  destruct (hasOwnProperty parsed "$origin") as [[|]|e]; [| |done].
  - destruct (truthyValue parsed && (0 <? keysLength parsed)%nat).
    + destruct (getTokenFileUrl parsed) as [[url|]|e]; [| |done].
      * unfold Bns.ifTruthy. destruct (String.eqb url ""); cbn -[fetchProfile].
        -- by intros [= <-].
        -- rewrite (fetchProfile_run network url publicKeyOrAddress).
           destruct (fetchProfile network url publicKeyOrAddress).2
             as [p|e]; cbn -[fetchProfile]; [by intros [= <-] | done].
      * cbn -[fetchProfile]. by intros [= <-].
    + destruct (JSON_parse zoneFile) as [raw|e]; [|done].
      destruct (legacyProfile raw) as [p|e]; cbn -[fetchProfile]; [by intros [= <-] | done].
  - cbn -[fetchProfile]. destruct (JSON_parse zoneFile) as [raw|e]; [|done].
    destruct (legacyProfile raw) as [p|e]; cbn -[fetchProfile]; [by intros [= <-] | done].
Qed.

(** A value with an own property [$origin] is an object with at
    least one key: it passes the guard of the two resolvers. *)
Lemma own_origin_passes_guard parsed :
  hasOwnProperty parsed "$origin" = Ok true ->
  truthyValue parsed && (0 <? keysLength parsed)%nat = true.
Proof.
  destruct parsed as [| | | |s|items|fields]; try done.
  cbn [hasOwnProperty truthyValue keysLength andb].
  destruct (lookup "hasOwnProperty" fields); [done|].
  destruct fields as [|[k v] fields]; [done|]. intros _.
  apply Nat.ltb_lt.
  assert (k ∈ remove_dups (map fst ((k, v) :: fields))) as Hin
    by (apply elem_of_remove_dups; left).
  destruct (remove_dups (map fst ((k, v) :: fields)));
    [by apply elem_of_nil in Hin | cbn; lia].
Qed.

(** X20: when the token file of a zone file cannot be fetched, read or
    verified, [resolveZoneFileToProfile] rejects with the error, and
    [resolveZoneFileToPerson] resolves without ever calling the
    callback: the error goes to the console, and the caller hears
    nothing. The zone file is one with an origin and a token file
    URL, and the error is the one of the token file behind that
    URL. *)
Theorem person_is_silent_when_token_file_fails
    network zoneFile publicKeyOrAddress parsed url error :
  parseZoneFile zoneFile = Ok parsed ->
  hasOwnProperty parsed "$origin" = Ok true ->
  getTokenFileUrl parsed = Ok (Some url) ->
  (fetchProfile network url publicKeyOrAddress).2 = Err error ->
  (resolveZoneFileToProfile network zoneFile publicKeyOrAddress).2 = Err error
  /\ fetched (resolveZoneFileToProfile network zoneFile publicKeyOrAddress).1
     = [url]
  /\ (resolveZoneFileToPerson network zoneFile publicKeyOrAddress).2 = Ok tt
  /\ calledBack (resolveZoneFileToPerson network zoneFile publicKeyOrAddress).1
     = []
  /\ fetched (resolveZoneFileToPerson network zoneFile publicKeyOrAddress).1
     = [url]
  /\ In (ConsoleWarn error)
       (resolveZoneFileToPerson network zoneFile publicKeyOrAddress).1.
Proof.
  intros Hparsed Horigin Hurl Hfailed.
  pose proof (own_origin_passes_guard _ Horigin) as Hguard.
  assert (url <> "") as Hnonempty.
  { intros ->. by apply getTokenFileUrl_http in Hurl. }
  unfold resolveZoneFileToProfile, resolveZoneFileToPerson, parsedWithOrigin,
    legacyOrRaw, bind, catch, lift, emit, ret, throw, typeError.
  rewrite Hparsed, Horigin, Hguard, Hurl.
  rewrite !(BnsFacts.ifTruthy_Some url) by done.
  rewrite (fetchProfile_run network url publicKeyOrAddress), Hfailed.
  cbn. do 5 (split; [done|]). right. by left.
Qed.

(** X21: resolving a zone file goes to the network at most once, for a
    URL that starts with [http], and [resolveZoneFileToPerson] calls
    the callback at most once. A zone file without token file URL,
    and one in the legacy format, is resolved without the network. *)
Theorem resolving_fetches_at_most_once network zoneFile publicKeyOrAddress :
  atMostOnce (resolveZoneFileToProfile network zoneFile publicKeyOrAddress).1
  /\ atMostOnce (resolveZoneFileToPerson network zoneFile publicKeyOrAddress).1
  /\ calledBack (resolveZoneFileToProfile network zoneFile publicKeyOrAddress).1
     = [].
Proof.
  assert (forall parsed url,
            getTokenFileUrl parsed = Ok (Some url) ->
            Forall (fun url => String.prefix "http" url = true) [url])
    as Hhttp.
  { intros parsed url Hurl. constructor; [|done].
    apply (getTokenFileUrl_http parsed url Hurl). }
  unfold resolveZoneFileToProfile, resolveZoneFileToPerson, parsedWithOrigin,
    legacyOrRaw, bind, catch, lift, emit, ret, throw, typeError.
  destruct (parseZoneFile zoneFile) as [parsed|e].
  2: { destruct (JSON_parse zoneFile) as [raw|e'];
         [destruct (legacyProfile raw)|]; bounded. }
  destruct (hasOwnProperty parsed "$origin") as [[|]|e].
  - destruct (truthyValue parsed && (0 <? keysLength parsed)%nat).
    + destruct (getTokenFileUrl parsed) as [[url|]|e] eqn:Hurl;
        [|bounded|bounded].
      specialize (Hhttp parsed url Hurl).
      unfold Bns.ifTruthy. destruct (String.eqb url ""); [bounded|].
      rewrite (fetchProfile_run network url publicKeyOrAddress).
      destruct (fetchProfile network url publicKeyOrAddress).2; bounded.
    + destruct (JSON_parse zoneFile) as [raw|e'];
        [destruct (legacyProfile raw)|]; bounded.
  - change (truthyValue JNull && (0 <? keysLength JNull)%nat) with false.
    cbv iota.
    destruct (JSON_parse zoneFile) as [raw|e'];
      [destruct (legacyProfile raw)|]; bounded.
  - destruct (truthyValue parsed && (0 <? keysLength parsed)%nat).
    + destruct (getTokenFileUrl parsed) as [[url|]|e'] eqn:Hurl;
        [|bounded|bounded].
      specialize (Hhttp parsed url Hurl).
      unfold Bns.ifTruthy. destruct (String.eqb url ""); [bounded|].
      rewrite (fetchProfile_run network url publicKeyOrAddress).
      destruct (fetchProfile network url publicKeyOrAddress).2; bounded.
    + destruct (JSON_parse zoneFile) as [raw|e'];
        [destruct (legacyProfile raw)|]; bounded.
Qed.

(** X22: with a callback that does not throw,
    [resolveZoneFileToPerson] rejects for one reason alone, a
    [TypeError] from reading the zone file object: what the parsers,
    the network and the verification throw is caught. *)
Theorem person_rejects_only_with_type_error
    network zoneFile publicKeyOrAddress error :
  (resolveZoneFileToPerson network zoneFile publicKeyOrAddress).2 = Err error ->
  exists e, error = OfTypeError e.
Proof.
  unfold resolveZoneFileToPerson, parsedWithOrigin, legacyOrRaw, bind, catch,
    lift, emit, ret, throw, typeError.
  destruct (parseZoneFile zoneFile) as [parsed|e].
  2: { destruct (JSON_parse zoneFile) as [raw|e'];
         [destruct (legacyProfile raw)|]; done. }
  destruct (hasOwnProperty parsed "$origin") as [[|]|e].
  - destruct (truthyValue parsed && (0 <? keysLength parsed)%nat).
    + destruct (getTokenFileUrl parsed) as [[url|]|e'].
      * unfold Bns.ifTruthy. destruct (String.eqb url ""); [done|].
        rewrite (fetchProfile_run network url publicKeyOrAddress).
        by destruct (fetchProfile network url publicKeyOrAddress).2.
      * done.
      * cbn. intros [= <-]. by eexists.
    + destruct (JSON_parse zoneFile) as [raw|e'];
        [destruct (legacyProfile raw)|]; done.
  - change (truthyValue JNull && (0 <? keysLength JNull)%nat) with false.
    cbv iota.
    destruct (JSON_parse zoneFile) as [raw|e'];
      [destruct (legacyProfile raw)|]; done.
  - destruct (truthyValue parsed && (0 <? keysLength parsed)%nat).
    + destruct (getTokenFileUrl parsed) as [[url|]|e'].
      * unfold Bns.ifTruthy. destruct (String.eqb url ""); [done|].
        rewrite (fetchProfile_run network url publicKeyOrAddress).
        by destruct (fetchProfile network url publicKeyOrAddress).2.
      * done.
      * cbn. intros [= <-]. by eexists.
    + destruct (JSON_parse zoneFile) as [raw|e'];
        [destruct (legacyProfile raw)|]; done.
Qed.


(** X24: [lookupProfile] is its lookup and then
    [resolveZoneFileToProfile]: when the lookup answers with an object
    that has a [zonefile] and an [address], the run goes on as the
    resolution of that zone file for that address; when the answer
    lacks either, it rejects with an error and takes no further
    step. Without a username it rejects before it asks. *)
Theorem lookup_resolves_the_answer network username zoneFileLookupURL
    events fields :
  username <> "" ->
  lookupZoneFile network username zoneFileLookupURL
  = (events, Ok (JObject fields)) ->
  lookup "hasOwnProperty" fields = None ->
  lookupProfile network "" zoneFileLookupURL = ([], Err Undefined)
  /\ lookupProfile network username zoneFileLookupURL
     = match lookup "zonefile" fields, lookup "address" fields with
       | Some zonefile, Some address =>
           (events
              ++ (resolveZoneFileToProfile network zonefile address).1,
            (resolveZoneFileToProfile network zonefile address).2)
       | _, _ =>
           (events,
            Err (Error ("Invalid zonefile lookup response: did not contain `address`"
                        +:+ " or `zonefile` field")))
       end.
Proof.
  intros Hu Hanswer Hmethod. split; [done|].
  unfold lookupProfile. destruct (String.eqb_spec username ""); [done|].
  rewrite Hanswer.
  unfold bind, lift, typeError, hasOwnProperty, ret, throw.
  rewrite Hmethod. cbn [getField].
  destruct (lookup "zonefile" fields) as [zonefile|];
    [|cbn; by rewrite app_nil_r].
  destruct (lookup "address" fields) as [address|];
    cbn -[resolveZoneFileToProfile].
  - by destruct (resolveZoneFileToProfile network zonefile address).
  - by rewrite app_nil_r.
Qed.

End WithImports.
End ProfilesFacts.

Module ProfilesWitnesses.
Import JsString ProfileZoneFiles Profiles.

Lemma token_file_url_starts_with_http_witness :
  getTokenFileUrl sampleZoneFile
  = Ok (Some "https://gaia.blockstack.org/hub/1abc/profile.json")
  /\ String.prefix "http" "https://gaia.blockstack.org/hub/1abc/profile.json"
     = true.
Proof.
  split; [reflexivity|].
  apply (ProfilesFacts.token_file_url_starts_with_http sampleZoneFile).
  reflexivity.
Defined.

Section Test.
Existing Instance testImports.

Lemma token_file_url_throws_iff_misshapen_witness :
  zoneFileShape (JObject [("$origin", JString "carol.id");
                          ("uri", JArray [JNull])]) = false
  /\ exists e,
       getTokenFileUrl (JObject [("$origin", JString "carol.id");
                                 ("uri", JArray [JNull])]) = Err e.
Proof.
  split; [reflexivity|].
  apply (ProfilesFacts.token_file_url_throws_iff_misshapen
           (JObject [("$origin", JString "carol.id");
                     ("uri", JArray [JNull])])).
  reflexivity.
Defined.

Lemma token_file_url_round_trip_witness :
  occurs ":" "https" = false
  /\ includes "://" "gaia.blockstack.org/hub/1abc/profile.json" = false
  /\ String.prefix "http" "https" = true
  /\ (exists zoneFileTemplate,
        makeProfileZoneFile "alice.id"
          "https://gaia.blockstack.org/hub/1abc/profile.json"
        = Ok (makeZoneFile
                (zoneFileObject "alice.id"
                   "https://gaia.blockstack.org/hub/1abc/profile.json")
                zoneFileTemplate))
  /\ getTokenFileUrl
       (zoneFileObject "alice.id"
          "https://gaia.blockstack.org/hub/1abc/profile.json")
     = Ok (Some "https://gaia.blockstack.org/hub/1abc/profile.json").
Proof.
  split; [reflexivity|]. split; [reflexivity|]. split; [reflexivity|].
  destruct (ProfilesFacts.token_file_url_round_trip "alice.id" "https"
              "gaia.blockstack.org/hub/1abc/profile.json" eq_refl eq_refl)
    as (Hmake & _ & Hget).
  split; [exact Hmake | exact (Hget eq_refl)].
Defined.

Lemma token_file_url_cut_at_second_separator_witness :
  occurs ":" "https" = false
  /\ occurs ":" "example.org/open?url=http" = false
  /\ makeProfileZoneFile "alice.id"
       "https://example.org/open?url=http://gaia.blockstack.org/profile.json"
     = makeProfileZoneFile "alice.id" "https://example.org/open?url=http".
Proof.
  split; [reflexivity|]. split; [reflexivity|].
  apply (ProfilesFacts.token_file_url_cut_at_second_separator "alice.id"
           "https" "example.org/open?url=http"
           "gaia.blockstack.org/profile.json");
    reflexivity.
Defined.

Lemma person_agrees_with_profile_witness :
  (resolveZoneFileToProfile testNetwork sampleZoneFile (JString "1abc")).2
  = Ok (JObject [("name", JString "Alice")])
  /\ calledBack
       (resolveZoneFileToPerson testNetwork sampleZoneFile (JString "1abc")).1
     = [JObject [("name", JString "Alice")]].
Proof.
  split; [reflexivity|].
  apply (ProfilesFacts.person_agrees_with_profile testNetwork sampleZoneFile
           (JString "1abc") (JObject [("name", JString "Alice")])).
  reflexivity.
Defined.

Lemma person_is_silent_when_token_file_fails_witness :
  parseZoneFile testUnreachableZoneFile = Ok testUnreachableZoneFile
  /\ hasOwnProperty testUnreachableZoneFile "$origin" = Ok true
  /\ getTokenFileUrl testUnreachableZoneFile
     = Ok (Some "https://example.org/bob.json")
  /\ (fetchProfile testNetwork "https://example.org/bob.json" (JString "1bob")).2
     = Err (Foreign "TypeError: Failed to fetch")
  /\ (resolveZoneFileToProfile testNetwork testUnreachableZoneFile
        (JString "1bob")).2
     = Err (Foreign "TypeError: Failed to fetch")
  /\ (resolveZoneFileToPerson testNetwork testUnreachableZoneFile
        (JString "1bob")).2 = Ok tt
  /\ calledBack
       (resolveZoneFileToPerson testNetwork testUnreachableZoneFile
          (JString "1bob")).1
     = [].
Proof.
  assert (parseZoneFile testUnreachableZoneFile = Ok testUnreachableZoneFile)
    as Hparsed by reflexivity.
  assert (hasOwnProperty testUnreachableZoneFile "$origin" = Ok true)
    as Horigin by reflexivity.
  assert (getTokenFileUrl testUnreachableZoneFile
          = Ok (Some "https://example.org/bob.json")) as Hurl by reflexivity.
  assert ((fetchProfile testNetwork "https://example.org/bob.json"
             (JString "1bob")).2
          = Err (Foreign "TypeError: Failed to fetch")) as Hfailed
    by reflexivity.
  split; [exact Hparsed|]. split; [exact Horigin|]. split; [exact Hurl|].
  split; [exact Hfailed|].
  destruct (ProfilesFacts.person_is_silent_when_token_file_fails
              testNetwork testUnreachableZoneFile (JString "1bob")
              testUnreachableZoneFile "https://example.org/bob.json"
              (Foreign "TypeError: Failed to fetch")
              Hparsed Horigin Hurl Hfailed)
    as (Hrejected & _ & Hresolved & Hsilent & _).
  split; [exact Hrejected|]. split; [exact Hresolved | exact Hsilent].
Defined.

Lemma person_rejects_only_with_type_error_witness :
  (resolveZoneFileToPerson testNetwork
     (JObject [("$origin", JString "carol.id"); ("uri", JArray [JNull])])
     (JString "1carol")).2
  = Err (OfTypeError (TypeError "Cannot read properties of null or undefined"))
  /\ exists e,
       OfTypeError (TypeError "Cannot read properties of null or undefined")
       = OfTypeError e.
Proof.
  split; [reflexivity|].
  apply (ProfilesFacts.person_rejects_only_with_type_error testNetwork
           (JObject [("$origin", JString "carol.id"); ("uri", JArray [JNull])])
           (JString "1carol")).
  reflexivity.
Defined.


Lemma lookup_resolves_the_answer_witness :
  "alice.id" <> ""
  /\ lookupZoneFile testNetwork "alice.id"
       (Some "https://core.blockstack.org/v1/names/")
     = ([Fetched "https://core.blockstack.org/v1/names/alice.id"],
        Ok (JObject [("zonefile", sampleZoneFile);
                     ("address", JString "1abc")]))
  /\ lookupProfile testNetwork "alice.id"
       (Some "https://core.blockstack.org/v1/names/")
     = ([Fetched "https://core.blockstack.org/v1/names/alice.id"]
          ++ (resolveZoneFileToProfile testNetwork sampleZoneFile
                (JString "1abc")).1,
        (resolveZoneFileToProfile testNetwork sampleZoneFile
           (JString "1abc")).2).
Proof.
  assert ("alice.id" <> "") as Hu by discriminate.
  assert (lookupZoneFile testNetwork "alice.id"
            (Some "https://core.blockstack.org/v1/names/")
          = ([Fetched "https://core.blockstack.org/v1/names/alice.id"],
             Ok (JObject [("zonefile", sampleZoneFile);
                          ("address", JString "1abc")]))) as Hanswer
    by reflexivity.
  split; [exact Hu|]. split; [exact Hanswer|].
  apply (proj2 (ProfilesFacts.lookup_resolves_the_answer testNetwork
                  "alice.id" (Some "https://core.blockstack.org/v1/names/")
                  _ _ Hu Hanswer eq_refl)).
Defined.

End Test.
End ProfilesWitnesses.

(** ** Valid names and namespaces *)

Module SafetyFacts.
Import JsString Safety.

Lemma includes_char c s : includes (String c "") s = occurs c s.
Proof.
  induction s as [|c' s IH]; [done|].
  cbn [includes occurs]. by rewrite JsStringFacts.prefix_char, IH.
Qed.

Lemma allChars_occurs class c s :
  allChars class s = true -> class c = false -> occurs c s = false.
Proof.
  intros Hs Hc. induction s as [|c' s IH]; [done|].
  cbn [allChars occurs] in *. apply andb_true_iff in Hs as [Hc' Hs].
  rewrite (IH Hs), orb_false_r. apply Ascii.eqb_neq. congruence.
Qed.

Lemma allChars_weaken (class class' : ascii -> bool) s :
  (forall c, class c = true -> class' c = true) ->
  allChars class s = true -> allChars class' s = true.
Proof.
  intros Hsub. induction s as [|c s IH]; [done|].
  cbn [allChars]. intros [Hc Hs]%andb_true_iff.
  by rewrite (Hsub c Hc), (IH Hs).
Qed.

Lemma namespaceChar_namePartChar c :
  namespaceChar c = true -> namePartChar c = true.
Proof. unfold namespaceChar, namePartChar. intros ->. done. Qed.

Lemma split_name name namespace :
  allChars namePartChar name = true ->
  allChars namePartChar namespace = true ->
  split "." (name +:+ "." +:+ namespace) = [name; namespace].
Proof.
  intros Hname Hnamespace.
  rewrite (JsStringFacts.split_first_part "." "" name namespace)
    by (by apply (allChars_occurs namePartChar)).
  rewrite (JsStringFacts.split_not_included "." namespace); [done|].
  rewrite includes_char. by apply (allChars_occurs namePartChar).
Qed.

(** X25: [isNameValid] accepts exactly the names of the form
    [name.namespace] of at most 37 characters, with one dot, and
    with a name and a namespace that are not empty and made of
    lower case letters, digits, [-], [_] and [+]. *)
Theorem valid_name_iff fullyQualifiedName :
  isNameValid fullyQualifiedName = true
  <-> exists name namespace,
        fullyQualifiedName = name +:+ "." +:+ namespace
        /\ NAME_PART_RULE name = true
        /\ NAME_PART_RULE namespace = true
        /\ (String.length fullyQualifiedName <= 37)%nat.
Proof.
  unfold isNameValid, LENGTH_MAX_NAME. split.
  - destruct (String.eqb fullyQualifiedName ""); [done|]. cbn [orb].
    destruct (Nat.ltb_spec 37 (String.length fullyQualifiedName)) as [|Hlen];
      [done|].
    pose proof (JsStringFacts.join_split_char "." fullyQualifiedName) as Hjoin.
    destruct (split "." fullyQualifiedName) as [|name [|namespace [|more parts]]];
      try done.
    cbn [length Nat.eqb negb fold_left]. intros Hrule.
    exists name, namespace. split; [done|].
    destruct (NAME_PART_RULE name); [|done]. done.
  - intros (name & namespace & -> & Hname & Hnamespace & Hlen).
    assert (name +:+ "." +:+ namespace <> "") as Hne by (by destruct name).
    apply String.eqb_neq in Hne. rewrite Hne. cbn [orb].
    destruct (Nat.ltb_spec 37 (String.length (name +:+ "." +:+ namespace)));
      [lia|].
    unfold NAME_PART_RULE in Hname, Hnamespace.
    apply andb_true_iff in Hname as [Hname1 Hname2].
    apply andb_true_iff in Hnamespace as [Hnamespace1 Hnamespace2].
    rewrite (split_name name namespace Hname2 Hnamespace2).
    cbn [length Nat.eqb negb fold_left]. unfold NAME_PART_RULE.
    by rewrite Hname1, Hname2, Hnamespace1, Hnamespace2.
Qed.

(** X26: every valid namespace can carry names: a name part that
    [NAME_PART_RULE] accepts, a dot and a namespace that
    [isNamespaceValid] accepts make a name that [isNameValid] accepts,
    as long as the whole has at most 37 characters. *)
Theorem valid_namespace_carries_names name namespace :
  NAME_PART_RULE name = true ->
  isNamespaceValid namespace = true ->
  (String.length (name +:+ "." +:+ namespace) <= 37)%nat ->
  isNameValid (name +:+ "." +:+ namespace) = true.
Proof.
  intros Hname Hnamespace Hlen.
  unfold isNamespaceValid, NAMESPACE_RULE in Hnamespace.
  apply andb_true_iff in Hnamespace as [[Hmin Hmax]%andb_true_iff Hchars].
  assert (NAME_PART_RULE namespace = true) as Hpart.
  { unfold NAME_PART_RULE.
    rewrite (allChars_weaken _ _ _ namespaceChar_namePartChar Hchars).
    destruct namespace; [done|]. done. }
  unfold isNameValid, LENGTH_MAX_NAME.
  assert (name +:+ "." +:+ namespace <> "") as Hne by (by destruct name).
  apply String.eqb_neq in Hne. rewrite Hne. cbn [orb].
  destruct (Nat.ltb_spec 37 (String.length (name +:+ "." +:+ namespace)));
    [lia|].
  unfold NAME_PART_RULE in Hname, Hpart.
  apply andb_true_iff in Hname as [Hname1 Hname2].
  apply andb_true_iff in Hpart as [Hpart1 Hpart2].
  rewrite (split_name name namespace Hname2 Hpart2).
  cbn [length Nat.eqb negb fold_left]. unfold NAME_PART_RULE.
  by rewrite Hname1, Hname2, Hpart1, Hpart2.
Qed.

End SafetyFacts.

Module SafetyWitnesses.
Import JsString Safety.

Lemma valid_name_iff_witness :
  "alice.id" = "alice" +:+ "." +:+ "id"
  /\ NAME_PART_RULE "alice" = true
  /\ NAME_PART_RULE "id" = true
  /\ (String.length "alice.id" <= 37)%nat
  /\ isNameValid "alice.id" = true.
Proof.
  assert ((String.length "alice.id" <= 37)%nat) as Hlen by (simpl; lia).
  split; [reflexivity|]. split; [reflexivity|]. split; [reflexivity|].
  split; [exact Hlen|].
  apply (SafetyFacts.valid_name_iff "alice.id").
  exists "alice", "id".
  split; [reflexivity|]. split; [reflexivity|]. split; [reflexivity|].
  exact Hlen.
Defined.

Lemma valid_namespace_carries_names_witness :
  NAME_PART_RULE "alice" = true
  /\ isNamespaceValid "id" = true
  /\ (String.length ("alice" +:+ "." +:+ "id") <= 37)%nat
  /\ isNameValid ("alice" +:+ "." +:+ "id") = true.
Proof.
  assert ((String.length ("alice" +:+ "." +:+ "id") <= 37)%nat) as Hlen
    by (vm_compute; lia).
  split; [reflexivity|]. split; [reflexivity|]. split; [exact Hlen|].
  apply (SafetyFacts.valid_namespace_carries_names "alice" "id");
    [reflexivity | reflexivity | exact Hlen].
Defined.

End SafetyWitnesses.
